(** * Senas: gesture recognition and adaptive learning engine

    A shallow embedding of [backend/app/services/ml_service.py] and
    [backend/app/services/learning_service.py], and the properties of the
    engine's specification stated over it.

    Conventions of the embedding:
    - a Python [float] is a real number: arithmetic is exact and rounding,
      infinities and NaN are not modelled, except where a property
      depends on the rounding: there the operations round
      ([MLService.Float64]) or are those of binary64
      ([MLService.Binary64]);
    - a Python [int] is an integer of [Z];
    - a Python [dict] with string keys is a [gmap string _];
    - a Python exception is a value of [exn], and code that can raise
      returns a [result];
    - TensorFlow, scikit-learn, the file system and the database are
      collaborators: what they answer is an input of the embedded function. *)

From Stdlib Require Import Floats.
From Stdlib Require Import Reals Lra Lia ZArith.
From stdpp Require Import gmap strings list sorting.

(** ** Exceptions and fallible computations *)

(** The exceptions that [except Exception] catches. *)
Inductive exn : Type :=
  | ValueError (msg : string)
  | KeyError (key : string)
  | IndexError
  | OSError (msg : string)
  | Exception (msg : string).

(** [str(e)] *)
Definition str_exn (e : exn) : string :=
  match e with
  | ValueError msg => msg
  | KeyError key => "'" +:+ key +:+ "'"
  | IndexError => "list index out of range"
  | OSError msg => msg
  | Exception msg => msg
  end.

Inductive result (A : Type) : Type :=
  | Ok (a : A)
  | Raise (e : exn).
Arguments Ok {A} a.
Arguments Raise {A} e.

#[global] Instance result_ret : MRet result := λ A a, Ok a.
#[global] Instance result_bind : MBind result := λ A B f m,
  match m with
  | Ok a => f a
  | Raise e => Raise e
  end.

(** [l[i]] for a non-negative index. *)
Definition item {A} (l : list A) (i : nat) : result A :=
  match l !! i with
  | Some a => Ok a
  | None => Raise IndexError
  end.

(** [d[k]] *)
Definition getitem {A} (d : gmap string A) (k : string) : result A :=
  match d !! k with
  | Some a => Ok a
  | None => Raise (KeyError k)
  end.

#[global] Instance Rlt_decision (a b : R) : Decision (a < b)%R := Rlt_dec a b.
#[global] Instance Rle_decision (a b : R) : Decision (a <= b)%R := Rle_dec a b.

(** [sum(l)] *)
Definition Rsum (l : list R) : R := foldr Rplus 0%R l.

(** A landmark is a [Dict[str, float]] with the keys "x", "y" and "z". *)
Abbreviation landmark := (gmap string R).

Definition float3 : Type := R * R * R.

(** ** ml_service.py *)

Module MLService.
Local Open Scope R_scope.

(** [(float(lm.get("x", 0)), float(lm.get("y", 0)), float(lm.get("z", 0)))] *)
Definition coord_of (lm : landmark) : float3 :=
  (default 0 (lm !! "x"), default 0 (lm !! "y"), default 0 (lm !! "z")).

Definition to_coords (landmarks : list landmark) : list float3 :=
  coord_of <$> landmarks.

Definition finger_tips : list nat := [4; 8; 12; 16; 20]%nat.
Definition finger_bases : list nat := [3; 6; 10; 14; 18]%nat.
Definition finger_chains : list (list nat) :=
  [[1; 2; 3; 4]; [5; 6; 7; 8]; [9; 10; 11; 12]; [13; 14; 15; 16];
   [17; 18; 19; 20]]%nat.

(** [np.sqrt((a[0] - b[0])**2 + (a[1] - b[1])**2 + (a[2] - b[2])**2)] *)
Definition distance (a b : float3) : R :=
  sqrt ((a.1.1 - b.1.1) ^ 2 + (a.1.2 - b.1.2) ^ 2 + (a.2 - b.2) ^ 2).

(** The first loop of [_extract_features_fixed]: three wrist-relative
    values for every point. *)
Definition wrist_relative (wrist : float3) (coords : list float3) : list R :=
  coords ≫= λ coord,
    [coord.1.1 - wrist.1.1; coord.1.2 - wrist.1.2; coord.2 - wrist.2].

(** The loop over [zip(finger_tips, finger_bases)]. *)
Definition tip_base_distances (coords : list float3) : result (list R) :=
  mapM (λ tb : nat * nat,
          tip_coord ← item coords tb.1;
          base_coord ← item coords tb.2;
          mret (distance tip_coord base_coord))
       (zip finger_tips finger_bases).

(** The loop over [finger_tips] with [palm_center = coords[0]]. *)
Definition tip_wrist_distances (coords : list float3) : result (list R) :=
  palm_center ← item coords 0%nat;
  mapM (λ tip_idx : nat,
          tip_coord ← item coords tip_idx;
          mret (distance tip_coord palm_center))
       finger_tips.

Definition vsub (p q : float3) : float3 :=
  (p.1.1 - q.1.1, p.1.2 - q.1.2, p.2 - q.2).
Definition dot (v w : float3) : R :=
  v.1.1 * w.1.1 + v.1.2 * w.1.2 + v.2 * w.2.
(** [np.linalg.norm] *)
Definition norm (v : float3) : R := sqrt (dot v v).
(** [np.clip(x, lo, hi)] *)
Definition clip (x lo hi : R) : R := Rmin (Rmax x lo) hi.

Definition joint_angle (p1 p2 p3 : float3) : R :=
  let v1 := vsub p1 p2 in
  let v2 := vsub p3 p2 in
  let cos_angle := dot v1 v2 / (norm v1 * norm v2 + 1e-6) in
  acos (clip cos_angle (-1) 1).

(** [for i in range(len(chain) - 2)] *)
Definition chain_angles (coords : list float3) (chain : list nat)
  : result (list R) :=
  mapM (λ i : nat,
          c1 ← item chain i;
          c2 ← item chain (i + 1)%nat;
          c3 ← item chain (i + 2)%nat;
          p1 ← item coords c1;
          p2 ← item coords c2;
          p3 ← item coords c3;
          mret (joint_angle p1 p2 p3))
       (seq 0 (length chain - 2)).

Definition joint_angles (coords : list float3) : result (list R) :=
  per_chain ← mapM (chain_angles coords) finger_chains;
  mret (concat per_chain).

(** [while len(features) < 78: features.append(0.0)] *)
Definition pad_features (features : list R) : list R :=
  features ++ replicate (78 - length features) 0.

(** The feature list before padding and truncation. *)
Definition raw_features (coords : list float3) : result (list R) :=
  wrist ← item coords 0%nat;
  tb ← tip_base_distances coords;
  tw ← tip_wrist_distances coords;
  angles ← joint_angles coords;
  mret (wrist_relative wrist coords ++ tb ++ tw ++ angles).

Definition _extract_features_fixed (landmarks : list landmark)
  : result (list R) :=
  if bool_decide (length landmarks ≠ 21%nat) then
    Raise (ValueError "Expected 21 landmarks")
  else
    features ← raw_features (to_coords landmarks);
    mret (take 78 (pad_features features)).

(** *** The feature extractor in floating-point arithmetic *)

(** The arithmetic of the binary64 floats, each seen as the real number
    that it stands for, overflow aside.  [fl] rounds a real number to a
    float: a subtraction, an addition, a multiplication, a division and a
    square root of floats return the rounded exact result (IEEE 754).
    [x**2], [np.arccos], [np.dot] and [np.linalg.norm] are functions of
    the libraries, of which nothing is assumed. *)
Record float_arithmetic : Type := {
  fl : R → R;
  square : R → R;
  np_arccos : R → R;
  np_dot : float3 → float3 → R;
  np_linalg_norm : float3 → R
}.

(** The arithmetic that rounds nothing. *)
Definition exact_arithmetic : float_arithmetic :=
  {| fl := λ x, x; square := λ x, x ^ 2; np_arccos := acos; np_dot := dot;
     np_linalg_norm := norm |}.

(** [_extract_features_fixed] with the roundings of its operations. *)
Module Float64.
Section Float64.
Variable a : float_arithmetic.

(** [np.sqrt((p[0] - q[0])**2 + (p[1] - q[1])**2 + (p[2] - q[2])**2)] *)
Definition distance (p q : float3) : R :=
  fl a (sqrt (fl a (fl a (square a (fl a (p.1.1 - q.1.1))
                          + square a (fl a (p.1.2 - q.1.2)))
                    + square a (fl a (p.2 - q.2))))).

Definition wrist_relative (wrist : float3) (coords : list float3) : list R :=
  coords ≫= λ coord,
    [fl a (coord.1.1 - wrist.1.1); fl a (coord.1.2 - wrist.1.2);
     fl a (coord.2 - wrist.2)].

Definition tip_base_distances (coords : list float3) : result (list R) :=
  mapM (λ tb : nat * nat,
          tip_coord ← item coords tb.1;
          base_coord ← item coords tb.2;
          mret (distance tip_coord base_coord))
       (zip finger_tips finger_bases).

Definition tip_wrist_distances (coords : list float3) : result (list R) :=
  palm_center ← item coords 0%nat;
  mapM (λ tip_idx : nat,
          tip_coord ← item coords tip_idx;
          mret (distance tip_coord palm_center))
       finger_tips.

Definition vsub (p q : float3) : float3 :=
  (fl a (p.1.1 - q.1.1), fl a (p.1.2 - q.1.2), fl a (p.2 - q.2)).

Definition joint_angle (p1 p2 p3 : float3) : R :=
  let v1 := vsub p1 p2 in
  let v2 := vsub p3 p2 in
  let cos_angle :=
    fl a (np_dot a v1 v2
          / fl a (fl a (np_linalg_norm a v1 * np_linalg_norm a v2)
                  + fl a 1e-6)) in
  np_arccos a (clip cos_angle (-1) 1).

Definition chain_angles (coords : list float3) (chain : list nat)
  : result (list R) :=
  mapM (λ i : nat,
          c1 ← item chain i;
          c2 ← item chain (i + 1)%nat;
          c3 ← item chain (i + 2)%nat;
          p1 ← item coords c1;
          p2 ← item coords c2;
          p3 ← item coords c3;
          mret (joint_angle p1 p2 p3))
       (seq 0 (length chain - 2)).

Definition joint_angles (coords : list float3) : result (list R) :=
  per_chain ← mapM (chain_angles coords) finger_chains;
  mret (concat per_chain).

Definition raw_features (coords : list float3) : result (list R) :=
  wrist ← item coords 0%nat;
  tb ← tip_base_distances coords;
  tw ← tip_wrist_distances coords;
  angles ← joint_angles coords;
  mret (wrist_relative wrist coords ++ tb ++ tw ++ angles).

Definition _extract_features_fixed (landmarks : list landmark)
  : result (list R) :=
  if bool_decide (length landmarks ≠ 21%nat) then
    Raise (ValueError "Expected 21 landmarks")
  else
    features ← raw_features (to_coords landmarks);
    mret (take 78 (pad_features features)).

End Float64.
End Float64.

(** The first loop of [_extract_features_fixed] on the binary64 floats
    themselves. *)
Module Binary64.

Definition float3 : Type := float * float * float.

Definition wrist_relative (wrist : float3) (coords : list float3)
  : list float :=
  coords ≫= λ coord,
    [PrimFloat.sub coord.1.1 wrist.1.1; PrimFloat.sub coord.1.2 wrist.1.2;
     PrimFloat.sub coord.2 wrist.2].

End Binary64.

(** *** The pose pre-check and the rejection policy *)

(** [_is_valid_hand_pose]: the loop over [coords] that only [continue]s has
    no effect; any exception gives [True]. *)
Definition _is_valid_hand_pose (landmarks : list landmark) : bool :=
  let coords := to_coords landmarks in
  let body : result bool :=
    wrist ← item coords 0%nat;
    fingertips ← mapM (item coords) finger_tips;
    let valid_fingertips :=
      length (filter (λ tip, 0.01 < distance tip wrist ∧ distance tip wrist < 1.0)
                     fingertips) in
    mret (bool_decide (2 ≤ valid_fingertips)%nat) in
  match body with
  | Ok b => b
  | Raise _ => true
  end.

(** [_calculate_entropy_threshold] *)
Definition _calculate_entropy_threshold (probabilities : list R) : R :=
  let probabilities := (λ p, p + 1e-10) <$> probabilities in
  - Rsum ((λ p, p * ln p) <$> probabilities).

(** [np.max] of a one-dimensional array. *)
Definition np_max (a : list R) : result R :=
  match a with
  | [] => Raise (ValueError "zero-size array to reduction operation maximum which has no identity")
  | x :: a' => Ok (foldl Rmax x a')
  end.

Fixpoint argmax_from (best_i : nat) (best : R) (i : nat) (a : list R) : nat :=
  match a with
  | [] => best_i
  | x :: a' =>
      if bool_decide (best < x) then argmax_from i x (S i) a'
      else argmax_from best_i best (S i) a'
  end.

(** [np.argmax]: the first index of the maximum. *)
Definition np_argmax (a : list R) : result nat :=
  match a with
  | [] => Raise (ValueError "attempt to get argmax of an empty sequence")
  | x :: a' => Ok (argmax_from 0 x 1 a')
  end.

(** The dictionary returned by [predict]. *)
Record prediction_result : Type := {
  prediction : string;
  confidence : R;
  probabilities : gmap string R
}.

(** A dict comprehension [{k: v for k, v in items}]: a later item replaces
    an earlier one with the same key. *)
Definition dict_of_items {A} (items : list (string * A)) : gmap string A :=
  foldl (λ d kv, <[kv.1 := kv.2]> d) ∅ items.

(** [{label: float(prob) for label, prob in zip(class_names, predictions[0])
      if label != "NO_GESTURE"}] *)
Definition filtered_probabilities (class_names : list string) (probs : list R)
  : gmap string R :=
  dict_of_items
    (filter (λ lp : string * R, lp.1 ≠ "NO_GESTURE") (zip class_names probs)).

(** [sum(d.values())] *)
Definition sum_values (d : gmap string R) : R := Rsum (snd <$> map_to_list d).

Definition no_clear_gesture : string := "No se detecta seña clara".
Definition hand_not_detected : string := "Mano no detectada correctamente".

(** Lines 379-383 of [predict]: the probabilities divided by their sum,
    when the sum is positive.  The quotients are exact here and rounded
    in the code: what is proved of them below is their order, not their
    sum. *)
Definition renormalized (filtered : gmap string R) : gmap string R :=
  let total_prob := sum_values filtered in
  if bool_decide (0 < total_prob) then (λ prob, prob / total_prob) <$> filtered
  else filtered.

(** Lines 348-390 of [predict], from the classifier's output on. *)
Definition classify (class_names : list string) (predictions0 : list R)
  : result prediction_result :=
  max_confidence ← np_max predictions0;
  predicted_class ← np_argmax predictions0;
  predicted_label ← item class_names predicted_class;
  let confidence_threshold := 0.5 in
  let entropy_threshold := _calculate_entropy_threshold predictions0 in
  if bool_decide (max_confidence < confidence_threshold)
     || bool_decide (2.5 < entropy_threshold)
     || bool_decide (predicted_label = "NO_GESTURE")
  then
    mret {| prediction := no_clear_gesture;
            confidence := max_confidence;
            probabilities := filtered_probabilities class_names predictions0 |}
  else
    confidence ← item predictions0 predicted_class;
    let filtered := filtered_probabilities class_names predictions0 in
    mret {| prediction := predicted_label;
            confidence := confidence;
            probabilities := renormalized filtered |}.

(** *** The trained components and where they are kept *)

(** A [tf.keras.Model]: [model.predict] on one row of features gives the
    row of class probabilities, or raises. *)
Record keras_model : Type := {
  model_predict : list R → result (list R)
}.

(** A [StandardScaler]: the attribute [scale_] when it is present and not
    [None], and [scaler.transform] on one row. *)
Record standard_scaler : Type := {
  scale_ : option (list R);
  transform : list R → result (list R)
}.

(** The dictionary built by [_create_gesture_validator]. *)
Record gesture_validator : Type := {
  gesture_centroids : gmap string (list R);
  gesture_std : gmap string (list R);
  global_mean : list R;
  global_std : list R
}.

(** An entry of ["trainingHistory"]. *)
Record epoch_metrics : Type := {
  epoch : Z;
  e_accuracy : R;
  e_loss : R;
  valAccuracy : R;
  valLoss : R
}.

(** An entry of ["confusionMatrix"]. *)
Record class_metrics : Type := {
  precision : R;
  recall : R;
  f1Score : R;
  support : Z
}.

(** The metrics dictionary of a training run. *)
Record metrics : Type := {
  accuracy : R;
  totalSamples : Z;
  trainingTime : Z;
  trainingHistory : list epoch_metrics;
  confusionMatrix : gmap string class_metrics;
  classDistribution : gmap string Z
}.

(** [_create_default_scaler]: zero mean and unit scale on 78 features. *)
Definition _create_default_scaler : standard_scaler :=
  {| scale_ := Some (replicate 78 1);
     transform := λ row,
       if bool_decide (length row = 78%nat) then Ok ((λ x, (x - 0) / 1) <$> row)
       else Raise (ValueError "X has a different number of features") |}.

(** The files of one model directory.  [None]: the file does not exist;
    [Some (Raise e)]: reading it back raises [e]. *)
Record model_dir : Type := {
  model_h5 : option (result keras_model);
  scaler_pkl : option (result standard_scaler);
  validator_pkl : option (result gesture_validator);
  label_encoder_pkl : option (result (list string));
  label_encoder_json : option (result (list string));
  metrics_json : option (result metrics)
}.

Definition empty_dir : model_dir :=
  {| model_h5 := None; scaler_pkl := None; validator_pkl := None;
     label_encoder_pkl := None; label_encoder_json := None;
     metrics_json := None |}.

(** The model directories under [settings.MODEL_DIR], by model identifier.
    The directory of a model is [_get_safe_model_path(model_id)]:
    [os.path.join] and [os.path.normpath] are functions of the library
    and are not embedded, and the directory is named here by the
    identifier.  Identifiers whose paths have one normal form, as "m" and
    "./m", share a directory, so that nothing is stated below about the
    directories of two identifiers. *)
Abbreviation disk := (gmap string model_dir).

(** The attributes of an [MLService] object; [label_encoders] keeps the
    [classes_] of each encoder. *)
Record t : Type := {
  models : gmap string keras_model;
  label_encoders : gmap string (list string);
  scalers : gmap string standard_scaler;
  gesture_validators : gmap string (option gesture_validator)
}.

(** [MLService.__init__] *)
Definition init : t :=
  {| models := ∅; label_encoders := ∅; scalers := ∅; gesture_validators := ∅ |}.

Record components : Type := {
  c_model : keras_model;
  c_class_names : list string;
  c_scaler : standard_scaler;
  c_validator : option gesture_validator
}.

Definition store (self : t) (model_id : string) (c : components) : t :=
  {| models := <[model_id := c_model c]> (models self);
     label_encoders := <[model_id := c_class_names c]> (label_encoders self);
     scalers := <[model_id := c_scaler c]> (scalers self);
     gesture_validators := <[model_id := c_validator c]> (gesture_validators self) |}.

(** Lines 217-300 of [predict]: the components read from the directory. *)
Definition load_from_disk (fs : disk) (model_id : string) : result components :=
  match fs !! model_id with
  | None => Raise (Exception "Model directory not found")
  | Some dir =>
      match model_h5 dir with
      | None => Raise (Exception "Model file not found")
      | Some (Raise e) => Raise (Exception ("Failed to load model: " +:+ str_exn e))
      | Some (Ok model) =>
          class_names ←
            match label_encoder_pkl dir with
            | Some (Ok classes) => Ok classes
            | _ =>
                match label_encoder_json dir with
                | None => Raise (Exception "No label encoder found")
                | Some (Raise e) =>
                    Raise (Exception ("Failed to load label encoder: " +:+ str_exn e))
                | Some (Ok classes) => Ok classes
                end
            end;
          let scaler :=
            match scaler_pkl dir with
            | Some (Ok sc) => sc
            | _ => _create_default_scaler
            end in
          let validator :=
            match validator_pkl dir with
            | Some (Ok v) => Some v
            | _ => None
            end in
          mret {| c_model := model; c_class_names := class_names;
                  c_scaler := scaler; c_validator := validator |}
      end
  end.

(** Lines 209-305 of [predict]: the cached components when the model, the
    encoder and the scaler are all cached, else the ones read from the
    directory, which are then cached. *)
Definition get_components (self : t) (fs : disk) (model_id : string)
  : result components * t :=
  match models self !! model_id, label_encoders self !! model_id,
        scalers self !! model_id with
  | Some model, Some classes, Some scaler =>
      (Ok {| c_model := model; c_class_names := classes; c_scaler := scaler;
             c_validator := default None (gesture_validators self !! model_id) |},
       self)
  | _, _, _ =>
      match load_from_disk fs model_id with
      | Ok c => (Ok c, store self model_id c)
      | Raise e => (Raise e, self)
      end
  end.

(** Lines 329-338 of [predict]. *)
Definition scale_features (scaler : standard_scaler) (features_array : list R)
  : list R :=
  match scale_ scaler with
  | Some sc =>
      if bool_decide (length sc = length features_array) then
        match transform scaler features_array with
        | Ok features_scaled => features_scaled
        | Raise _ => features_array
        end
      else features_array
  | None => features_array
  end.

(** Lines 307-390 of [predict], with the components at hand. *)
Definition predict_with (c : components) (landmarks : option (list landmark))
  : result prediction_result :=
  match landmarks with
  | None | Some [] => Raise (ValueError "No landmarks provided")
  | Some landmarks =>
      if bool_decide (length landmarks ≠ 21%nat) then
        Raise (ValueError "Expected 21 landmarks")
      else if negb (_is_valid_hand_pose landmarks) then
        mret {| prediction := hand_not_detected; confidence := 0.0;
                probabilities := ∅ |}
      else
        features_array ←
          match _extract_features_fixed landmarks with
          | Ok features => Ok features
          | Raise e => Raise (Exception ("Feature extraction failed: " +:+ str_exn e))
          end;
        let features_scaled := scale_features (c_scaler c) features_array in
        predictions0 ←
          match model_predict (c_model c) features_scaled with
          | Ok row => Ok row
          | Raise e => Raise (Exception ("Model prediction failed: " +:+ str_exn e))
          end;
        classify (c_class_names c) predictions0
  end.

(** [predict]: the result or the exception raised, and the object after
    the call. *)
Definition predict (self : t) (fs : disk) (model_id : string)
    (prediction_data : gmap string (list landmark))
  : result prediction_result * t :=
  let '(loaded, self) := get_components self fs model_id in
  let body := c ← loaded; predict_with c (prediction_data !! "landmarks") in
  match body with
  | Ok r => (Ok r, self)
  | Raise e => (Raise (Exception ("Error making prediction: " +:+ str_exn e)), self)
  end.

(** *** Training: the persistence of the trained components *)

(** How writing a file fails: [OpenFails] leaves the file as it was;
    [DumpFails e r] leaves a truncated file, which raises [r] when read. *)
Inductive write_failure : Type :=
  | OpenFails (e : exn)
  | DumpFails (e r : exn).

Definition failure_exn (w : write_failure) : exn :=
  match w with
  | OpenFails e => e
  | DumpFails e _ => e
  end.

(** The file after [open(path, "wb")] and [dump] of [v]. *)
Definition written {A} (outcome : option write_failure)
    (old : option (result A)) (v : A) : option (result A) :=
  match outcome with
  | None => Some (Ok v)
  | Some (OpenFails _) => old
  | Some (DumpFails _ r) => Some (Raise r)
  end.

(** [history.history] of [model.fit]: the lists under "accuracy" and
    "loss", and those under "val_accuracy" and "val_loss" when these keys
    are present. *)
Record fit_history : Type := {
  h_accuracy : list R;
  h_loss : list R;
  h_val_accuracy : option (list R);
  h_val_loss : option (list R)
}.

(** What lines 54-117 of [train_model] leave in scope when they do not
    raise: the fitted model, the label encoder's classes, the scaler and
    the validator, the split of the encoded data, the labels and the
    history of the fit. *)
Record fitted : Type := {
  f_model : keras_model;
  f_label_encoder : list string;
  f_scaler : standard_scaler;
  f_gesture_validator : gesture_validator;
  f_X_test : list (list R);
  f_y_test : list Z;
  f_y_train : list Z;
  f_labels_with_negative : list string;
  f_history : fit_history
}.

(** An entry of the dictionary that [classification_report] returns with
    [output_dict=True]: a number, as under "accuracy", or the scores of a
    class or of an average. *)
Inductive report_entry : Type :=
  | Score (value : R)
  | Scores (scores : class_metrics).

(** [float(entry)] *)
Definition as_float (entry : report_entry) : result R :=
  match entry with
  | Score value => Ok value
  | Scores _ =>
      Raise (Exception "float() argument must be a string or a real number")
  end.

(** The dictionary [entry] of which ["precision"], ["recall"],
    ["f1-score"] and ["support"] are read. *)
Definition as_scores (entry : report_entry) : result class_metrics :=
  match entry with
  | Scores scores => Ok scores
  | Score _ => Raise (Exception "'float' object is not subscriptable")
  end.

(** The answers of the collaborators during one call of [train_model]. *)
Record training_env : Type := {
  (** lines 54-117: data preparation and [model.fit] *)
  prepared : result fitted;
  (** [os.makedirs(model_dir, exist_ok=True)] *)
  makedirs : option exn;
  (** [model.save(temp_path)] followed by [shutil.move] *)
  save_model : option exn;
  dump_scaler : option write_failure;
  dump_validator : option write_failure;
  dump_label_encoder : option write_failure;
  dump_label_json : option write_failure;
  (** [model.predict(X_test)] *)
  test_predictions : result (list (list R));
  (** [classification_report(y_true, y_pred, target_names=labels,
      output_dict=True, zero_division=0)] *)
  classification_report :
    list Z → list nat → list string → result (gmap string report_entry);
  dump_metrics : option write_failure
}.

(** [float(history.history.get(key, [0])[i]) if history.history.get(key)
    else 0] *)
Definition history_column (column : option (list R)) (i : nat) : result R :=
  match column with
  | Some (x :: l) => item (x :: l) i
  | Some [] | None => Ok 0
  end.

(** The entry of ["trainingHistory"] for [i] in
    [range(len(history.history["accuracy"]))]. *)
Definition training_history_entry (history : fit_history) (i : nat)
  : result epoch_metrics :=
  accuracy ← item (h_accuracy history) i;
  loss ← item (h_loss history) i;
  val_accuracy ← history_column (h_val_accuracy history) i;
  val_loss ← history_column (h_val_loss history) i;
  mret {| epoch := Z.of_nat i + 1; e_accuracy := accuracy; e_loss := loss;
          valAccuracy := val_accuracy; valLoss := val_loss |}.

(** The loop over [enumerate(labels)] in [_calculate_metrics], from the
    index [i] on. *)
Fixpoint label_metrics (report : gmap string report_entry) (y_true : list Z)
    (i : Z) (labels : list string) (partial : metrics) : result metrics :=
  match labels with
  | [] => Ok partial
  | label :: labels =>
      confusion_matrix ←
        match report !! label with
        | Some entry =>
            if bool_decide (label ≠ "NO_GESTURE") then
              scores ← as_scores entry;
              mret (<[label := scores]> (confusionMatrix partial))
            else mret (confusionMatrix partial)
        | None => mret (confusionMatrix partial)
        end;
      let class_distribution :=
        if bool_decide (label ≠ "NO_GESTURE") then
          <[label := Z.of_nat (length (filter (λ y, y = i) y_true))]>
            (classDistribution partial)
        else classDistribution partial in
      label_metrics report y_true (i + 1) labels
        {| accuracy := accuracy partial;
           totalSamples := totalSamples partial;
           trainingTime := trainingTime partial;
           trainingHistory := trainingHistory partial;
           confusionMatrix := confusion_matrix;
           classDistribution := class_distribution |}
  end.

(** [_calculate_metrics]: every exception of the [try] block is answered
    with the metrics of the [except] clause. *)
Definition _calculate_metrics
    (classification_report :
       list Z → list nat → list string → result (gmap string report_entry))
    (y_true : list Z) (y_pred : list nat) (labels : list string)
    (history : fit_history) : metrics :=
  let body : result metrics :=
    report ← classification_report y_true y_pred labels;
    accuracy ← (entry ← getitem report "accuracy"; as_float entry);
    training_history ←
      mapM (training_history_entry history)
           (seq 0 (length (h_accuracy history)));
    label_metrics report y_true 0 labels
      {| accuracy := accuracy;
         totalSamples := Z.of_nat (length y_true);
         trainingTime := 0;
         trainingHistory := training_history;
         confusionMatrix := ∅;
         classDistribution := ∅ |} in
  match body with
  | Ok metrics => metrics
  | Raise _ =>
      {| accuracy := 0.0;
         totalSamples := Z.of_nat (length y_true);
         trainingTime := 0;
         trainingHistory := [];
         confusionMatrix := ∅;
         classDistribution := ∅ |}
  end.

(** Lines 171-183 of [train_model]: the metrics of the run. *)
Definition final_metrics (env : training_env) (f : fitted) : result metrics :=
  if bool_decide (0 < length (f_X_test f))%nat then
    y_pred ← test_predictions env;
    y_pred_classes ← mapM np_argmax y_pred;
    mret (_calculate_metrics (classification_report env) (f_y_test f)
                             y_pred_classes (f_labels_with_negative f)
                             (f_history f))
  else
    accuracy ←
      match last (h_accuracy (f_history f)) with
      | Some accuracy => Ok accuracy
      | None => Raise IndexError
      end;
    mret {| accuracy := accuracy;
            totalSamples := Z.of_nat (length (f_y_train f));
            trainingTime := 0;
            trainingHistory := [];
            confusionMatrix := ∅;
            classDistribution := ∅ |}.

Definition set_model_h5 (v : option (result keras_model)) (d : model_dir) :=
  {| model_h5 := v; scaler_pkl := scaler_pkl d; validator_pkl := validator_pkl d;
     label_encoder_pkl := label_encoder_pkl d;
     label_encoder_json := label_encoder_json d; metrics_json := metrics_json d |}.
Definition set_scaler_pkl (v : option (result standard_scaler)) (d : model_dir) :=
  {| model_h5 := model_h5 d; scaler_pkl := v; validator_pkl := validator_pkl d;
     label_encoder_pkl := label_encoder_pkl d;
     label_encoder_json := label_encoder_json d; metrics_json := metrics_json d |}.
Definition set_validator_pkl (v : option (result gesture_validator)) (d : model_dir) :=
  {| model_h5 := model_h5 d; scaler_pkl := scaler_pkl d; validator_pkl := v;
     label_encoder_pkl := label_encoder_pkl d;
     label_encoder_json := label_encoder_json d; metrics_json := metrics_json d |}.
Definition set_label_encoder_pkl (v : option (result (list string))) (d : model_dir) :=
  {| model_h5 := model_h5 d; scaler_pkl := scaler_pkl d;
     validator_pkl := validator_pkl d; label_encoder_pkl := v;
     label_encoder_json := label_encoder_json d; metrics_json := metrics_json d |}.
Definition set_label_encoder_json (v : option (result (list string))) (d : model_dir) :=
  {| model_h5 := model_h5 d; scaler_pkl := scaler_pkl d;
     validator_pkl := validator_pkl d; label_encoder_pkl := label_encoder_pkl d;
     label_encoder_json := v; metrics_json := metrics_json d |}.
Definition set_metrics_json (v : option (result metrics)) (d : model_dir) :=
  {| model_h5 := model_h5 d; scaler_pkl := scaler_pkl d;
     validator_pkl := validator_pkl d; label_encoder_pkl := label_encoder_pkl d;
     label_encoder_json := label_encoder_json d; metrics_json := v |}.

(** The outer handler of [train_model]. *)
Definition training_error (e : exn) : exn :=
  Exception ("Error training model: " +:+ str_exn e).

(** Lines 119-199 of [train_model]: the result or the exception of the
    body, the object and the disk after it. *)
Definition persist (self : t) (fs : disk) (model_id : string)
    (env : training_env) (f : fitted) : result metrics * t * disk :=
  match makedirs env with
  | Some e => (Raise e, self, fs)
  | None =>
  let dir := default empty_dir (fs !! model_id) in
  (* model.h5: a failure is raised again *)
  match save_model env with
  | Some e => (Raise e, self, <[model_id := dir]> fs)
  | None =>
  let dir := set_model_h5 (Some (Ok (f_model f))) dir in
  (* scaler.pkl, validator.pkl, label_encoder.pkl: a failure is printed *)
  let dir := set_scaler_pkl
               (written (dump_scaler env) (scaler_pkl dir) (f_scaler f)) dir in
  let dir := set_validator_pkl
               (written (dump_validator env) (validator_pkl dir)
                        (f_gesture_validator f)) dir in
  let dir := set_label_encoder_pkl
               (written (dump_label_encoder env) (label_encoder_pkl dir)
                        (f_label_encoder f)) dir in
  (* label_encoder.json: a failure is raised again *)
  let dir := set_label_encoder_json
               (written (dump_label_json env) (label_encoder_json dir)
                        (f_label_encoder f)) dir in
  match dump_label_json env with
  | Some w => (Raise (failure_exn w), self, <[model_id := dir]> fs)
  | None =>
  (* the metrics: an exception of [model.predict] is raised again *)
  match final_metrics env f with
  | Raise e => (Raise e, self, <[model_id := dir]> fs)
  | Ok m =>
  (* metrics.json: a failure is printed *)
  let dir := set_metrics_json
               (written (dump_metrics env) (metrics_json dir) m) dir in
  let self := store self model_id
                {| c_model := f_model f; c_class_names := f_label_encoder f;
                   c_scaler := f_scaler f;
                   c_validator := Some (f_gesture_validator f) |} in
  (Ok m, self, <[model_id := dir]> fs)
  end end end end.

(** [train_model]: every exception of the body is raised again as
    [Exception("Error training model: ...")]. *)
Definition train_model (self : t) (fs : disk) (model_id : string)
    (env : training_env) : result metrics * t * disk :=
  let '(r, self', fs') :=
    match prepared env with
    | Raise e => (Raise e, self, fs)
    | Ok f => persist self fs model_id env f
    end in
  match r with
  | Ok m => (Ok m, self', fs')
  | Raise e => (Raise (training_error e), self', fs')
  end.

(** *** Training data and class weights *)

(** A training sample, which has a label: [ts_landmarks] is [None] when
    ["landmarks"] is absent or not a list; an entry of the list is [None]
    when it is not a dictionary.  The coordinates of a dictionary are
    numbers, as everywhere in the embedding. *)
Record training_sample : Type := {
  ts_label : string;
  ts_landmarks : option (list (option landmark))
}.

(** [all(key in landmark for key in ['x', 'y', 'z'])] *)
Definition has_xyz (landmark : landmark) : bool :=
  forallb (λ key, bool_decide (is_Some (landmark !! key))) ["x"; "y"; "z"].

(** The loop over [landmarks] in [_prepare_training_data]: the
    dictionaries of the list when [valid_landmarks] stays true. *)
Fixpoint valid_landmarks (landmarks : list (option landmark))
  : option (list landmark) :=
  match landmarks with
  | [] => Some []
  | Some landmark :: landmarks =>
      if has_xyz landmark then cons landmark <$> valid_landmarks landmarks
      else None
  | None :: _ => None
  end.

(** The body of the loop over the samples: the features and the label
    that are appended to [X] and [y], or [None] when the sample is
    skipped. *)
Definition prepare_sample (sample : training_sample)
  : option (list R * string) :=
  match ts_landmarks sample with
  | None => None
  | Some landmarks =>
      if bool_decide (length landmarks ≠ 21%nat) then None
      else
        match valid_landmarks landmarks with
        | None => None
        | Some landmarks =>
            match _extract_features_fixed landmarks with
            | Ok features => Some (features, ts_label sample)
            | Raise _ => None
            end
        end
  end.


(** [Counter(y_train)] *)
Definition Counter (y_train : list Z) : gmap Z nat :=
  foldl (λ counts class_id,
           <[class_id := S (default 0%nat (counts !! class_id))]> counts)
        ∅ y_train.

(** The weight is the exact quotient of the integers here, and its
    rounding in the code: what is proved of it below holds for both. *)
Definition _calculate_class_weights (y_train : list Z) : gmap Z R :=
  let class_counts := Counter y_train in
  let total_samples := length y_train in
  let num_classes := size class_counts in
  (λ count : nat, INR total_samples / (INR num_classes * INR count))
    <$> class_counts.

End MLService.

(** ** api/routes/models.py *)

Module ModelsRoute.

(** [train_model_background], as far as the [status] column of the model's
    row goes: "ready" when [train_model] returns, "error" when it raises.
    [rows] maps the identifier of each stored model to its status. *)
Definition train_model_background (rows : gmap string string)
    (self : MLService.t) (fs : MLService.disk) (model_id : string)
    (env : MLService.training_env)
  : gmap string string * MLService.t * MLService.disk :=
  let '(r, self', fs') := MLService.train_model self fs model_id env in
  let status := match r with Ok _ => "ready" | Raise _ => "error" end in
  (match rows !! model_id with
   | Some _ => <[model_id := status]> rows
   | None => rows
   end, self', fs').

End ModelsRoute.

(** ** learning_service.py *)

Module LearningService.
Local Open Scope R_scope.

(** The dictionary returned by [compare_with_target]. *)
Record comparison_result : Type := {
  prediction : string;
  confidence : R;
  isMatch : bool;
  feedback : string;
  similarity : R;
  timestamp : string;
  detectionQuality : string
}.

(** The per-label entry of ["labelProgress"]. *)
Record label_stats : Type := {
  attempts : Z;
  successes : Z;
  averageConfidence : R
}.

(** The dictionary kept in [session_stats] for one session key. *)
Record stats : Type := {
  totalAttempts : Z;
  correctAttempts : Z;
  totalConfidence : R;
  totalSimilarity : R;
  currentStreak : Z;
  bestStreak : Z;
  timeSpent : Z;
  lastActivity : string;
  labelProgress : gmap string label_stats
}.

(** The dictionary returned by [get_session_stats]. *)
Record session_view : Type := {
  v_totalAttempts : Z;
  v_correctAttempts : Z;
  v_averageConfidence : R;
  v_averageSimilarity : R;
  v_successRate : R;
  v_currentStreak : Z;
  v_bestStreak : Z;
  v_timeSpent : Z;
  v_lastActivity : option string
}.

(** The [progress_data] dictionary: a field is [None] when its key is
    absent. *)
Record progress_data : Type := {
  pd_isCorrect : option bool;
  pd_confidence : option R;
  pd_similarity : option R;
  pd_sessionTime : option Z;
  pd_targetLabel : option string
}.

(** A row of the [datasets] table: [d_landmarks] is the landmark list of
    the sample, or the exception of [json.loads] on the stored text. *)
Record dataset : Type := {
  d_label : string;
  d_landmarks : result (list landmark)
}.

(** The answers of the database during one call. *)
Record database : Type := {
  (** [SessionLocal()] *)
  session_local : option exn;
  (** the rows with the given model identifier and label *)
  query_datasets : string → string → result (list dataset);
  (** [db.close()] *)
  close : option exn
}.

(** The attributes of a [LearningService] object. *)
Record t : Type := {
  ml_service : MLService.t;
  comparison_cache : gmap string (list comparison_result);
  session_stats : gmap string stats
}.

(** [LearningService.__init__] *)
Definition init : t :=
  {| ml_service := MLService.init; comparison_cache := ∅; session_stats := ∅ |}.

(** [f"{model_id}_{user_id}"] *)
Definition session_key (model_id user_id : string) : string :=
  model_id +:+ "_" +:+ user_id.

Definition _evaluate_match (prediction target_label : string) (confidence : R)
  : bool :=
  if bool_decide (prediction ≠ target_label) then false
  else
    let confidence_threshold := 0.75 in
    bool_decide (confidence_threshold <= confidence).

Definition _generate_advanced_feedback (prediction target : string)
    (confidence : R) (is_match : bool) : string :=
  if is_match then
    if bool_decide (0.95 <= confidence) then
      "¡Perfecto! Seña ejecutada a la perfección"
    else if bool_decide (0.85 <= confidence) then
      "¡Excelente! Muy buena ejecución de la seña"
    else if bool_decide (0.75 <= confidence) then
      "¡Muy bien! Seña correcta, sigue practicando"
    else "¡Correcto! Puedes mejorar la precisión"
  else
    if bool_decide (confidence < 0.3) then
      "Seña no detectada claramente. Verifica que tu mano esté bien visible"
    else if bool_decide (prediction ∈ ["No se detecta seña clara";
                                       "Mano no detectada correctamente"]) then
      "Asegúrate de mantener la mano estable dentro del marco de la cámara"
    else if bool_decide (prediction = "Gesto no válido") then
      "Intenta hacer un gesto más claro y definido"
    else
      "Detecté '" +:+ prediction +:+ "'. Intenta realizar la seña '" +:+ target
      +:+ "' más claramente".

(** The body of the loop of [_compute_landmark_similarity]. *)
Definition point_distance (lm1 lm2 : landmark) : result R :=
  x1 ← getitem lm1 "x"; x2 ← getitem lm2 "x";
  y1 ← getitem lm1 "y"; y2 ← getitem lm2 "y";
  z1 ← getitem lm1 "z"; z2 ← getitem lm2 "z";
  mret (sqrt ((x1 - x2) ^ 2 + (y1 - y2) ^ 2 + (z1 - z2) ^ 2)).

(** [sum(distances) / len(distances)] *)
Definition avg_distance (distances : list R) : R :=
  Rsum distances / INR (length distances).

Definition _compute_landmark_similarity (landmarks1 landmarks2 : list landmark)
  : R :=
  if bool_decide (length landmarks1 ≠ 21%nat ∨ length landmarks2 ≠ 21%nat) then 0.0
  else
    let body : result R :=
      distances ←
        mapM (λ i : nat,
                lm1 ← item landmarks1 i;
                lm2 ← item landmarks2 i;
                point_distance lm1 lm2)
             (seq 0 21);
      let similarity := Rmax 0.0 (1.0 - avg_distance distances * 10) in
      mret (Rmin 1.0 similarity) in
    match body with
    | Ok similarity => similarity
    | Raise _ => 0.0
    end.

(** [_calculate_similarity_score]: an exception of [db.close()] in the
    [finally] clause leaves the function. *)
Definition _calculate_similarity_score (db : database)
    (user_landmarks : list landmark) (target_label model_id : string)
  : result R :=
  match session_local db with
  | Some _ => Ok 0.0
  | None =>
      let score :=
        match query_datasets db model_id target_label with
        | Raise _ => 0.0
        | Ok rows =>
            let reference_samples := take 5 rows in
            match reference_samples with
            | [] => 0.0
            | _ =>
                foldl (λ max_similarity sample,
                         match d_landmarks sample with
                         | Ok ref_landmarks =>
                             Rmax max_similarity
                               (_compute_landmark_similarity user_landmarks
                                                             ref_landmarks)
                         | Raise _ => max_similarity
                         end)
                      0.0 reference_samples
            end
        end in
      match close db with
      | Some e => Raise e
      | None => Ok score
      end
  end.

(** [((tip['x'] - wrist['x'])**2 + (tip['y'] - wrist['y'])**2)**0.5] *)
Definition planar_distance (tip wrist : landmark) : result R :=
  tx ← getitem tip "x"; wx ← getitem wrist "x";
  ty ← getitem tip "y"; wy ← getitem wrist "y";
  mret (sqrt ((tx - wx) ^ 2 + (ty - wy) ^ 2)).

Definition _assess_detection_quality (landmarks : list landmark) (confidence : R)
  : string :=
  let body : result string :=
    if bool_decide (length landmarks ≠ 21%nat) then mret "poor"
    else
      wrist ← item landmarks 0%nat;
      fingertips ← mapM (item landmarks) [4; 8; 12; 16; 20]%nat;
      distances ← mapM (λ tip, planar_distance tip wrist) fingertips;
      let hand_span := foldl Rmax 0 distances in
      if bool_decide (hand_span < 0.05) then mret "poor"
      else if bool_decide (0.4 < hand_span) then mret "poor"
      else if bool_decide (0.8 <= confidence) then mret "excellent"
      else if bool_decide (0.6 <= confidence) then mret "good"
      else mret "fair" in
  match body with
  | Ok quality => quality
  | Raise _ => "poor"
  end.

(** [l[-50:]] *)
Definition last50 {A} (l : list A) : list A := drop (length l - 50) l.

Definition _update_session_cache
    (cache : gmap string (list comparison_result))
    (model_id target_label : string) (r : comparison_result)
  : gmap string (list comparison_result) :=
  let cache_key := model_id +:+ "_" +:+ target_label in
  let entries := default [] (cache !! cache_key) ++ [r] in
  <[cache_key := if bool_decide (50 < length entries)%nat then last50 entries
                 else entries]> cache.

(** The result of the [except Exception] clause of [compare_with_target]. *)
Definition error_result (now : string) (e : exn) : comparison_result :=
  {| prediction := "Error";
     confidence := 0.0;
     isMatch := false;
     feedback := "Error en la comparación: " +:+ str_exn e;
     similarity := 0.0;
     timestamp := now;
     detectionQuality := "error" |}.

(** The [try] block of [compare_with_target]: the result or the exception,
    and the object after it.  [now] is [datetime.utcnow().isoformat()]. *)
Definition compare_body (self : t) (fs : MLService.disk) (db : database)
    (now model_id : string) (landmarks : list landmark) (target_label : string)
  : result comparison_result * t :=
  let '(predicted, ml) :=
    MLService.predict (ml_service self) fs model_id {[ "landmarks" := landmarks ]} in
  let self := {| ml_service := ml; comparison_cache := comparison_cache self;
                 session_stats := session_stats self |} in
  match predicted with
  | Raise e => (Raise e, self)
  | Ok prediction_result =>
      let prediction := MLService.prediction prediction_result in
      let confidence := MLService.confidence prediction_result in
      let is_match := _evaluate_match prediction target_label confidence in
      let feedback :=
        _generate_advanced_feedback prediction target_label confidence is_match in
      match _calculate_similarity_score db landmarks target_label model_id with
      | Raise e => (Raise e, self)
      | Ok similarity_score =>
          let comparison_result :=
            {| prediction := prediction;
               confidence := confidence;
               isMatch := is_match;
               feedback := feedback;
               similarity := similarity_score;
               timestamp := now;
               detectionQuality := _assess_detection_quality landmarks confidence |} in
          (Ok comparison_result,
           {| ml_service := ml;
              comparison_cache :=
                _update_session_cache (comparison_cache self) model_id
                                      target_label comparison_result;
              session_stats := session_stats self |})
      end
  end.

Definition compare_with_target (self : t) (fs : MLService.disk) (db : database)
    (now model_id : string) (landmarks : list landmark) (target_label : string)
  : comparison_result * t :=
  match compare_body self fs db now model_id landmarks target_label with
  | (Ok r, self') => (r, self')
  | (Raise e, self') => (error_result now e, self')
  end.

(** *** Session statistics *)

(** [bool(s)] of a string. *)
Definition truthy (s : string) : bool := bool_decide (s ≠ "").

Definition get_session_stats (self : t) (model_id : string)
    (session_id : option string) : session_view :=
  let cache_key :=
    match session_id with
    | Some sid => if truthy sid then model_id +:+ "_" +:+ sid else model_id
    | None => model_id
    end in
  match session_stats self !! cache_key with
  | None =>
      {| v_totalAttempts := 0; v_correctAttempts := 0;
         v_averageConfidence := 0.0; v_averageSimilarity := 0.0;
         v_successRate := 0.0; v_currentStreak := 0; v_bestStreak := 0;
         v_timeSpent := 0; v_lastActivity := None |}
  | Some stats =>
      let success_rate :=
        IZR (correctAttempts stats) / IZR (Z.max (totalAttempts stats) 1) * 100 in
      {| v_totalAttempts := totalAttempts stats;
         v_correctAttempts := correctAttempts stats;
         v_averageConfidence :=
           totalConfidence stats / IZR (Z.max (totalAttempts stats) 1);
         v_averageSimilarity :=
           totalSimilarity stats / IZR (Z.max (totalAttempts stats) 1);
         v_successRate := success_rate;
         v_currentStreak := currentStreak stats;
         v_bestStreak := bestStreak stats;
         v_timeSpent := timeSpent stats;
         v_lastActivity := Some (lastActivity stats) |}
  end.

(** The statistics created by [update_progress] for a new session key. *)
Definition fresh_stats (now : string) : stats :=
  {| totalAttempts := 0; correctAttempts := 0; totalConfidence := 0.0;
     totalSimilarity := 0.0; currentStreak := 0; bestStreak := 0;
     timeSpent := 0; lastActivity := now; labelProgress := ∅ |}.

Definition fresh_label_stats : label_stats :=
  {| attempts := 0; successes := 0; averageConfidence := 0.0 |}.

(** [progress_data.get("isCorrect")] as a condition. *)
Definition is_correct (pd : progress_data) : bool :=
  default false (pd_isCorrect pd).

(** Lines 126-157 of [update_progress]: the statistics of the session key
    after the attempt.  The counters and streaks are integers; the sums
    and the average of the confidences are exact here and rounded in the
    code. *)
Definition record_attempt (now : string) (pd : progress_data) (st : stats)
  : stats :=
  let correct := if is_correct pd then (correctAttempts st + 1)%Z
                 else correctAttempts st in
  let current := if is_correct pd then (currentStreak st + 1)%Z else 0%Z in
  let best := if is_correct pd then Z.max (bestStreak st) current
              else bestStreak st in
  let label_progress :=
    match pd_targetLabel pd with
    | Some target_label =>
        if truthy target_label then
          let ls := default fresh_label_stats (labelProgress st !! target_label) in
          let n := (attempts ls + 1)%Z in
          <[target_label :=
              {| attempts := n;
                 successes := if is_correct pd then (successes ls + 1)%Z
                              else successes ls;
                 averageConfidence :=
                   (averageConfidence ls * IZR (n - 1)
                    + default 0.0 (pd_confidence pd)) / IZR n |}]>
            (labelProgress st)
        else labelProgress st
    | None => labelProgress st
    end in
  {| totalAttempts := totalAttempts st + 1;
     correctAttempts := correct;
     totalConfidence := totalConfidence st + default 0.0 (pd_confidence pd);
     totalSimilarity := totalSimilarity st + default 0.0 (pd_similarity pd);
     currentStreak := current;
     bestStreak := best;
     timeSpent := timeSpent st + default 0%Z (pd_sessionTime pd);
     lastActivity := now;
     labelProgress := label_progress |}.

(** Lines 113-126 of [update_progress]: the statistics under the session
    key, created when the key is new. *)
Definition current_stats (self : t) (now session_key : string) : stats :=
  default (fresh_stats now) (session_stats self !! session_key).

(** [update_progress]: [now] is [datetime.utcnow().isoformat()]. *)
Definition update_progress (self : t) (now model_id user_id : string)
    (pd : progress_data) : session_view * t :=
  let session_key := session_key model_id user_id in
  let current := current_stats self now session_key in
  let self :=
    {| ml_service := ml_service self;
       comparison_cache := comparison_cache self;
       session_stats :=
         <[session_key := record_attempt now pd current]> (session_stats self) |} in
  (get_session_stats self model_id (Some user_id), self).

Definition reset_user_progress (self : t) (model_id user_id : string)
  : bool * t :=
  let session_key := session_key model_id user_id in
  let session_stats :=
    if bool_decide (session_key ∈ dom (session_stats self))
    then delete session_key (session_stats self) else session_stats self in
  let comparison_cache :=
    if bool_decide (session_key ∈ dom (comparison_cache self))
    then delete session_key (comparison_cache self) else comparison_cache self in
  (true, {| ml_service := ml_service self;
            comparison_cache := comparison_cache;
            session_stats := session_stats |}).

(** *** Label performance *)

(** The dictionary returned by [get_label_performance]. *)
Record label_performance : Type := {
  p_label : string;
  p_attempts : Z;
  p_successes : Z;
  p_successRate : R;
  p_averageConfidence : R;
  p_difficulty : string;
  p_recommendations : list string
}.

Definition _assess_difficulty (success_rate avg_confidence : R) : string :=
  if bool_decide (80 <= success_rate ∧ 0.8 <= avg_confidence) then "easy"
  else if bool_decide (60 <= success_rate ∧ 0.6 <= avg_confidence) then "medium"
  else if bool_decide (40 <= success_rate) then "hard"
  else "very_hard".

Definition _generate_recommendations (success_rate avg_confidence : R)
    (label : string) : list string :=
  let recommendations := [] in
  let recommendations :=
    if bool_decide (success_rate < 50) then
      recommendations
      ++ ["Practica más la seña '" +:+ label
          +:+ "' observando cuidadosamente la imagen de referencia";
          "Intenta realizar movimientos más lentos y deliberados"]
    else recommendations in
  let recommendations :=
    if bool_decide (avg_confidence < 0.6) then
      recommendations
      ++ ["Mejora la iluminación y asegúrate de que tu mano esté completamente visible";
          "Mantén la mano estable por unos segundos al realizar la seña"]
    else recommendations in
  let recommendations :=
    if bool_decide (success_rate < 70 ∧ 0.7 <= avg_confidence) then
      recommendations
      ++ ["Tu detección es buena, pero necesitas ser más preciso con la forma de la seña"]
    else recommendations in
  if bool_decide (recommendations = []) then
    recommendations
    ++ ["¡Excelente progreso! Continúa practicando para mantener tu nivel"]
  else recommendations.

Definition get_label_performance (self : t) (model_id label user_id : string)
  : label_performance :=
  let session_key := session_key model_id user_id in
  let unknown :=
    {| p_label := label; p_attempts := 0; p_successes := 0;
       p_successRate := 0.0; p_averageConfidence := 0.0;
       p_difficulty := "unknown"; p_recommendations := [] |} in
  match session_stats self !! session_key with
  | None => unknown
  | Some stats =>
      match labelProgress stats !! label with
      | None => unknown
      | Some label_stats =>
          let success_rate :=
            IZR (successes label_stats)
            / IZR (Z.max (attempts label_stats) 1) * 100 in
          let difficulty :=
            _assess_difficulty success_rate (averageConfidence label_stats) in
          let recommendations :=
            _generate_recommendations success_rate
                                      (averageConfidence label_stats) label in
          {| p_label := label;
             p_attempts := attempts label_stats;
             p_successes := successes label_stats;
             p_successRate := success_rate;
             p_averageConfidence := averageConfidence label_stats;
             p_difficulty := difficulty;
             p_recommendations := recommendations |}
      end
  end.

(** *** Reference images *)

(** A row of the [datasets] table as [get_reference_images] reads it.
    [s_landmarks] is [None] when the stored value is false as a condition
    ([None], an empty string or list); otherwise it is the landmark list,
    stored as a list or read by [json.loads], or the exception raised on
    the way.  [s_created_at] is the creation time in ISO format. *)
Record sample : Type := {
  s_label : string;
  s_image_data : option string;
  s_landmarks : option (result (list landmark));
  s_created_at : option string
}.

(** The loop over the fingertips in [_calculate_reference_quality_score]:
    the score when the loop ends, and the exception that ended it. *)
Fixpoint score_fingertips (wrist : landmark) (fingertips : list landmark)
    (score : R) : R * option exn :=
  match fingertips with
  | [] => (score, None)
  | tip :: fingertips =>
      match planar_distance tip wrist with
      | Raise e => (score, Some e)
      | Ok distance =>
          score_fingertips wrist fingertips
            (if bool_decide (0.1 < distance ∧ distance < 0.4) then score + 10
             else score)
      end
  end.

Definition _calculate_reference_quality_score (sample : sample) : R :=
  let score := 0.0 in
  let score :=
    match s_landmarks sample with
    | None => score
    | Some (Raise _) => score - 20
    | Some (Ok landmarks) =>
        if bool_decide (length landmarks = 21%nat) then
          let score := score + 50 in
          match
            wrist ← item landmarks 0%nat;
            fingertips ← mapM (item landmarks) [4; 8; 12; 16; 20]%nat;
            mret (wrist, fingertips)
          with
          | Raise _ => score - 20
          | Ok (wrist, fingertips) =>
              match score_fingertips wrist fingertips score with
              | (score, None) => score
              | (score, Some _) => score - 20
              end
          end
        else score
    end in
  match s_created_at sample with
  | Some _ => score + 5
  | None => score
  end.

(** [scored_samples.sort(key=lambda x: x[1], reverse=True)]: the sort is
    stable, entries with equal scores keep their order. *)
Fixpoint insert_by_score {A} (x : A * R) (l : list (A * R)) : list (A * R) :=
  match l with
  | [] => [x]
  | y :: l' =>
      if bool_decide (x.2 < y.2) then y :: insert_by_score x l' else x :: l
  end.

Definition sort_by_score_reverse {A} (l : list (A * R)) : list (A * R) :=
  foldr insert_by_score [] l.

Definition _select_best_reference_sample (samples : list sample)
  : result sample :=
  if bool_decide (length samples = 1%nat) then item samples 0%nat
  else
    let scored_samples :=
      (λ sample, (sample, _calculate_reference_quality_score sample))
        <$> samples in
    let scored_samples := sort_by_score_reverse scored_samples in
    first ← item scored_samples 0%nat;
    mret first.1.

(** An entry of the list returned by [get_reference_images]. *)
Record reference : Type := {
  r_label : string;
  r_referenceImage : option string;
  r_totalSamples : nat;
  r_landmarks : option (result (list landmark));
  r_created : option string
}.

(** [references[dataset.label].append(dataset)], with a new list for a
    new label: a dictionary keeps its keys in the order of their first
    insertion. *)
Fixpoint append_reference (references : list (string * list sample))
    (dataset : sample) : list (string * list sample) :=
  match references with
  | [] => [(s_label dataset, [dataset])]
  | (label, samples) :: references =>
      if bool_decide (label = s_label dataset)
      then (label, samples ++ [dataset]) :: references
      else (label, samples) :: append_reference references dataset
  end.

(** [sorted(result, key=lambda x: x['label'])]: strings are compared
    character by character. *)
Fixpoint insert_by_label (x : reference) (l : list reference) : list reference :=
  match l with
  | [] => [x]
  | y :: l' =>
      if String.ltb (r_label y) (r_label x) then y :: insert_by_label x l'
      else x :: l
  end.

Definition sorted_by_label (l : list reference) : list reference :=
  foldr insert_by_label [] l.

(** [get_reference_images]: [all_datasets] is the answer of the query for
    the rows of a model. *)
Definition get_reference_images (db : database)
    (all_datasets : string → result (list sample)) (model_id : string)
  : result (list reference) :=
  match session_local db with
  | Some e => Raise e
  | None =>
      let body : result (list reference) :=
        datasets ← all_datasets model_id;
        let references := foldl append_reference [] datasets in
        result ←
          mapM (λ entry : string * list sample,
                  let '(label, samples) := entry in
                  best_sample ← _select_best_reference_sample samples;
                  mret {| r_label := label;
                          r_referenceImage := s_image_data best_sample;
                          r_totalSamples := length samples;
                          r_landmarks := s_landmarks best_sample;
                          r_created := s_created_at best_sample |})
               references;
        mret (sorted_by_label result) in
      match close db with
      | Some e => Raise e
      | None => body
      end
  end.

End LearningService.

(** ** Notions of the specification *)

Module Spec.
Local Open Scope R_scope.

(** Moving a point by [offset]. *)
Definition translate (offset : float3) (lm : landmark) : landmark :=
  <["x" := default 0 (lm !! "x") + offset.1.1]>
    (<["y" := default 0 (lm !! "y") + offset.1.2]>
       (<["z" := default 0 (lm !! "z") + offset.2]> lm)).

(** The coordinate [x'] is the float [x + o] up to the relative error [u]
    of the addition; [x] and [x'] are floats, and [x] and [x + o] are at
    most [B] in absolute value. *)
Definition axis_moved (u B : R) (F : R → Prop) (o x x' : R) : Prop :=
  F x ∧ F x'
  ∧ Rabs x <= B ∧ Rabs (x + o) <= B
  ∧ Rabs (x' - (x + o)) <= u * Rabs (x + o).

(** The point [lm'] is the point [lm] moved by [offset] in floating-point
    arithmetic. *)
Definition moved_within (u B : R) (F : R → Prop) (offset : float3)
    (lm lm' : landmark) : Prop :=
  let c := MLService.coord_of lm in
  let c' := MLService.coord_of lm' in
  axis_moved u B F offset.1.1 c.1.1 c'.1.1
  ∧ axis_moved u B F offset.1.2 c.1.2 c'.1.2
  ∧ axis_moved u B F offset.2 c.2 c'.2.

(** In binary64: the floats next to 0.1 and 0.2, a hand with the wrist at
    the origin and every other point at x = 0.1, and a point moved by an
    offset. *)
Definition tenth : float := 0x1.999999999999ap-4%float.
Definition fifth : float := 0x1.999999999999ap-3%float.

Definition binary64_hand : list MLService.Binary64.float3 :=
  (0, 0, 0)%float :: replicate 20 (tenth, 0, 0)%float.

Definition binary64_move (offset point : MLService.Binary64.float3)
  : MLService.Binary64.float3 :=
  (PrimFloat.add point.1.1 offset.1.1, PrimFloat.add point.1.2 offset.1.2,
   PrimFloat.add point.2 offset.2).

(** A point with numeric x, y and z. *)
Definition numeric_xyz (lm : landmark) : Prop :=
  is_Some (lm !! "x") ∧ is_Some (lm !! "y") ∧ is_Some (lm !! "z").

(** [clamp(x, lo, hi)] *)
Definition clamp (x lo hi : R) : R :=
  if bool_decide (x < lo) then lo
  else if bool_decide (hi < x) then hi
  else x.

(** The average over the points of the Euclidean distance between the
    points of the same index. *)
Definition average_distance (landmarks1 landmarks2 : list landmark) : R :=
  Rsum (zip_with (λ lm1 lm2,
                    MLService.distance (MLService.coord_of lm1)
                                       (MLService.coord_of lm2))
                 landmarks1 landmarks2)
  / INR (length landmarks1).

(** The uniform probability vector over [K] classes. *)
Definition uniform (K : nat) : list R := replicate K (1 / INR K).

(** A set of 21 numeric points, all at the origin. *)
Definition origin21 : list landmark :=
  replicate 21 {[ "x" := 0; "y" := 0; "z" := 0 ]}.

(** The point with the given coordinates. *)
Definition point (x y z : R) : landmark := {[ "x" := x; "y" := y; "z" := z ]}.

(** A hand with the wrist at the origin and every other point at distance
    one half of it. *)
Definition open_hand : list landmark :=
  point 0 0 0 :: replicate 20 (point 0.5 0 0).

(** The fixed rejection result for the class probabilities [probs]. *)
Definition rejection (class_names : list string) (probs : list R)
    (max_confidence : R) : MLService.prediction_result :=
  {| MLService.prediction := MLService.no_clear_gesture;
     MLService.confidence := max_confidence;
     MLService.probabilities :=
       MLService.filtered_probabilities class_names probs |}.

(** The result for a winning label that is not rejected. *)
Definition acceptance (class_names : list string) (probs : list R)
    (predicted_label : string) (max_confidence : R)
  : MLService.prediction_result :=
  {| MLService.prediction := predicted_label;
     MLService.confidence := max_confidence;
     MLService.probabilities :=
       MLService.renormalized
         (MLService.filtered_probabilities class_names probs) |}.

(** A model with the given classes that answers [probs] on every input. *)
Definition constant_components (class_names : list string) (probs : list R)
  : MLService.components :=
  {| MLService.c_model := {| MLService.model_predict := λ _, Ok probs |};
     MLService.c_class_names := class_names;
     MLService.c_scaler := MLService._create_default_scaler;
     MLService.c_validator := None |}.

(** A model one of whose gestures is named like the rejection message. *)
Definition homonym_classes : list string :=
  ["A"; "NO_GESTURE"; "No se detecta seña clara"].
Definition homonym_probs : list R := [0.25; 0; 0.75].
Definition homonym_service : MLService.t :=
  MLService.store MLService.init "m"
    (constant_components homonym_classes homonym_probs).

(** A model with two gestures that is sure of the first. *)
Definition plain_classes : list string := ["A"; "B"; "NO_GESTURE"].
Definition plain_probs : list R := [0.75; 0.25; 0].
Definition plain_service : MLService.t :=
  MLService.store MLService.init "m"
    (constant_components plain_classes plain_probs).

(** Class probabilities none of which reaches one half. *)
Definition unsure_probs : list R := [0.4; 0.3; 0.3].

(** The metrics step of a training run does not raise: with a test set,
    the classifier predicts it and every predicted row has an entry;
    without one, the history of the fit has a last accuracy. *)
Definition metrics_step_succeeds (env : MLService.training_env)
    (f : MLService.fitted) : Prop :=
  match MLService.f_X_test f with
  | _ :: _ =>
      ∃ y_pred, MLService.test_predictions env = Ok y_pred
                ∧ Forall (λ row, row ≠ []) y_pred
  | [] => MLService.h_accuracy (MLService.f_history f) ≠ []
  end.

(** The steps of a training run whose failure [train_model] raises again. *)
Definition critical_steps_succeed (env : MLService.training_env) : Prop :=
  ∃ f,
    MLService.prepared env = Ok f
    ∧ MLService.makedirs env = None
    ∧ MLService.save_model env = None
    ∧ MLService.dump_label_json env = None
    ∧ metrics_step_succeeds env f.

(** The metrics of the [except] clause of [_calculate_metrics]: nothing
    but the size of the test set. *)
Definition fabricated_metrics (y_true : list Z) : MLService.metrics :=
  {| MLService.accuracy := 0;
     MLService.totalSamples := Z.of_nat (length y_true);
     MLService.trainingTime := 0;
     MLService.trainingHistory := [];
     MLService.confusionMatrix := ∅;
     MLService.classDistribution := ∅ |}.

(** The components that [train_model] caches. *)
Definition trained_components (f : MLService.fitted) : MLService.components :=
  {| MLService.c_model := MLService.f_model f;
     MLService.c_class_names := MLService.f_label_encoder f;
     MLService.c_scaler := MLService.f_scaler f;
     MLService.c_validator := Some (MLService.f_gesture_validator f) |}.

(** The status that the background trainer leaves on a stored model. *)
Definition marked (status : string) (self : MLService.t) (fs : MLService.disk)
    (model_id : string) (env : MLService.training_env) : Prop :=
  ∀ rows : gmap string string,
    is_Some (rows !! model_id) →
    (ModelsRoute.train_model_background rows self fs model_id env).1.1
    !! model_id = Some status.

(** A training run with two gestures and twelve samples, too few for a
    test set, and its metrics. *)
Definition sample_fitted : MLService.fitted :=
  {| MLService.f_model := {| MLService.model_predict := λ _, Ok plain_probs |};
     MLService.f_label_encoder := plain_classes;
     MLService.f_scaler := MLService._create_default_scaler;
     MLService.f_gesture_validator :=
       {| MLService.gesture_centroids := ∅; MLService.gesture_std := ∅;
          MLService.global_mean := []; MLService.global_std := [] |};
     MLService.f_X_test := [];
     MLService.f_y_test := [];
     MLService.f_y_train := replicate 12 0%Z;
     MLService.f_labels_with_negative := plain_classes;
     MLService.f_history :=
       {| MLService.h_accuracy := [1]; MLService.h_loss := [0];
          MLService.h_val_accuracy := None; MLService.h_val_loss := None |} |}.

Definition sample_metrics : MLService.metrics :=
  {| MLService.accuracy := 1; MLService.totalSamples := 12;
     MLService.trainingTime := 0;
     MLService.trainingHistory := []; MLService.confusionMatrix := ∅;
     MLService.classDistribution := ∅ |}.

(** The same run with a test set of one sample of class 0. *)
Definition tested_fitted : MLService.fitted :=
  {| MLService.f_model := MLService.f_model sample_fitted;
     MLService.f_label_encoder := plain_classes;
     MLService.f_scaler := MLService._create_default_scaler;
     MLService.f_gesture_validator :=
       MLService.f_gesture_validator sample_fitted;
     MLService.f_X_test := [replicate 78 0];
     MLService.f_y_test := [0%Z];
     MLService.f_y_train := replicate 12 0%Z;
     MLService.f_labels_with_negative := plain_classes;
     MLService.f_history := MLService.f_history sample_fitted |}.

(** [classification_report] when the classes of the test set are fewer
    than the target names. *)
Definition report_raises (y_true : list Z) (y_pred : list nat)
    (labels : list string) : result (gmap string MLService.report_entry) :=
  Raise (ValueError "Number of classes does not match size of target_names").

(** The run in which only the writing of [scaler.pkl] fails. *)
Definition scaler_write_fails : MLService.training_env :=
  {| MLService.prepared := Ok sample_fitted;
     MLService.makedirs := None;
     MLService.save_model := None;
     MLService.dump_scaler :=
       Some (MLService.OpenFails (OSError "No space left on device"));
     MLService.dump_validator := None;
     MLService.dump_label_encoder := None;
     MLService.dump_label_json := None;
     MLService.test_predictions := Ok [];
     MLService.classification_report := report_raises;
     MLService.dump_metrics := None |}.

(** The run with a test set in which only [classification_report] fails. *)
Definition report_fails : MLService.training_env :=
  {| MLService.prepared := Ok tested_fitted;
     MLService.makedirs := None;
     MLService.save_model := None;
     MLService.dump_scaler := None;
     MLService.dump_validator := None;
     MLService.dump_label_encoder := None;
     MLService.dump_label_json := None;
     MLService.test_predictions := Ok [plain_probs];
     MLService.classification_report := report_raises;
     MLService.dump_metrics := None |}.

(** The run in which only the writing of [label_encoder.json] fails. *)
Definition label_json_write_fails : MLService.training_env :=
  {| MLService.prepared := Ok sample_fitted;
     MLService.makedirs := None;
     MLService.save_model := None;
     MLService.dump_scaler := None;
     MLService.dump_validator := None;
     MLService.dump_label_encoder := None;
     MLService.dump_label_json :=
       Some (MLService.OpenFails (OSError "No space left on device"));
     MLService.test_predictions := Ok [];
     MLService.classification_report := report_raises;
     MLService.dump_metrics := None |}.

(** The comparison result of a failed comparison. *)
Definition is_error_result (r : LearningService.comparison_result) : Prop :=
  LearningService.prediction r = "Error"
  ∧ LearningService.confidence r = 0
  ∧ LearningService.isMatch r = false
  ∧ LearningService.similarity r = 0
  ∧ LearningService.detectionQuality r = "error".

(** The comparison result of a comparison in which nothing is raised. *)
Definition comparison_of (now : string) (landmarks : list landmark)
    (target_label : string) (pr : MLService.prediction_result) (score : R)
  : LearningService.comparison_result :=
  let prediction := MLService.prediction pr in
  let confidence := MLService.confidence pr in
  let is_match :=
    LearningService._evaluate_match prediction target_label confidence in
  {| LearningService.prediction := prediction;
     LearningService.confidence := confidence;
     LearningService.isMatch := is_match;
     LearningService.feedback :=
       LearningService._generate_advanced_feedback prediction target_label
                                                   confidence is_match;
     LearningService.similarity := score;
     LearningService.timestamp := now;
     LearningService.detectionQuality :=
       LearningService._assess_detection_quality landmarks confidence |}.

(** A database whose query for the reference samples raises. *)
Definition broken_query : LearningService.database :=
  {| LearningService.session_local := None;
     LearningService.query_datasets :=
       λ _ _, Raise (Exception "server closed the connection unexpectedly");
     LearningService.close := None |}.

(** A database without reference samples. *)
Definition no_samples : LearningService.database :=
  {| LearningService.session_local := None;
     LearningService.query_datasets := λ _ _, Ok [];
     LearningService.close := None |}.

(** One call of [update_progress]. *)
Record call : Type := {
  at_time : string;
  for_model : string;
  for_user : string;
  attempt : LearningService.progress_data
}.

(** The object after a sequence of calls of [update_progress]. *)
Definition after_calls (self : LearningService.t) (calls : list call)
  : LearningService.t :=
  foldl (λ self c,
           (LearningService.update_progress self (at_time c) (for_model c)
                                            (for_user c) (attempt c)).2)
        self calls.

(** An attempt of user "u" on model "m" at gesture "A". *)
Definition attempt_of (correct : bool) : call :=
  {| at_time := "2024-01-01T00:00:00"; for_model := "m"; for_user := "u";
     attempt :=
       {| LearningService.pd_isCorrect := Some correct;
          LearningService.pd_confidence := Some 0.9;
          LearningService.pd_similarity := Some 0.8;
          LearningService.pd_sessionTime := Some 5%Z;
          LearningService.pd_targetLabel := Some "A" |} |}.

(** The invariant of the streak counters of one session. *)
Definition streaks_ok (st : LearningService.stats) : Prop :=
  (0 ≤ LearningService.currentStreak st ≤ LearningService.bestStreak st)%Z.

(** The cached components of the other models are the same in [self] and
    [self']. *)
Definition same_elsewhere (model_id : string) (self self' : MLService.t)
  : Prop :=
  ∀ other, other ≠ model_id →
    MLService.models self' !! other = MLService.models self !! other
    ∧ MLService.label_encoders self' !! other
      = MLService.label_encoders self !! other
    ∧ MLService.scalers self' !! other = MLService.scalers self !! other
    ∧ MLService.gesture_validators self' !! other
      = MLService.gesture_validators self !! other.

(** A run of [train_model] in which no step before the metrics fails and
    every file is written. *)
Definition flawless_run (f : MLService.fitted)
    (test_predictions : result (list (list R)))
    (classification_report :
       list Z → list nat → list string
       → result (gmap string MLService.report_entry))
  : MLService.training_env :=
  {| MLService.prepared := Ok f;
     MLService.makedirs := None;
     MLService.save_model := None;
     MLService.dump_scaler := None;
     MLService.dump_validator := None;
     MLService.dump_label_encoder := None;
     MLService.dump_label_json := None;
     MLService.test_predictions := test_predictions;
     MLService.classification_report := classification_report;
     MLService.dump_metrics := None |}.

(** Two fallible computations end alike: with the same value, or both
    with an exception. *)
Definition same_outcome {A} (r1 r2 : result A) : Prop :=
  match r1, r2 with
  | Ok a, Ok b => a = b
  | Raise _, Raise _ => True
  | _, _ => False
  end.

(** The three messages for a matching attempt. *)
Definition match_messages : list string :=
  ["¡Perfecto! Seña ejecutada a la perfección";
   "¡Excelente! Muy buena ejecución de la seña";
   "¡Muy bien! Seña correcta, sigue practicando"].

(** The detection-quality tiers of a comparison result. *)
Definition quality_tiers : list string :=
  ["excellent"; "good"; "fair"; "poor"; "error"].

(** No stored comparison history is longer than 50 entries. *)
Definition histories_bounded (self : LearningService.t) : Prop :=
  ∀ key history,
    LearningService.comparison_cache self !! key = Some history →
    (length history ≤ 50)%nat.

(** A learning service whose classifier is the plain model. *)
Definition practice_service : LearningService.t :=
  {| LearningService.ml_service := plain_service;
     LearningService.comparison_cache := ∅;
     LearningService.session_stats := ∅ |}.

(** The counters of a session are consistent. *)
Definition counters_ok (st : LearningService.stats) : Prop :=
  (0 ≤ LearningService.correctAttempts st ≤ LearningService.totalAttempts st)%Z.

(** The statistics that [get_session_stats] returns for an unknown key. *)
Definition zero_view : LearningService.session_view :=
  {| LearningService.v_totalAttempts := 0;
     LearningService.v_correctAttempts := 0;
     LearningService.v_averageConfidence := 0.0;
     LearningService.v_averageSimilarity := 0.0;
     LearningService.v_successRate := 0.0;
     LearningService.v_currentStreak := 0;
     LearningService.v_bestStreak := 0;
     LearningService.v_timeSpent := 0;
     LearningService.v_lastActivity := None |}.

(** The string has no underscore. *)
Fixpoint no_underscore (s : string) : Prop :=
  match s with
  | EmptyString => True
  | String c s' => String c "" ≠ "_" ∧ no_underscore s'
  end.

(** The confidence that an attempt reports. *)
Definition confidence_of (c : call) : R :=
  default 0 (LearningService.pd_confidence (attempt c)).

(** The attempt is at the label. *)
Definition targets (label : string) (c : call) : Prop :=
  LearningService.pd_targetLabel (attempt c) = Some label.

(** The attempt is reported as correct. *)
Definition correct (c : call) : Prop :=
  LearningService.is_correct (attempt c) = true.

(** The entry of a label in the label progress, or the initial entry. *)
Definition label_entry (st : LearningService.stats) (label : string)
  : LearningService.label_stats :=
  default LearningService.fresh_label_stats
          (LearningService.labelProgress st !! label).

(** The calls are attempts of the user on the model. *)
Definition session_calls (model_id user_id : string) (calls : list call)
  : Prop :=
  Forall (λ c, for_model c = model_id ∧ for_user c = user_id) calls.

(** The sample has a list of 21 landmarks. *)
Definition complete (s : LearningService.sample) : Prop :=
  ∃ landmarks,
    LearningService.s_landmarks s = Some (Ok landmarks)
    ∧ length landmarks = 21%nat.

(** The rows of a label, in the order of the table. *)
Definition rows_of (label : string) (datasets : list LearningService.sample)
  : list LearningService.sample :=
  filter (λ d, LearningService.s_label d = label) datasets.

(** A row of label "A" without landmarks, and one with the open hand. *)
Definition blank_sample : LearningService.sample :=
  {| LearningService.s_label := "A";
     LearningService.s_image_data := None;
     LearningService.s_landmarks := None;
     LearningService.s_created_at := Some "2024-01-01T00:00:00" |}.

Definition hand_sample : LearningService.sample :=
  {| LearningService.s_label := "A";
     LearningService.s_image_data := Some "hand.png";
     LearningService.s_landmarks := Some (Ok open_hand);
     LearningService.s_created_at := None |}.

(** The label of the first entry is not after the label of the second. *)
Definition label_le (a b : LearningService.reference) : Prop :=
  String.leb (LearningService.r_label a) (LearningService.r_label b) = true.

(** Every entry of the dictionary [references] holds the rows of its
    label, and at least one. *)
Definition grouped (datasets : list LearningService.sample)
    (references : list (string * list LearningService.sample)) : Prop :=
  Forall (λ entry, entry.2 = rows_of entry.1 datasets ∧ entry.2 ≠ [])
         references.

(** The table with the two rows of label "A". *)
Definition two_rows (model_id : string) : result (list LearningService.sample) :=
  Ok [blank_sample; hand_sample].

(** The entries of ["labelProgress"] are consistent: every label that has
    an entry has been attempted, and not more often with success than at
    all. *)
Definition labels_ok (st : LearningService.stats) : Prop :=
  ∀ label ls,
    LearningService.labelProgress st !! label = Some ls →
    (0 ≤ LearningService.successes ls ≤ LearningService.attempts ls
     ∧ 1 ≤ LearningService.attempts ls)%Z.

(** The recommendation for a label that needs nothing, and the first
    recommendation for a label that needs practice. *)
Definition praise : string :=
  "¡Excelente progreso! Continúa practicando para mantener tu nivel".

Definition practice_advice (label : string) : string :=
  "Practica más la seña '" +:+ label
  +:+ "' observando cuidadosamente la imagen de referencia".

Definition difficulties : list string := ["easy"; "medium"; "hard"; "very_hard"].

(** The number of samples of a class. *)
Definition occurrences (class_id : Z) (y : list Z) : nat :=
  length (filter (λ x, x = class_id) y).

(** The sample has a list of 21 dictionaries, each with the keys x, y
    and z. *)
Definition usable (sample : MLService.training_sample) : Prop :=
  ∃ landmarks,
    MLService.ts_landmarks sample = Some (Some <$> landmarks)
    ∧ length landmarks = 21%nat
    ∧ Forall numeric_xyz landmarks.

End Spec.

(** * Properties *)

(** ** Fallible computations *)

Lemma item_lookup {A} (l : list A) (i : nat) (a : A) :
  l !! i = Some a → item l i = Ok a.
Proof. intros H. unfold item. by rewrite H. Qed.

(** ** The feature extractor *)

Section Features.
Import MLService Spec.
Local Open Scope R_scope.

Lemma wrist_relative_length wrist coords :
  length (wrist_relative wrist coords) = (3 * length coords)%nat.
Proof.
  unfold wrist_relative. induction coords as [|c coords IH]; [done|].
  cbn [mbind list_bind]. rewrite length_app, IH. simpl. lia.
Qed.

Lemma pad_features_length features :
  (78 ≤ length (pad_features features))%nat.
Proof. unfold pad_features. rewrite length_app, length_replicate. lia. Qed.

Lemma fixed_length features : length (take 78 (pad_features features)) = 78%nat.
Proof. rewrite length_take. pose proof (pad_features_length features). lia. Qed.

Lemma truncated features :
  (78 ≤ length features)%nat → take 78 (pad_features features) = take 78 features.
Proof. intros H. unfold pad_features. by rewrite take_app_le. Qed.


(** A list of known length, written out element by element. *)
Ltac explode l H :=
  repeat (destruct l as [|? l]; [discriminate H|]);
  destruct l; [clear H | discriminate H].

Lemma raw_features_shape (coords : list float3) :
  length coords = 21%nat →
  ∃ wrist tb tw angles,
    coords !! 0%nat = Some wrist
    ∧ tip_base_distances coords = Ok tb ∧ length tb = 5%nat
    ∧ tip_wrist_distances coords = Ok tw ∧ length tw = 5%nat
    ∧ joint_angles coords = Ok angles ∧ length angles = 10%nat
    ∧ raw_features coords
      = Ok (wrist_relative wrist coords ++ tb ++ tw ++ angles).
Proof.
  intros H. explode coords H.
  do 4 eexists. repeat split; reflexivity.
Qed.

Lemma extract_features_raw (landmarks : list landmark) (raw : list R) :
  length landmarks = 21%nat →
  raw_features (to_coords landmarks) = Ok raw →
  _extract_features_fixed landmarks = Ok (take 78 (pad_features raw)).
Proof.
  intros Hlen Hraw. unfold _extract_features_fixed.
  rewrite bool_decide_eq_false_2 by (intros Hne; by apply Hne).
  by rewrite Hraw.
Qed.

(** The first 63 features are the wrist-relative coordinates. *)
Lemma extract_features_prefix (landmarks : list landmark) :
  length landmarks = 21%nat →
  ∃ wrist features,
    to_coords landmarks !! 0%nat = Some wrist
    ∧ _extract_features_fixed landmarks = Ok features
    ∧ take 63 features = wrist_relative wrist (to_coords landmarks).
Proof.
  intros Hlen.
  destruct (raw_features_shape (to_coords landmarks)) as
    (wrist & tb & tw & angles & Hw & _ & Htb & _ & Htw & _ & Hang & Hraw).
  { unfold to_coords. by rewrite length_fmap. }
  exists wrist. eexists. split; [done|]. split.
  { by apply extract_features_raw. }
  assert (Hrel : length (wrist_relative wrist (to_coords landmarks)) = 63%nat).
  { rewrite wrist_relative_length. unfold to_coords. rewrite length_fmap. lia. }
  rewrite truncated by (rewrite !length_app; lia).
  rewrite take_take, take_app_le by lia.
  apply take_ge. lia.
Qed.

Lemma coord_of_translate offset lm :
  coord_of (translate offset lm)
  = ((coord_of lm).1.1 + offset.1.1, (coord_of lm).1.2 + offset.1.2,
     (coord_of lm).2 + offset.2).
Proof. unfold coord_of, translate. by simplify_map_eq. Qed.



Lemma Rabs_le_bounds (x y : R) : Rabs x <= y → - y <= x <= y.
Proof. unfold Rabs. destruct (Rcase_abs x); lra. Qed.

(** The error of a rounded difference of two moved coordinates. *)
Lemma rounded_difference (a : float_arithmetic) u B (F : R → Prop) o x w x' w' :
  0 <= u →
  (∀ s t, F s → F t → Rabs (fl a (s - t) - (s - t)) <= u * Rabs (s - t)) →
  axis_moved u B F o x x' → axis_moved u B F o w w' →
  Rabs (fl a (x' - w') - fl a (x - w)) <= 2 * u * (3 + u) * B.
Proof.
  intros Hu Hfl (Fx & Fx' & Hx & Hxo & Hx') (Fw & Fw' & Hw & Hwo & Hw').
  assert (HB : 0 <= B) by (pose proof (Rabs_pos x); lra).
  assert (HuB : 0 <= u * B) by (apply Rmult_le_pos; lra).
  assert (Hx'' : Rabs (x' - (x + o)) <= u * B).
  { eapply Rle_trans; [exact Hx'|]. apply Rmult_le_compat_l; lra. }
  assert (Hw'' : Rabs (w' - (w + o)) <= u * B).
  { eapply Rle_trans; [exact Hw'|]. apply Rmult_le_compat_l; lra. }
  apply Rabs_le_bounds in Hx, Hw, Hx'', Hw''.
  assert (Ha : Rabs (x' - w') <= 2 * B + 2 * (u * B)).
  { apply Rabs_le. lra. }
  assert (Hd : Rabs (x - w) <= 2 * B).
  { apply Rabs_le. lra. }
  pose proof (Hfl x' w' Fx' Fw') as Hf'. pose proof (Hfl x w Fx Fw) as Hf.
  assert (Hf'' : Rabs (fl a (x' - w') - (x' - w'))
                 <= u * (2 * B + 2 * (u * B))).
  { eapply Rle_trans; [exact Hf'|]. apply Rmult_le_compat_l; lra. }
  assert (Hf2 : Rabs (fl a (x - w) - (x - w)) <= u * (2 * B)).
  { eapply Rle_trans; [exact Hf|]. apply Rmult_le_compat_l; lra. }
  apply Rabs_le_bounds in Hf'', Hf2.
  apply Rabs_le.
  replace (2 * u * (3 + u) * B)
    with (u * (2 * B + 2 * (u * B)) + 2 * (u * B) + u * (2 * B)) by ring.
  lra.
Qed.

Lemma float_wrist_relative_length a wrist coords :
  length (Float64.wrist_relative a wrist coords) = (3 * length coords)%nat.
Proof.
  unfold Float64.wrist_relative. induction coords as [|c coords IH]; [done|].
  cbn [mbind list_bind]. rewrite length_app, IH. simpl. lia.
Qed.

Lemma float_raw_features_shape a (coords : list float3) :
  length coords = 21%nat →
  ∃ wrist tb tw angles,
    coords !! 0%nat = Some wrist
    ∧ length tb = 5%nat ∧ length tw = 5%nat ∧ length angles = 10%nat
    ∧ Float64.raw_features a coords
      = Ok (Float64.wrist_relative a wrist coords ++ tb ++ tw ++ angles).
Proof.
  intros H. explode coords H.
  do 4 eexists. repeat split; reflexivity.
Qed.

(** In floating-point arithmetic too, the first 63 features are the
    wrist-relative coordinates. *)
Lemma float_features_prefix a (landmarks : list landmark) :
  length landmarks = 21%nat →
  ∃ wrist features,
    to_coords landmarks !! 0%nat = Some wrist
    ∧ Float64._extract_features_fixed a landmarks = Ok features
    ∧ take 63 features = Float64.wrist_relative a wrist (to_coords landmarks).
Proof.
  intros Hlen.
  destruct (float_raw_features_shape a (to_coords landmarks)) as
    (wrist & tb & tw & angles & Hw & Htb & Htw & Hang & Hraw).
  { unfold to_coords. by rewrite length_fmap. }
  exists wrist. eexists. split; [done|]. split.
  { unfold Float64._extract_features_fixed.
    rewrite bool_decide_eq_false_2 by (intros Hne; by apply Hne).
    by rewrite Hraw. }
  assert (Hrel : length (Float64.wrist_relative a wrist (to_coords landmarks))
                 = 63%nat).
  { rewrite float_wrist_relative_length. unfold to_coords.
    rewrite length_fmap. lia. }
  rewrite truncated by (rewrite !length_app; lia).
  rewrite take_take, take_app_le by lia.
  apply take_ge. lia.
Qed.

Lemma float_wrist_relative_translate a offset wrist (landmarks : list landmark) :
  Float64.wrist_relative a
    (wrist.1.1 + offset.1.1, wrist.1.2 + offset.1.2, wrist.2 + offset.2)
    (to_coords (translate offset <$> landmarks))
  = Float64.wrist_relative a wrist (to_coords landmarks).
Proof.
  unfold Float64.wrist_relative, to_coords.
  induction landmarks as [|lm landmarks IH]; [done|].
  cbn [fmap list_fmap mbind list_bind]. rewrite IH.
  rewrite coord_of_translate. cbn [fst snd app].
  f_equal; [f_equal; lra | f_equal; [f_equal; lra | f_equal; f_equal; lra]].
Qed.

Lemma float_wrist_relative_moved a u B F offset wrist wrist'
    (landmarks landmarks' : list landmark) :
  0 <= u →
  (∀ s t, F s → F t → Rabs (fl a (s - t) - (s - t)) <= u * Rabs (s - t)) →
  moved_within u B F offset wrist wrist' →
  Forall2 (moved_within u B F offset) landmarks landmarks' →
  Forall2 (λ f f', Rabs (f' - f) <= 2 * u * (3 + u) * B)
          (Float64.wrist_relative a (coord_of wrist) (to_coords landmarks))
          (Float64.wrist_relative a (coord_of wrist') (to_coords landmarks')).
Proof.
  intros Hu Hfl (Wx & Wy & Wz) Hall. unfold Float64.wrist_relative, to_coords.
  induction Hall as [|lm lm' l l' (Hx & Hy & Hz) _ IH]; [constructor|].
  cbn [fmap list_fmap mbind list_bind app].
  repeat (constructor; [by eapply rounded_difference|]). exact IH.
Qed.

(** Without rounding the extractor is the one of exact arithmetic. *)
Lemma exact_features (landmarks : list landmark) :
  Float64._extract_features_fixed exact_arithmetic landmarks
  = _extract_features_fixed landmarks.
Proof. reflexivity. Qed.

(** C5, as stated, fails in the arithmetic of the code: for the hand with
    the wrist at the origin and the other points at x = 0.1, moved by 0.2
    along x, the first wrist-relative feature of the second point is
    0.1 before the move and (0.1 + 0.2) - (0 + 0.2) = 0.10000000000000003
    after it. *)
Lemma translation_changes_features_in_binary64 :
  let offset := (fifth, 0%float, 0%float) in
  let moved := binary64_move offset <$> binary64_hand in
  length binary64_hand = 21%nat
  ∧ Binary64.wrist_relative (0, 0, 0)%float binary64_hand !! 3%nat
    = Some tenth
  ∧ Binary64.wrist_relative (binary64_move offset (0, 0, 0)%float) moved
    !! 3%nat = Some 0x1.999999999999cp-4%float
  ∧ take 63 (Binary64.wrist_relative (binary64_move offset (0, 0, 0)%float)
                                     moved)
    ≠ take 63 (Binary64.wrist_relative (0, 0, 0)%float binary64_hand).
Proof.
  cbn zeta. split_and!.
  - reflexivity.
  - reflexivity.
  - reflexivity.
  - intros H. apply (f_equal (λ l, (λ x, PrimFloat.eqb x tenth) <$> l !! 3%nat))
      in H. vm_compute in H. discriminate H.
Qed.

(** C5, as the code has it: the first 63 features of a hand are unchanged
    by a move whose sums [coordinate + offset] are exact, whatever the
    rounding of the subtractions; and when the moved coordinates are the
    sums up to the relative error [u] of a floating-point addition and
    the subtraction of floats has the same relative error, every one of
    the 63 features changes by at most [2 u (3 + u) B], where [B] bounds
    the coordinates before and after the move. *)
Theorem translation_invariance (a : float_arithmetic)
    (landmarks : list landmark) (offset : float3) :
  length landmarks = 21%nat →
  ∃ features,
    Float64._extract_features_fixed a landmarks = Ok features
    ∧ length (take 63 features) = 63%nat
    ∧ (∃ moved,
         Float64._extract_features_fixed a (translate offset <$> landmarks)
         = Ok moved
         ∧ take 63 moved = take 63 features)
    ∧ ∀ u B (F : R → Prop) (landmarks' : list landmark),
        0 <= u →
        (∀ s t, F s → F t →
                Rabs (fl a (s - t) - (s - t)) <= u * Rabs (s - t)) →
        Forall2 (moved_within u B F offset) landmarks landmarks' →
        ∃ moved,
          Float64._extract_features_fixed a landmarks' = Ok moved
          ∧ Forall2 (λ f f', Rabs (f' - f) <= 2 * u * (3 + u) * B)
                    (take 63 features) (take 63 moved).
Proof.
  intros Hlen.
  destruct (float_features_prefix a landmarks Hlen)
    as (wrist & features & Hw & He & Hp).
  exists features. split_and!.
  - done.
  - rewrite Hp, float_wrist_relative_length. unfold to_coords.
    rewrite length_fmap. lia.
  - destruct (float_features_prefix a (translate offset <$> landmarks))
      as (wrist' & moved & Hw' & He' & Hp'); [by rewrite length_fmap|].
    exists moved. split; [done|].
    rewrite Hp, Hp'. destruct landmarks as [|lm landmarks]; [done|].
    cbn in Hw, Hw'. injection Hw as <-. injection Hw' as <-.
    rewrite coord_of_translate. apply float_wrist_relative_translate.
  - intros u B F landmarks' Hu Hfl Hall.
    destruct (float_features_prefix a landmarks')
      as (wrist' & moved & Hw' & He' & Hp').
    { by rewrite <- (Forall2_length _ _ _ Hall). }
    exists moved. split; [done|]. rewrite Hp, Hp'.
    destruct Hall as [|lm lm' l l' Hwrist Hall]; [done|].
    cbn in Hw, Hw'. injection Hw as <-. injection Hw' as <-.
    apply (float_wrist_relative_moved a u B F offset lm lm' (lm :: l)
             (lm' :: l') Hu Hfl Hwrist).
    by constructor.
Qed.

Lemma translation_invariance_witness :
  ∃ features moved,
    Float64._extract_features_fixed exact_arithmetic open_hand = Ok features
    ∧ Float64._extract_features_fixed exact_arithmetic
        (translate (1, 2, 3) <$> open_hand) = Ok moved
    ∧ length (take 63 features) = 63%nat
    ∧ take 63 moved = take 63 features.
Proof.
  destruct (translation_invariance exact_arithmetic open_hand (1, 2, 3)
              eq_refl) as (features & He & Hlen & (moved & Hm & Heq) & _).
  by exists features, moved.
Defined.

End Features.

(** ** The similarity of two landmark sets *)

Section Similarity.
Import LearningService Spec.
Local Open Scope R_scope.

Lemma mapM_result_fmap {A B C} (f : B → result C) (g : A → B) (l : list A) :
  mapM f (g <$> l) = mapM (f ∘ g) l.
Proof. induction l as [|x l IH]; [done|]. cbn. by rewrite IH. Qed.

Lemma mapM_result_ext {A B} (f g : A → result B) (l : list A) :
  (∀ x, f x = g x) → mapM f l = mapM g l.
Proof. intros H. induction l as [|x l IH]; [done|]. cbn. by rewrite H, IH. Qed.

Lemma point_distance_numeric (lm1 lm2 : landmark) :
  numeric_xyz lm1 → numeric_xyz lm2 →
  point_distance lm1 lm2
  = Ok (MLService.distance (MLService.coord_of lm1) (MLService.coord_of lm2)).
Proof.
  intros ([x1 Hx1] & [y1 Hy1] & [z1 Hz1]) ([x2 Hx2] & [y2 Hy2] & [z2 Hz2]).
  unfold point_distance, getitem, MLService.distance, MLService.coord_of.
  by rewrite Hx1, Hy1, Hz1, Hx2, Hy2, Hz2.
Qed.

(** The loop over [range(n)] collects the distance of every pair of
    points. *)
Lemma distances_numeric (landmarks1 landmarks2 : list landmark) :
  length landmarks1 = length landmarks2 →
  Forall numeric_xyz landmarks1 → Forall numeric_xyz landmarks2 →
  mapM (λ i : nat,
          lm1 ← item landmarks1 i;
          lm2 ← item landmarks2 i;
          point_distance lm1 lm2)
       (seq 0 (length landmarks1))
  = Ok (zip_with (λ lm1 lm2,
                    MLService.distance (MLService.coord_of lm1)
                                       (MLService.coord_of lm2))
                 landmarks1 landmarks2).
Proof.
  revert landmarks2.
  induction landmarks1 as [|lm1 l1 IH]; intros [|lm2 l2] Hlen H1 H2;
    try done.
  apply Forall_cons in H1 as [Hn1 H1]. apply Forall_cons in H2 as [Hn2 H2].
  injection Hlen as Hlen.
  cbn [length seq]. rewrite <- fmap_S_seq.
  cbn [mapM]. rewrite mapM_result_fmap.
  rewrite (mapM_result_ext _ (λ i : nat,
             a ← item l1 i; b ← item l2 i; point_distance a b)) by done.
  rewrite (IH l2 Hlen H1 H2).
  cbn. by rewrite point_distance_numeric.
Qed.

Lemma clamp_min_max (x : R) : Rmin 1.0 (Rmax 0.0 x) = clamp x 0 1.
Proof.
  unfold clamp, Rmin, Rmax.
  repeat case_bool_decide; repeat destruct (Rle_dec _ _); lra.
Qed.

Lemma clamp_bounds (x : R) : 0 <= clamp x 0 1 <= 1.
Proof. unfold clamp. repeat case_bool_decide; lra. Qed.

Lemma distance_self (c : float3) : MLService.distance c c = 0.
Proof.
  unfold MLService.distance.
  replace ((c.1.1 - c.1.1) ^ 2 + (c.1.2 - c.1.2) ^ 2 + (c.2 - c.2) ^ 2)
    with 0 by ring.
  apply sqrt_0.
Qed.

Lemma Rsum_distance_self (landmarks : list landmark) :
  Rsum (zip_with (λ lm1 lm2,
                    MLService.distance (MLService.coord_of lm1)
                                       (MLService.coord_of lm2))
                 landmarks landmarks) = 0.
Proof.
  induction landmarks as [|lm l IH]; [done|].
  cbn. unfold Rsum in IH. rewrite IH, distance_self. lra.
Qed.

(** C8: the similarity of two sets of 21 numeric points is
    [clamp(1 - avg_distance * 10, 0, 1)], where [avg_distance] is the
    average distance between the points of the same index; it lies between
    0 and 1; and a set compared with itself has average distance 0 and
    similarity exactly 1. *)
Theorem landmark_similarity_clamped (landmarks1 landmarks2 : list landmark) :
  length landmarks1 = 21%nat → length landmarks2 = 21%nat →
  Forall numeric_xyz landmarks1 → Forall numeric_xyz landmarks2 →
  _compute_landmark_similarity landmarks1 landmarks2
  = clamp (1 - average_distance landmarks1 landmarks2 * 10) 0 1
  ∧ 0 <= _compute_landmark_similarity landmarks1 landmarks2 <= 1
  ∧ average_distance landmarks1 landmarks1 = 0
  ∧ _compute_landmark_similarity landmarks1 landmarks1 = 1.
Proof.
  intros L1 L2 N1 N2.
  assert (Hsim : ∀ l1 l2 : list landmark,
    length l1 = 21%nat → length l2 = 21%nat →
    Forall numeric_xyz l1 → Forall numeric_xyz l2 →
    _compute_landmark_similarity l1 l2
    = clamp (1 - average_distance l1 l2 * 10) 0 1).
  { intros l1 l2 Hl1 Hl2 Hn1 Hn2. unfold _compute_landmark_similarity.
    rewrite bool_decide_eq_false_2 by (intros [?|?]; congruence).
    pose proof (distances_numeric l1 l2) as Hd. rewrite Hl1 in Hd.
    rewrite Hd by (done || congruence). cbn [mbind result_bind mret result_ret].
    rewrite clamp_min_max. unfold average_distance, avg_distance.
    rewrite length_zip_with, Hl1, Hl2. replace (21 `min` 21)%nat with 21%nat by lia.
    replace (1.0) with 1 by lra. done. }
  assert (Havg : average_distance landmarks1 landmarks1 = 0).
  { unfold average_distance. rewrite Rsum_distance_self. rewrite L1.
    simpl. lra. }
  split; [|split; [|split]].
  - by apply Hsim.
  - rewrite Hsim by done. apply clamp_bounds.
  - done.
  - rewrite Hsim, Havg by done. unfold clamp.
    repeat case_bool_decide; lra.
Qed.

Lemma origin21_numeric : Forall numeric_xyz origin21.
Proof.
  apply Forall_replicate. unfold numeric_xyz.
  split_and!; eexists; by simplify_map_eq.
Qed.

Lemma landmark_similarity_clamped_witness :
  _compute_landmark_similarity origin21 origin21 = 1.
Proof.
  apply (landmark_similarity_clamped origin21 origin21);
    [reflexivity | reflexivity | apply origin21_numeric | apply origin21_numeric].
Defined.

End Similarity.

(** ** Session statistics *)

Section Sessions.
Import LearningService Spec.
Local Open Scope Z_scope.

(** What [update_progress] leaves under the session key. *)
Lemma update_progress_stored self now model_id user_id pd :
  session_stats (update_progress self now model_id user_id pd).2
  !! session_key model_id user_id
  = Some (record_attempt now pd
            (current_stats self now (session_key model_id user_id))).
Proof. unfold update_progress. cbn. by rewrite lookup_insert_eq. Qed.

Lemma update_progress_current self now model_id user_id pd now' :
  current_stats (update_progress self now model_id user_id pd).2 now'
                (session_key model_id user_id)
  = record_attempt now pd
      (current_stats self now (session_key model_id user_id)).
Proof.
  unfold current_stats at 1. by rewrite update_progress_stored.
Qed.

Lemma update_progress_other self now model_id user_id pd key :
  key ≠ session_key model_id user_id →
  session_stats (update_progress self now model_id user_id pd).2 !! key
  = session_stats self !! key.
Proof. intros H. unfold update_progress. cbn. by rewrite lookup_insert_ne. Qed.

Lemma record_attempt_correct now pd st :
  is_correct pd = true →
  currentStreak (record_attempt now pd st) = currentStreak st + 1
  ∧ bestStreak (record_attempt now pd st)
    = Z.max (bestStreak st) (currentStreak st + 1).
Proof. intros H. unfold record_attempt. rewrite H. done. Qed.

Lemma record_attempt_incorrect now pd st :
  is_correct pd = false →
  currentStreak (record_attempt now pd st) = 0
  ∧ bestStreak (record_attempt now pd st) = bestStreak st.
Proof. intros H. unfold record_attempt. rewrite H. done. Qed.

Lemma record_attempt_streaks_ok now pd st :
  streaks_ok st → streaks_ok (record_attempt now pd st).
Proof.
  unfold streaks_ok. intros H. destruct (is_correct pd) eqn:Hc.
  - destruct (record_attempt_correct now pd st Hc) as [-> ->]. lia.
  - destruct (record_attempt_incorrect now pd st Hc) as [-> ->]. lia.
Qed.

Lemma record_attempt_best_mono now pd st :
  bestStreak st ≤ bestStreak (record_attempt now pd st).
Proof.
  destruct (is_correct pd) eqn:Hc.
  - destruct (record_attempt_correct now pd st Hc) as [_ ->]. lia.
  - destruct (record_attempt_incorrect now pd st Hc) as [_ ->]. lia.
Qed.

Lemma after_calls_snoc self calls c :
  after_calls self (calls ++ [c])
  = (update_progress (after_calls self calls) (at_time c) (for_model c)
                     (for_user c) (attempt c)).2.
Proof. unfold after_calls. by rewrite foldl_snoc. Qed.

(** The streak counters of a session after [n] correct attempts in a row,
    when they were both [k] before. *)
Lemma correct_run self model_id user_id (calls : list call) (k : Z) :
  Forall (λ c, for_model c = model_id ∧ for_user c = user_id
               ∧ is_correct (attempt c) = true) calls →
  (∀ now,
     let st := current_stats self now (session_key model_id user_id) in
     currentStreak st = k ∧ bestStreak st = k) →
  ∀ now,
    let st := current_stats (after_calls self calls) now
                            (session_key model_id user_id) in
    currentStreak st = k + Z.of_nat (length calls)
    ∧ bestStreak st = k + Z.of_nat (length calls).
Proof.
  intros Hcalls Hstart.
  induction calls as [|c calls IH] using rev_ind.
  - intros now. cbn. destruct (Hstart now) as [-> ->]. lia.
  - apply Forall_app in Hcalls as [Hcalls Hc].
    apply Forall_singleton in Hc as (Hm & Hu & Hc).
    specialize (IH Hcalls). intros now. cbn zeta.
    rewrite after_calls_snoc, Hm, Hu, update_progress_current.
    destruct (record_attempt_correct (at_time c) (attempt c)
                (current_stats (after_calls self calls) (at_time c)
                               (session_key model_id user_id)) Hc) as [-> ->].
    destruct (IH (at_time c)) as [-> ->].
    rewrite length_app. cbn [length]. lia.
Qed.

Lemma update_progress_view self now model_id user_id pd :
  user_id ≠ "" →
  let view := (update_progress self now model_id user_id pd).1 in
  let st := record_attempt now pd
              (current_stats self now (session_key model_id user_id)) in
  v_currentStreak view = currentStreak st ∧ v_bestStreak view = bestStreak st.
Proof.
  intros Hne. cbn zeta.
  pose proof (update_progress_stored self now model_id user_id pd) as Hst.
  unfold update_progress in *. cbn [fst snd] in *.
  unfold get_session_stats, truthy. rewrite bool_decide_eq_true_2 by done.
  fold (session_key model_id user_id). cbn [session_stats] in *.
  by rewrite Hst.
Qed.

Lemma update_progress_streaks_ok self now model_id user_id pd :
  (∀ key st, session_stats self !! key = Some st → streaks_ok st) →
  ∀ key st,
    session_stats (update_progress self now model_id user_id pd).2 !! key
    = Some st →
    streaks_ok st.
Proof.
  intros Hinv key st.
  destruct (decide (key = session_key model_id user_id)) as [->|Hne].
  - rewrite update_progress_stored. intros [= <-].
    apply record_attempt_streaks_ok. unfold current_stats.
    destruct (session_stats self !! session_key model_id user_id) as [old|] eqn:E.
    + by apply (Hinv _ _ E).
    + unfold streaks_ok. cbn. lia.
  - rewrite update_progress_other by done. apply Hinv.
Qed.

Lemma update_progress_best_mono self now model_id user_id pd key st :
  session_stats self !! key = Some st →
  ∃ st',
    session_stats (update_progress self now model_id user_id pd).2 !! key
    = Some st'
    ∧ bestStreak st ≤ bestStreak st'.
Proof.
  intros Hst.
  destruct (decide (key = session_key model_id user_id)) as [->|Hne].
  - rewrite update_progress_stored. eexists. split; [done|].
    unfold current_stats. rewrite Hst. apply record_attempt_best_mono.
  - rewrite update_progress_other by done. exists st. split; [done|lia].
Qed.

Lemma after_calls_streaks_ok self calls :
  (∀ key st, session_stats self !! key = Some st → streaks_ok st) →
  ∀ key st,
    session_stats (after_calls self calls) !! key = Some st → streaks_ok st.
Proof.
  intros Hinv. induction calls as [|c calls IH] using rev_ind; [done|].
  rewrite after_calls_snoc. by apply update_progress_streaks_ok.
Qed.

Lemma after_calls_best_mono self calls key st :
  session_stats self !! key = Some st →
  ∃ st',
    session_stats (after_calls self calls) !! key = Some st'
    ∧ bestStreak st ≤ bestStreak st'.
Proof.
  intros Hst. induction calls as [|c calls IH] using rev_ind.
  - exists st. split; [done|lia].
  - destruct IH as (mid & Hmid & Hle). rewrite after_calls_snoc.
    destruct (update_progress_best_mono (after_calls self calls) (at_time c)
                (for_model c) (for_user c) (attempt c) key mid Hmid)
      as (st' & Hst' & Hle').
    exists st'. split; [done|lia].
Qed.

(** C7: from fresh statistics, after N attempts with isCorrect true and
    then one with isCorrect false, the stored currentStreak is 0 and the
    stored bestStreak is N; the statistics returned by the last call say
    the same when the user identifier is not empty. *)
Theorem streak_reset_keeps_best self model_id user_id
    (calls : list call) (last : call) :
  session_stats self !! session_key model_id user_id = None →
  Forall (λ c, for_model c = model_id ∧ for_user c = user_id
               ∧ is_correct (attempt c) = true) calls →
  for_model last = model_id → for_user last = user_id →
  is_correct (attempt last) = false →
  (∃ st,
     session_stats (after_calls self (calls ++ [last]))
     !! session_key model_id user_id = Some st
     ∧ currentStreak st = 0
     ∧ bestStreak st = Z.of_nat (length calls))
  ∧ (user_id ≠ "" →
     let view := (update_progress (after_calls self calls) (at_time last)
                                  model_id user_id (attempt last)).1 in
     v_currentStreak view = 0
     ∧ v_bestStreak view = Z.of_nat (length calls)).
Proof.
  intros Hfresh Hcalls Hm Hu Hlast.
  pose proof (correct_run self model_id user_id calls 0 Hcalls) as Hrun.
  destruct (Hrun (λ now, ltac:(unfold current_stats; rewrite Hfresh; done))
                 (at_time last)) as [_ Hbest].
  destruct (record_attempt_incorrect (at_time last) (attempt last)
              (current_stats (after_calls self calls) (at_time last)
                             (session_key model_id user_id)) Hlast)
    as [Hc Hb].
  split.
  - eexists. rewrite after_calls_snoc, Hm, Hu, update_progress_stored.
    split; [done|]. rewrite Hc, Hb, Hbest. split; lia.
  - intros Hne. cbn zeta.
    pose proof (update_progress_view (after_calls self calls) (at_time last)
                  model_id user_id (attempt last) Hne) as Hv.
    cbn zeta in Hv. destruct Hv as [-> ->].
    rewrite Hc, Hb, Hbest. split; lia.
Qed.

(** C9: when the stored statistics satisfy 0 <= currentStreak <= bestStreak,
    they still do after every sequence of calls of [update_progress], and
    further calls never make the bestStreak of a session smaller. *)
Theorem streak_invariant self (calls more : list call) :
  (∀ key st, session_stats self !! key = Some st → streaks_ok st) →
  (∀ key st,
     session_stats (after_calls self calls) !! key = Some st →
     0 ≤ currentStreak st ≤ bestStreak st)
  ∧ (∀ key st,
       session_stats (after_calls self calls) !! key = Some st →
       ∃ st',
         session_stats (after_calls (after_calls self calls) more) !! key
         = Some st'
         ∧ bestStreak st ≤ bestStreak st').
Proof.
  intros Hinv. split.
  - intros key st Hst. by apply (after_calls_streaks_ok self calls Hinv key).
  - intros key st Hst. by apply after_calls_best_mono.
Qed.

(** C10: [reset_user_progress] returns [True], and afterwards neither
    statistics nor comparison history are stored under the session key. *)
Theorem reset_user_progress_clears self model_id user_id :
  (reset_user_progress self model_id user_id).1 = true
  ∧ session_stats (reset_user_progress self model_id user_id).2
    !! session_key model_id user_id = None
  ∧ comparison_cache (reset_user_progress self model_id user_id).2
    !! session_key model_id user_id = None.
Proof.
  unfold reset_user_progress. cbn. split; [done|]. split.
  - case_bool_decide as H; [apply lookup_delete_eq|].
    by apply not_elem_of_dom.
  - case_bool_decide as H; [apply lookup_delete_eq|].
    by apply not_elem_of_dom.
Qed.

Lemma streak_reset_keeps_best_witness :
  ∃ st,
    session_stats
      (after_calls init ([attempt_of true; attempt_of true] ++ [attempt_of false]))
    !! session_key "m" "u" = Some st
    ∧ currentStreak st = 0
    ∧ bestStreak st = 2.
Proof.
  apply (streak_reset_keeps_best init "m" "u"
           [attempt_of true; attempt_of true] (attempt_of false));
    [reflexivity | repeat constructor | reflexivity | reflexivity | reflexivity].
Defined.

Lemma streak_invariant_witness :
  ∃ st,
    session_stats (after_calls init [attempt_of true; attempt_of false])
    !! session_key "m" "u" = Some st
    ∧ 0 ≤ currentStreak st ≤ bestStreak st.
Proof.
  pose proof (update_progress_stored (after_calls init [attempt_of true])
                (at_time (attempt_of false)) "m" "u"
                (attempt (attempt_of false))) as Hstored.
  eexists. split; [exact Hstored|].
  apply (proj1 (streak_invariant init [attempt_of true; attempt_of false] []
                  (λ key st H, ltac:(cbn in H; by rewrite lookup_empty in H)))
               _ _ Hstored).
Defined.

End Sessions.

(** ** The entropy of the class probabilities *)

Section Entropy.
Import MLService Spec.
Local Open Scope R_scope.

Lemma exp_double_lower (a b x : R) :
  0 <= a → a <= exp x → b <= a * a → b <= exp (2 * x).
Proof.
  intros Ha Hx Hb. replace (2 * x) with (x + x) by lra. rewrite exp_plus. nra.
Qed.

Lemma exp_double_upper (a b x : R) :
  exp x <= a → a * a <= b → exp (2 * x) <= b.
Proof.
  intros Hx Hb. pose proof (exp_pos x).
  replace (2 * x) with (x + x) by lra. rewrite exp_plus. nra.
Qed.

Lemma exp_upper (x : R) : x < 1 → exp x <= / (1 - x).
Proof.
  intros Hx. pose proof (exp_ineq1_le (- x)) as H. pose proof (exp_pos x) as Hp.
  rewrite exp_Ropp in H. replace (1 + - x) with (1 - x) in H by lra.
  apply Rinv_le_contravar in H; [|lra].
  by rewrite Rinv_inv in H.
Qed.

Lemma exp_2_49_lower : 12 <= exp 2.49.
Proof.
  assert (H0 : 1 + 2.49 / 4096 <= exp (2.49 / 4096)) by apply exp_ineq1_le.
  pose proof (exp_double_lower (1 + 2.49 / 4096) 1.001216189867 _ ltac:(lra) H0 ltac:(lra)) as H1.
  pose proof (exp_double_lower 1.001216189867 1.002433858851 _ ltac:(lra) H1 ltac:(lra)) as H2.
  pose proof (exp_double_lower 1.002433858851 1.004873641370 _ ltac:(lra) H2 ltac:(lra)) as H3.
  pose proof (exp_double_lower 1.004873641370 1.009771035120 _ ltac:(lra) H3 ltac:(lra)) as H4.
  pose proof (exp_double_lower 1.009771035120 1.019637543367 _ ltac:(lra) H4 ltac:(lra)) as H5.
  pose proof (exp_double_lower 1.019637543367 1.039660719843 _ ltac:(lra) H5 ltac:(lra)) as H6.
  pose proof (exp_double_lower 1.039660719843 1.080894412384 _ ltac:(lra) H6 ltac:(lra)) as H7.
  pose proof (exp_double_lower 1.080894412384 1.168332730722 _ ltac:(lra) H7 ltac:(lra)) as H8.
  pose proof (exp_double_lower 1.168332730722 1.365001369676 _ ltac:(lra) H8 ltac:(lra)) as H9.
  pose proof (exp_double_lower 1.365001369676 1.863228739217 _ ltac:(lra) H9 ltac:(lra)) as H10.
  pose proof (exp_double_lower 1.863228739217 3.471621334644 _ ltac:(lra) H10 ltac:(lra)) as H11.
  pose proof (exp_double_lower 3.471621334644 12.052154691155 _ ltac:(lra) H11 ltac:(lra)) as H12.
  replace 2.49 with (2 * (2 * (2 * (2 * (2 * (2 * (2 * (2 * (2 * (2 * (2 * (2 * (2.49 / 4096))))))))))))) by lra. lra.
Qed.

Lemma exp_2_5_upper : exp 2.5 <= 12.5.
Proof.
  assert (H0 : exp (2.5 / 128) <= / (1 - 2.5 / 128)) by (apply exp_upper; lra).
  assert (E0 : / (1 - 2.5 / 128) = 256 / 251).
  { replace (1 - 2.5 / 128) with (251 / 256) by lra. apply Rinv_div. }
  rewrite E0 in H0. clear E0.
  pose proof (exp_double_upper (256 / 251) 1.040237456549 _ H0 ltac:(lra)) as H1.
  pose proof (exp_double_upper 1.040237456549 1.082093966008 _ H1 ltac:(lra)) as H2.
  pose proof (exp_double_upper 1.082093966008 1.170927351271 _ H2 ltac:(lra)) as H3.
  pose proof (exp_double_upper 1.170927351271 1.371070861955 _ H3 ltac:(lra)) as H4.
  pose proof (exp_double_upper 1.371070861955 1.879835308503 _ H4 ltac:(lra)) as H5.
  pose proof (exp_double_upper 1.879835308503 3.533780787095 _ H5 ltac:(lra)) as H6.
  pose proof (exp_double_upper 3.533780787095 12.487606651242 _ H6 ltac:(lra)) as H7.
  replace 2.5 with (2 * (2 * (2 * (2 * (2 * (2 * (2 * (2.5 / 128)))))))) by lra. lra.
Qed.

Lemma ln_monotone (x y : R) : 0 < x → x <= y → ln x <= ln y.
Proof.
  intros Hx [Hlt| ->]; [|lra]. left. by apply ln_increasing.
Qed.

Lemma entropy_replicate (n : nat) (q : R) :
  _calculate_entropy_threshold (replicate n q)
  = - (INR n * ((q + 1e-10) * ln (q + 1e-10))).
Proof.
  unfold _calculate_entropy_threshold. f_equal.
  induction n as [|n IH].
  - cbn. lra.
  - rewrite S_INR. cbn [replicate fmap list_fmap Rsum foldr] in *.
    unfold Rsum in IH. rewrite IH. lra.
Qed.

Lemma INR_le_const (K n : nat) : (n ≤ K)%nat → IZR (Z.of_nat n) <= INR K.
Proof. intros H. rewrite <- INR_IZR_INZ. by apply le_INR. Qed.

Lemma INR_ge_const (K n : nat) : (K ≤ n)%nat → INR K <= IZR (Z.of_nat n).
Proof. intros H. rewrite <- INR_IZR_INZ. by apply le_INR. Qed.

(** The entropy of the uniform vector over at least 13 classes is above
    the threshold. *)
Lemma uniform_entropy_high (K : nat) :
  (13 ≤ K)%nat → 2.5 < _calculate_entropy_threshold (uniform K).
Proof.
  intros HK. unfold uniform. rewrite entropy_replicate.
  pose proof (INR_le_const K 13 HK) as HI. change (Z.of_nat 13) with 13%Z in HI.
  set (p := 1 / INR K + 1e-10).
  assert (Hinv : 0 < 1 / INR K <= 1 / 13).
  { split; [apply Rdiv_lt_0_compat; lra|].
    unfold Rdiv. rewrite !Rmult_1_l. apply Rinv_le_contravar; lra. }
  assert (Hp : 0 < p) by (unfold p; lra).
  assert (Hln : ln p < Ropp 2.5).
  { rewrite <- (ln_exp (Ropp 2.5)). apply ln_increasing; [done|].
    rewrite exp_Ropp. pose proof exp_2_5_upper as Hu. pose proof (exp_pos 2.5).
    apply Rlt_le_trans with (/ 12.5); [unfold p; lra|].
    apply Rinv_le_contravar; lra. }
  assert (Hmass : INR K * p = 1 + INR K * 1e-10).
  { unfold p. field. lra. }
  replace (- (INR K * (p * ln p))) with ((INR K * p) * - ln p) by ring.
  rewrite Hmass. nra.
Qed.

(** The entropy of the uniform vector over at most 12 classes is not. *)
Lemma uniform_entropy_low (K : nat) :
  (K ≤ 12)%nat → _calculate_entropy_threshold (uniform K) <= 2.5.
Proof.
  intros HK. unfold uniform. rewrite entropy_replicate.
  destruct K as [|K]; [cbn; lra|].
  pose proof (INR_ge_const (S K) 12 HK) as HI. change (Z.of_nat 12) with 12%Z in HI.
  pose proof (pos_INR_nat_of_P (Pos.of_succ_nat K)) as H0.
  rewrite SuccNat2Pos.id_succ in H0.
  set (n := INR (S K)) in *. set (p := 1 / n + 1e-10).
  assert (Hinv : / 12 <= 1 / n).
  { unfold Rdiv. rewrite Rmult_1_l. apply Rinv_le_contravar; lra. }
  assert (Hp : 0 < p) by (unfold p; lra).
  assert (Hln : Ropp 2.49 <= ln p).
  { rewrite <- (ln_exp (Ropp 2.49)). apply ln_monotone; [apply exp_pos|].
    rewrite exp_Ropp. pose proof exp_2_49_lower as Hl.
    apply Rle_trans with (/ 12); [apply Rinv_le_contravar; lra | unfold p; lra]. }
  assert (Hmass : n * p = 1 + n * 1e-10).
  { unfold p. field. lra. }
  replace (- (n * (p * ln p))) with ((n * p) * - ln p) by ring.
  rewrite Hmass. nra.
Qed.

End Entropy.

(** ** The rejection policy of [predict] *)

Section Rejection.
Import MLService Spec.
Local Open Scope R_scope.

Lemma argmax_from_spec (rest l pre : list R) (best_i : nat) (best : R) :
  l = pre ++ rest →
  l !! best_i = Some best →
  l !! argmax_from best_i best (length pre) rest = Some (foldl Rmax best rest).
Proof.
  revert pre best_i best.
  induction rest as [|x rest IH]; intros pre best_i best Hl Hbest; [done|].
  cbn [argmax_from foldl].
  assert (Hl' : l = (pre ++ [x]) ++ rest) by (by rewrite <- app_assoc).
  assert (Hlen : length (pre ++ [x]) = S (length pre))
    by (rewrite length_app; cbn; lia).
  case_bool_decide as Hlt.
  - rewrite <- Hlen. rewrite Rmax_right by lra. apply IH; [done|].
    rewrite Hl. by rewrite list_lookup_middle.
  - rewrite <- Hlen. rewrite Rmax_left by lra. by apply IH.
Qed.

(** The entry at [np.argmax] is [np.max]. *)
Lemma argmax_is_max (a : list R) (m : R) (i : nat) :
  np_max a = Ok m → np_argmax a = Ok i → item a i = Ok m.
Proof.
  destruct a as [|x a]; [done|]. cbn. intros [= <-] [= <-].
  apply item_lookup. by apply (argmax_from_spec a (x :: a) [x] 0%nat x).
Qed.

Lemma classify_decision class_names probs m i label :
  np_max probs = Ok m → np_argmax probs = Ok i →
  item class_names i = Ok label →
  classify class_names probs
  = Ok (if bool_decide (m < 0.5 ∨ 2.5 < _calculate_entropy_threshold probs
                        ∨ label = "NO_GESTURE")
        then rejection class_names probs m
        else acceptance class_names probs label m).
Proof.
  intros Hm Hi Hl. unfold classify. rewrite Hm, Hi. cbn. rewrite Hl. cbn.
  rewrite (argmax_is_max probs m i Hm Hi).
  repeat case_bool_decide; cbn; try done; tauto.
Qed.

(** [predict] on a loaded model and 21 landmarks that pass the pose check
    is [classify] on the classifier's output. *)
Lemma predict_classifies self fs model_id c landmarks features probs :
  (get_components self fs model_id).1 = Ok c →
  length landmarks = 21%nat →
  _is_valid_hand_pose landmarks = true →
  _extract_features_fixed landmarks = Ok features →
  model_predict (c_model c) (scale_features (c_scaler c) features) = Ok probs →
  (predict self fs model_id {[ "landmarks" := landmarks ]}).1
  = match classify (c_class_names c) probs with
    | Ok r => Ok r
    | Raise e => Raise (Exception ("Error making prediction: " +:+ str_exn e))
    end.
Proof.
  intros Hc Hlen Hpose Hf Hp. unfold predict.
  destruct (get_components self fs model_id) as [loaded self'].
  cbn in Hc. subst loaded. rewrite lookup_singleton_eq.
  cbn [mbind result_bind]. unfold predict_with.
  destruct landmarks as [|lm landmarks]; [done|].
  rewrite bool_decide_eq_false_2 by (intros Hne; by apply Hne).
  rewrite Hpose, Hf. cbn [negb mbind result_bind]. rewrite Hp.
  cbn [mbind result_bind].
  by destruct (classify (c_class_names c) probs).
Qed.

Lemma predict_decision self fs model_id c landmarks features probs
    max_confidence predicted_class predicted_label :
  (get_components self fs model_id).1 = Ok c →
  length landmarks = 21%nat →
  _is_valid_hand_pose landmarks = true →
  _extract_features_fixed landmarks = Ok features →
  model_predict (c_model c) (scale_features (c_scaler c) features) = Ok probs →
  np_max probs = Ok max_confidence →
  np_argmax probs = Ok predicted_class →
  item (c_class_names c) predicted_class = Ok predicted_label →
  (predict self fs model_id {[ "landmarks" := landmarks ]}).1
  = Ok (if bool_decide
             (max_confidence < 0.5 ∨ 2.5 < _calculate_entropy_threshold probs
              ∨ predicted_label = "NO_GESTURE")
        then rejection (c_class_names c) probs max_confidence
        else acceptance (c_class_names c) probs predicted_label max_confidence).
Proof.
  intros Hc Hlen Hpose Hf Hp Hm Hi Hl.
  rewrite (predict_classifies self fs model_id c landmarks features probs)
    by done.
  by rewrite (classify_decision _ _ _ _ _ Hm Hi Hl).
Qed.

(** C1, as the code has it: on a loaded model, 21 landmarks that pass the
    pose check and a classifier output with a class name at its arg-max,
    [predict] returns the fixed rejection result when the maximum is below
    0.5, the entropy is above 2.5 or the arg-max class is NO_GESTURE, and
    otherwise the arg-max label with its raw probability and the
    renormalized probabilities; the rejection result is returned only in
    the first case when the arg-max label is not itself the text of the
    rejection message. *)
Theorem predict_rejection_policy self fs model_id c landmarks features probs
    max_confidence predicted_class predicted_label :
  (get_components self fs model_id).1 = Ok c →
  length landmarks = 21%nat →
  _is_valid_hand_pose landmarks = true →
  _extract_features_fixed landmarks = Ok features →
  model_predict (c_model c) (scale_features (c_scaler c) features) = Ok probs →
  np_max probs = Ok max_confidence →
  np_argmax probs = Ok predicted_class →
  item (c_class_names c) predicted_class = Ok predicted_label →
  let result := (predict self fs model_id {[ "landmarks" := landmarks ]}).1 in
  let reject :=
    max_confidence < 0.5 ∨ 2.5 < _calculate_entropy_threshold probs
    ∨ predicted_label = "NO_GESTURE" in
  (reject → result = Ok (rejection (c_class_names c) probs max_confidence))
  ∧ (¬ reject →
     result = Ok (acceptance (c_class_names c) probs predicted_label
                             max_confidence))
  ∧ (predicted_label ≠ no_clear_gesture →
     (result = Ok (rejection (c_class_names c) probs max_confidence) ↔ reject)).
Proof.
  intros Hc Hlen Hpose Hf Hp Hm Hi Hl. cbn zeta.
  rewrite (predict_decision self fs model_id c landmarks features probs
             max_confidence predicted_class predicted_label) by done.
  case_bool_decide as Hr.
  - split_and!; [done | tauto | done].
  - split_and!; [tauto | done |].
    intros Hne. split; [|tauto]. intros Heq. exfalso. apply Hne.
    by injection Heq.
Qed.

Lemma coord_of_point x y z : coord_of (point x y z) = (x, y, z).
Proof. unfold coord_of, point. by simplify_map_eq. Qed.

Lemma to_coords_open_hand :
  to_coords open_hand = (0, 0, 0) :: replicate 20 (0.5, 0, 0).
Proof.
  unfold to_coords, open_hand. rewrite fmap_cons, fmap_replicate.
  by rewrite !coord_of_point.
Qed.

Lemma distance_half : distance (0.5, 0, 0) (0, 0, 0) = 0.5.
Proof.
  unfold distance. cbn [fst snd].
  replace ((0.5 - 0) ^ 2 + (0 - 0) ^ 2 + (0 - 0) ^ 2) with (0.5 * 0.5) by lra.
  apply sqrt_square. lra.
Qed.

Lemma open_hand_valid : _is_valid_hand_pose open_hand = true.
Proof.
  unfold _is_valid_hand_pose. rewrite to_coords_open_hand.
  cbn [item lookup list_lookup replicate mbind result_bind mapM finger_tips
       mret result_ret].
  rewrite !filter_cons_True by (rewrite distance_half; lra).
  done.
Qed.

Lemma open_hand_features :
  ∃ features, _extract_features_fixed open_hand = Ok features.
Proof.
  destruct (extract_features_prefix open_hand eq_refl) as (? & f & _ & H & _).
  by exists f.
Qed.

Lemma Rsum_perm (l1 l2 : list R) : l1 ≡ₚ l2 → Rsum l1 = Rsum l2.
Proof. induction 1; cbn in *; unfold Rsum in *; lra. Qed.

Lemma sum_values_insert (d : gmap string R) (k : string) (v : R) :
  d !! k = None → sum_values (<[k := v]> d) = v + sum_values d.
Proof.
  intros H. unfold sum_values.
  rewrite (Rsum_perm _ (snd <$> (k, v) :: map_to_list d)); [done|].
  apply fmap_Permutation. by apply map_to_list_insert.
Qed.

Lemma sum_values_empty : sum_values ∅ = 0.
Proof. unfold sum_values. by rewrite map_to_list_empty. Qed.

Lemma neg_xlnx_le (x : R) : 0 < x → - (x * ln x) <= 1 - x.
Proof.
  intros Hx. pose proof (exp_ineq1_le (- ln x)) as H.
  rewrite exp_Ropp, exp_ln in H by done.
  assert (Hinv : x * / x = 1) by (apply Rinv_r; lra).
  nra.
Qed.

(** The entropy of three probabilities that sum to one. *)
Lemma entropy_three (a b c : R) :
  0 <= a → 0 <= b → 0 <= c → a + b + c = 1 →
  _calculate_entropy_threshold [a; b; c] <= 2.
Proof.
  intros Ha Hb Hc Hsum. unfold _calculate_entropy_threshold.
  cbn [fmap list_fmap Rsum foldr].
  pose proof (neg_xlnx_le (a + 1e-10) ltac:(lra)).
  pose proof (neg_xlnx_le (b + 1e-10) ltac:(lra)).
  pose proof (neg_xlnx_le (c + 1e-10) ltac:(lra)).
  lra.
Qed.

Lemma constant_components_loaded class_names probs :
  (get_components
     (store init "m" (constant_components class_names probs)) ∅ "m").1
  = Ok (constant_components class_names probs).
Proof.
  unfold get_components, store. cbn [models label_encoders scalers
    gesture_validators]. by rewrite !lookup_insert_eq.
Qed.

Lemma homonym_max : np_max homonym_probs = Ok 0.75.
Proof.
  cbn. f_equal. unfold Rmax. repeat destruct (Rle_dec _ _); lra.
Qed.

Lemma homonym_argmax : np_argmax homonym_probs = Ok 2%nat.
Proof.
  cbn [np_argmax homonym_probs argmax_from].
  rewrite bool_decide_eq_false_2 by lra.
  by rewrite bool_decide_eq_true_2 by lra.
Qed.

Lemma plain_max : np_max plain_probs = Ok 0.75.
Proof.
  cbn. f_equal. unfold Rmax. repeat destruct (Rle_dec _ _); lra.
Qed.

Lemma plain_argmax : np_argmax plain_probs = Ok 0%nat.
Proof.
  cbn [np_argmax plain_probs argmax_from].
  by rewrite !bool_decide_eq_false_2 by lra.
Qed.

Lemma homonym_not_rejected :
  ¬ (0.75 < 0.5 ∨ 2.5 < _calculate_entropy_threshold homonym_probs
     ∨ "No se detecta seña clara" = "NO_GESTURE").
Proof.
  pose proof (entropy_three 0.25 0 0.75 ltac:(lra) ltac:(lra) ltac:(lra)
                ltac:(lra)) as H.
  unfold homonym_probs. intros [?|[?|?]]; [lra | lra | done].
Qed.

Lemma plain_not_rejected :
  ¬ (0.75 < 0.5 ∨ 2.5 < _calculate_entropy_threshold plain_probs
     ∨ "A" = "NO_GESTURE").
Proof.
  pose proof (entropy_three 0.75 0.25 0 ltac:(lra) ltac:(lra) ltac:(lra)
                ltac:(lra)) as H.
  unfold plain_probs. intros [?|[?|?]]; [lra | lra | done].
Qed.

(** The probabilities of the homonym model sum to one without the
    sentinel, so renormalizing leaves them as they are. *)
Lemma homonym_renormalized :
  renormalized (filtered_probabilities homonym_classes homonym_probs)
  = filtered_probabilities homonym_classes homonym_probs.
Proof.
  unfold filtered_probabilities, homonym_classes, homonym_probs.
  cbn [zip zip_with]. rewrite filter_cons_True by done.
  rewrite filter_cons_False by (intros H; by apply H).
  rewrite filter_cons_True by done. rewrite filter_nil.
  unfold dict_of_items. cbn [foldl fst snd]. unfold renormalized.
  rewrite !sum_values_insert, sum_values_empty by by simplify_map_eq.
  rewrite bool_decide_eq_true_2 by lra.
  rewrite !fmap_insert, fmap_empty.
  f_equal; [lra|]. f_equal. lra.
Qed.

(** C1, as stated, fails: the model has a gesture named like the rejection
    message; its classifier gives that gesture 0.75, gesture A 0.25 and the
    sentinel 0.  None of the three rejection conditions holds, and
    [predict] returns the arg-max label with its raw probability and the
    renormalized probabilities, which is exactly the fixed rejection
    result. *)
Lemma rejection_result_without_cause :
  (get_components homonym_service ∅ "m").1
  = Ok (constant_components homonym_classes homonym_probs)
  ∧ length open_hand = 21%nat
  ∧ _is_valid_hand_pose open_hand = true
  ∧ np_max homonym_probs = Ok 0.75
  ∧ np_argmax homonym_probs = Ok 2%nat
  ∧ item homonym_classes 2 = Ok "No se detecta seña clara"
  ∧ ¬ (0.75 < 0.5 ∨ 2.5 < _calculate_entropy_threshold homonym_probs
       ∨ "No se detecta seña clara" = "NO_GESTURE")
  ∧ (predict homonym_service ∅ "m" {[ "landmarks" := open_hand ]}).1
    = Ok (rejection homonym_classes homonym_probs 0.75).
Proof.
  split_and!.
  - apply constant_components_loaded.
  - done.
  - apply open_hand_valid.
  - apply homonym_max.
  - apply homonym_argmax.
  - done.
  - apply homonym_not_rejected.
  - destruct open_hand_features as [features Hf].
    rewrite (predict_decision homonym_service ∅ "m"
               (constant_components homonym_classes homonym_probs) open_hand
               features homonym_probs 0.75 2%nat "No se detecta seña clara"
               (constant_components_loaded _ _) eq_refl open_hand_valid Hf
               eq_refl homonym_max homonym_argmax eq_refl).
    rewrite bool_decide_eq_false_2 by apply homonym_not_rejected.
    unfold acceptance, rejection. cbn [c_class_names constant_components].
    by rewrite homonym_renormalized.
Qed.

Lemma predict_rejection_policy_witness :
  (predict plain_service ∅ "m" {[ "landmarks" := open_hand ]}).1
  = Ok (acceptance plain_classes plain_probs "A" 0.75).
Proof.
  destruct open_hand_features as [features Hf].
  exact (proj1 (proj2 (predict_rejection_policy plain_service ∅ "m"
           (constant_components plain_classes plain_probs) open_hand
           features plain_probs 0.75 0%nat "A"
           (constant_components_loaded _ _) eq_refl open_hand_valid Hf
           eq_refl plain_max plain_argmax eq_refl))
           plain_not_rejected).
Defined.

(** C3, as stated, fails: the entropy of the uniform vector over 6 classes
    is not above 2.5 (it is about 1.79), so the entropy condition does not
    hold. *)
Lemma uniform_six_entropy_not_rejected :
  ¬ (2.5 < _calculate_entropy_threshold (uniform 6)).
Proof.
  pose proof (uniform_entropy_low 6 ltac:(lia)) as H. lra.
Qed.

(** C3, as the code has it: the entropy of the uniform vector over K
    classes is above 2.5 exactly when K is at least 13; and whenever the
    maximum probability is below 0.5, [classify] returns the rejection
    result, whatever the entropy is. *)
Theorem entropy_and_confidence_rejection :
  (∀ K : nat, 2.5 < _calculate_entropy_threshold (uniform K) ↔ (13 ≤ K)%nat)
  ∧ (∀ class_names probs max_confidence predicted_class predicted_label,
       np_max probs = Ok max_confidence →
       np_argmax probs = Ok predicted_class →
       item class_names predicted_class = Ok predicted_label →
       max_confidence < 0.5 →
       classify class_names probs
       = Ok (rejection class_names probs max_confidence)).
Proof.
  split.
  - intros K. split.
    + intros H. destruct (decide (13 ≤ K)%nat) as [|Hlt]; [done|].
      pose proof (uniform_entropy_low K ltac:(lia)). lra.
    + apply uniform_entropy_high.
  - intros class_names probs m i label Hm Hi Hl Hlow.
    rewrite (classify_decision _ _ _ _ _ Hm Hi Hl).
    by rewrite bool_decide_eq_true_2 by tauto.
Qed.

Lemma unsure_max : np_max unsure_probs = Ok 0.4.
Proof.
  cbn. f_equal. unfold Rmax. repeat destruct (Rle_dec _ _); lra.
Qed.

Lemma unsure_argmax : np_argmax unsure_probs = Ok 0%nat.
Proof.
  cbn [np_argmax unsure_probs argmax_from].
  by rewrite !bool_decide_eq_false_2 by lra.
Qed.

Lemma entropy_and_confidence_rejection_witness :
  2.5 < _calculate_entropy_threshold (uniform 13)
  ∧ classify plain_classes unsure_probs
    = Ok (rejection plain_classes unsure_probs 0.4).
Proof.
  split.
  - apply (proj1 entropy_and_confidence_rejection 13%nat). lia.
  - apply (proj2 entropy_and_confidence_rejection plain_classes unsure_probs
             0.4 0%nat "A" unsure_max unsure_argmax eq_refl). lra.
Defined.

(** What the plain model answers on the open hand. *)
Lemma plain_prediction :
  (predict plain_service ∅ "m" {[ "landmarks" := open_hand ]}).1
  = Ok (acceptance plain_classes plain_probs "A" 0.75).
Proof.
  destruct open_hand_features as [features Hf].
  rewrite (predict_decision plain_service ∅ "m"
             (constant_components plain_classes plain_probs) open_hand
             features plain_probs 0.75 0%nat "A"
             (constant_components_loaded _ _) eq_refl open_hand_valid Hf
             eq_refl plain_max plain_argmax eq_refl).
  by rewrite bool_decide_eq_false_2 by apply plain_not_rejected.
Qed.

End Rejection.

(** ** The comparison with a target gesture *)

Section Comparison.
Import LearningService Spec.
Local Open Scope R_scope.

Lemma error_result_is_error now e : is_error_result (error_result now e).
Proof. unfold is_error_result, error_result. cbn. split_and!; (done || lra). Qed.

(** [predict] raises when the landmark list has not 21 entries. *)
Lemma predict_bad_length self fs model_id (landmarks : list landmark) :
  length landmarks ≠ 21%nat →
  ∃ e, (MLService.predict self fs model_id {[ "landmarks" := landmarks ]}).1
       = Raise e.
Proof.
  intros Hlen. unfold MLService.predict.
  destruct (MLService.get_components self fs model_id) as [[c|e] self'].
  - rewrite lookup_singleton_eq. cbn [mbind result_bind].
    unfold MLService.predict_with. destruct landmarks as [|lm landmarks].
    + by eexists.
    + rewrite bool_decide_eq_true_2 by done. by eexists.
  - by eexists.
Qed.

(** [predict] raises when the model is neither cached nor on disk. *)
Lemma predict_no_artifact self (fs : MLService.disk) model_id data :
  MLService.models self !! model_id = None →
  fs !! model_id = None →
  (MLService.predict self fs model_id data).1
  = Raise (Exception "Error making prediction: Model directory not found").
Proof.
  intros Hm Hfs. unfold MLService.predict, MLService.get_components.
  rewrite Hm. unfold MLService.load_from_disk. by rewrite Hfs.
Qed.

Lemma compare_body_predict_raises self fs db now model_id landmarks target e :
  (MLService.predict (ml_service self) fs model_id
     {[ "landmarks" := landmarks ]}).1 = Raise e →
  (compare_body self fs db now model_id landmarks target).1 = Raise e.
Proof.
  intros H. unfold compare_body.
  destruct (MLService.predict _ _ _ _) as [r ml]. cbn in H. by subst r.
Qed.

Lemma compare_raises_error self fs db now model_id landmarks target e :
  (compare_body self fs db now model_id landmarks target).1 = Raise e →
  (compare_with_target self fs db now model_id landmarks target).1
  = error_result now e.
Proof.
  intros H. unfold compare_with_target.
  destruct (compare_body _ _ _ _ _ _ _) as [r self']. cbn in H. by subst r.
Qed.

Lemma min_max_bounds (x : R) : 0 <= Rmin 1.0 (Rmax 0.0 x) <= 1.
Proof. rewrite clamp_min_max. apply clamp_bounds. Qed.

(** The similarity of two landmark lists lies between 0 and 1, whatever
    the lists are. *)
Lemma landmark_similarity_bounds (landmarks1 landmarks2 : list landmark) :
  0 <= _compute_landmark_similarity landmarks1 landmarks2 <= 1.
Proof.
  unfold _compute_landmark_similarity. case_bool_decide; [lra|].
  destruct (mapM _ _) as [distances|]; cbn; [apply min_max_bounds | lra].
Qed.

Lemma best_similarity_bounds user (samples : list dataset) (start : R) :
  0 <= start <= 1 →
  0 <= foldl (λ max_similarity sample,
                match d_landmarks sample with
                | Ok ref_landmarks =>
                    Rmax max_similarity
                      (_compute_landmark_similarity user ref_landmarks)
                | Raise _ => max_similarity
                end) start samples <= 1.
Proof.
  revert start. induction samples as [|sample samples IH]; intros start Hs;
    [done|].
  cbn [foldl]. apply IH. destruct (d_landmarks sample) as [ref|]; [|done].
  pose proof (landmark_similarity_bounds user ref).
  unfold Rmax. destruct (Rle_dec _ _); lra.
Qed.

Lemma similarity_score_bounds db user target model_id score :
  _calculate_similarity_score db user target model_id = Ok score →
  0 <= score <= 1.
Proof.
  unfold _calculate_similarity_score.
  destruct (session_local db); [intros [= <-]; lra|].
  destruct (close db); [done|]. intros [= <-].
  destruct (query_datasets db model_id target) as [rows|]; [|lra].
  destruct (take 5 rows) as [|s l] eqn:Ht; [lra|].
  apply best_similarity_bounds. lra.
Qed.

Lemma detection_quality_tier landmarks confidence :
  let q := _assess_detection_quality landmarks confidence in
  q = "excellent" ∨ q = "good" ∨ q = "fair" ∨ q = "poor".
Proof.
  cbn zeta. unfold _assess_detection_quality. case_bool_decide; [tauto|].
  destruct (item landmarks 0) as [wrist|]; cbn [mbind result_bind];
    [|tauto].
  destruct (mapM (item landmarks) [4; 8; 12; 16; 20]%nat) as [tips|];
    cbn [mbind result_bind]; [|tauto].
  destruct (mapM (λ tip, planar_distance tip wrist) tips) as [distances|];
    cbn [mbind result_bind]; [|tauto].
  repeat case_bool_decide; cbn; tauto.
Qed.

(** The three ways in which the similarity step ends: a failure to open
    the session or of the query gives 0.0, a failure to close the session
    is raised. *)
Lemma similarity_score_cases db user target model_id :
  match session_local db, close db with
  | Some _, _ => _calculate_similarity_score db user target model_id = Ok 0.0
  | None, Some e => _calculate_similarity_score db user target model_id = Raise e
  | None, None =>
      ∃ score,
        _calculate_similarity_score db user target model_id = Ok score
        ∧ ((∃ e, query_datasets db model_id target = Raise e) → score = 0.0)
  end.
Proof.
  unfold _calculate_similarity_score.
  destruct (session_local db); [done|]. destruct (close db); [done|].
  eexists. split; [done|]. intros [e ->]. done.
Qed.

(** The result of the [try] block when the prediction and the similarity
    are computed. *)
Lemma compare_body_ok self fs db now model_id landmarks target pr score :
  (MLService.predict (ml_service self) fs model_id
     {[ "landmarks" := landmarks ]}).1 = Ok pr →
  _calculate_similarity_score db landmarks target model_id = Ok score →
  (compare_body self fs db now model_id landmarks target).1
  = Ok (comparison_of now landmarks target pr score).
Proof.
  intros Hp Hs. unfold compare_body.
  destruct (MLService.predict _ _ _ _) as [r ml]. cbn in Hp. subst r.
  by rewrite Hs.
Qed.

Lemma compare_with_target_ok self fs db now model_id landmarks target pr score :
  (MLService.predict (ml_service self) fs model_id
     {[ "landmarks" := landmarks ]}).1 = Ok pr →
  _calculate_similarity_score db landmarks target model_id = Ok score →
  (compare_with_target self fs db now model_id landmarks target).1
  = comparison_of now landmarks target pr score.
Proof.
  intros Hp Hs.
  pose proof (compare_body_ok self fs db now model_id landmarks target pr
                score Hp Hs) as Hb.
  unfold compare_with_target.
  destruct (compare_body _ _ _ _ _ _ _) as [b self']. cbn in Hb. by subst b.
Qed.

Lemma comparison_of_no_error now landmarks target pr score :
  ¬ is_error_result (comparison_of now landmarks target pr score).
Proof.
  intros (_ & _ & _ & _ & Hq). cbn in Hq.
  pose proof (detection_quality_tier landmarks (MLService.confidence pr)) as Ht.
  cbn zeta in Ht. rewrite Hq in Ht. by destruct Ht as [?|[?|[?|?]]].
Qed.

(** What the practice service answers on the open hand for target "A"
    when the similarity step gives 0.0. *)
Lemma practice_comparison db :
  _calculate_similarity_score db open_hand "A" "m" = Ok 0.0 →
  (compare_with_target practice_service ∅ db "2024-01-01T00:00:00"
     "m" open_hand "A").1
  = {| prediction := "A"; confidence := 0.75; isMatch := true;
       feedback := "¡Muy bien! Seña correcta, sigue practicando";
       similarity := 0.0; timestamp := "2024-01-01T00:00:00";
       detectionQuality :=
         _assess_detection_quality open_hand 0.75 |}.
Proof.
  intros Hs.
  rewrite (compare_with_target_ok practice_service ∅ db
             "2024-01-01T00:00:00" "m" open_hand "A" _ 0.0
             plain_prediction Hs).
  unfold comparison_of.
  cbn [acceptance MLService.prediction MLService.confidence].
  unfold _evaluate_match, _generate_advanced_feedback.
  rewrite (bool_decide_eq_false_2 ("A" ≠ "A")) by (intros H; by apply H).
  rewrite (bool_decide_eq_true_2 (0.75 <= 0.75)) by lra.
  rewrite (bool_decide_eq_false_2 (0.95 <= 0.75)) by lra.
  by rewrite (bool_decide_eq_false_2 (0.85 <= 0.75)) by lra.
Qed.

(** C6, as stated, fails: when the query for the reference samples
    raises, the step fails but the result is not the error result: the
    exception is swallowed inside [_calculate_similarity_score], and the
    comparison reports the prediction of the classifier, here a match
    with the target, with similarity 0.0. *)
Lemma failing_query_is_swallowed :
  (∃ e, query_datasets broken_query "m" "A" = Raise e)
  ∧ (compare_with_target practice_service ∅ broken_query
       "2024-01-01T00:00:00" "m" open_hand "A").1
    = {| prediction := "A"; confidence := 0.75; isMatch := true;
         feedback := "¡Muy bien! Seña correcta, sigue practicando";
         similarity := 0.0; timestamp := "2024-01-01T00:00:00";
         detectionQuality := _assess_detection_quality open_hand 0.75 |}
  ∧ ¬ is_error_result
        (compare_with_target practice_service ∅ broken_query
           "2024-01-01T00:00:00" "m" open_hand "A").1.
Proof.
  split_and!.
  - by eexists.
  - by apply practice_comparison.
  - rewrite practice_comparison by done. by intros [[=] _].
Qed.

(** C6, as the code has it: [compare_with_target] always returns a
    comparison result.  It is the fixed error result, with prediction
    "Error", confidence 0, no match, similarity 0 and quality "error",
    exactly when [predict] raises, as it does for a landmark list that
    has not 21 entries and for a model without artifact, or when the
    session of the database was opened and closing it raises.  A failure
    to open the session or of the query for the reference samples is not
    reported: the result is then the one of the prediction, with
    similarity 0.0. *)
Theorem compare_with_target_never_raises self fs db now model_id landmarks
    target_label :
  let predicted :=
    (MLService.predict (ml_service self) fs model_id
       {[ "landmarks" := landmarks ]}).1 in
  let returned :=
    (compare_with_target self fs db now model_id landmarks target_label).1 in
  (∀ e, predicted = Raise e → returned = error_result now e)
  ∧ (∀ pr e, predicted = Ok pr →
       session_local db = None → close db = Some e →
       returned = error_result now e)
  ∧ (∀ pr, predicted = Ok pr →
       is_Some (session_local db) ∨ close db = None →
       ∃ score,
         returned = comparison_of now landmarks target_label pr score
         ∧ 0 <= score <= 1
         ∧ (is_Some (session_local db)
            ∨ (∃ e, query_datasets db model_id target_label = Raise e)
            → score = 0))
  ∧ (is_error_result returned
     ↔ (∃ e, predicted = Raise e)
       ∨ session_local db = None ∧ is_Some (close db))
  ∧ (length landmarks ≠ 21%nat → is_error_result returned)
  ∧ (MLService.models (ml_service self) !! model_id = None →
     fs !! model_id = None → is_error_result returned).
Proof.
  cbn zeta.
  assert (Hraise : ∀ e,
            (MLService.predict (ml_service self) fs model_id
               {[ "landmarks" := landmarks ]}).1 = Raise e →
            (compare_with_target self fs db now model_id landmarks
                                 target_label).1 = error_result now e).
  { intros e He. apply compare_raises_error.
    by apply compare_body_predict_raises. }
  assert (Hclose : ∀ pr e,
            (MLService.predict (ml_service self) fs model_id
               {[ "landmarks" := landmarks ]}).1 = Ok pr →
            session_local db = None → close db = Some e →
            (compare_with_target self fs db now model_id landmarks
                                 target_label).1 = error_result now e).
  { intros pr e Hp Hopen Hcl. apply compare_raises_error.
    pose proof (similarity_score_cases db landmarks target_label model_id)
      as Hs. rewrite Hopen, Hcl in Hs.
    unfold compare_body.
    destruct (MLService.predict _ _ _ _) as [r ml]. cbn in Hp. subst r.
    by rewrite Hs. }
  assert (Hok : ∀ pr,
            (MLService.predict (ml_service self) fs model_id
               {[ "landmarks" := landmarks ]}).1 = Ok pr →
            is_Some (session_local db) ∨ close db = None →
            ∃ score,
              (compare_with_target self fs db now model_id landmarks
                                   target_label).1
              = comparison_of now landmarks target_label pr score
              ∧ 0 <= score <= 1
              ∧ (is_Some (session_local db)
                 ∨ (∃ e, query_datasets db model_id target_label = Raise e)
                 → score = 0)).
  { intros pr Hp Hdb.
    pose proof (similarity_score_cases db landmarks target_label model_id)
      as Hs.
    destruct (session_local db) as [e|] eqn:Hopen.
    - exists 0.0. split_and!.
      + by apply compare_with_target_ok.
      + lra.
      + lra.
      + intros _. lra.
    - destruct Hdb as [[e He]|Hcl]; [done|]. rewrite Hcl in Hs.
      destruct Hs as (score & Hs & Hzero). exists score. split_and!.
      + by apply compare_with_target_ok.
      + by apply (similarity_score_bounds _ _ _ _ _ Hs).
      + by apply (similarity_score_bounds _ _ _ _ _ Hs).
      + intros [[e He]|Hq]; [done|]. rewrite (Hzero Hq). lra. }
  split_and!.
  - exact Hraise.
  - exact Hclose.
  - exact Hok.
  - destruct (MLService.predict (ml_service self) fs model_id
                {[ "landmarks" := landmarks ]}).1 as [pr|e] eqn:Hp.
    + destruct (session_local db) as [e|] eqn:Hopen.
      * destruct (Hok pr eq_refl) as (score & -> & _); [left; by eexists|].
        split; [intros H; by apply comparison_of_no_error in H|].
        intros [[e' He']|[Hn _]]; done.
      * destruct (close db) as [e|] eqn:Hcl.
        -- rewrite (Hclose pr e eq_refl eq_refl eq_refl).
           split; [|intros _; apply error_result_is_error].
           intros _. right. split; [done|by eexists].
        -- destruct (Hok pr eq_refl) as (score & -> & _); [by right|].
           split; [intros H; by apply comparison_of_no_error in H|].
           intros [[e' He']|[_ [e' He']]]; done.
    + rewrite (Hraise e eq_refl).
      split; [|intros _; apply error_result_is_error].
      intros _. left. by exists e.
  - intros Hlen.
    destruct (predict_bad_length (ml_service self) fs model_id landmarks Hlen)
      as [e He].
    rewrite (Hraise e He). apply error_result_is_error.
  - intros Hm Hfs.
    rewrite (Hraise (Exception
               "Error making prediction: Model directory not found")).
    + apply error_result_is_error.
    + by apply predict_no_artifact.
Qed.

Lemma compare_with_target_never_raises_witness :
  is_error_result
    (compare_with_target init ∅ no_samples "2024-01-01T00:00:00" "m"
                         (replicate 20 ∅) "A").1.
Proof.
  apply (proj1 (proj2 (proj2 (proj2 (proj2
           (compare_with_target_never_raises init ∅ no_samples
              "2024-01-01T00:00:00" "m" (replicate 20 ∅) "A")))))).
  discriminate.
Defined.

End Comparison.

(** ** Training and the persistence of its result *)

Section Training.
Import MLService Spec.

Lemma background_status rows self fs model_id env :
  is_Some (rows !! model_id) →
  (ModelsRoute.train_model_background rows self fs model_id env).1.1
  !! model_id
  = Some (match (train_model self fs model_id env).1.1 with
          | Ok _ => "ready"
          | Raise _ => "error"
          end).
Proof.
  intros [old Hold]. unfold ModelsRoute.train_model_background.
  destruct (train_model self fs model_id env) as [[r self'] fs'].
  cbn. rewrite Hold. by rewrite lookup_insert_eq.
Qed.

Lemma train_model_succeeds self fs model_id env f m :
  prepared env = Ok f → makedirs env = None → save_model env = None →
  dump_label_json env = None → final_metrics env f = Ok m →
  (train_model self fs model_id env).1
  = (Ok m, store self model_id (trained_components f)).
Proof.
  intros Hp Hd Hs Hj Hm. unfold train_model, persist.
  by rewrite Hp, Hd, Hs, Hj, Hm.
Qed.

Lemma mapM_np_argmax (y_pred : list (list R)) :
  Forall (λ row, row ≠ []) y_pred ↔ ∃ classes, mapM np_argmax y_pred = Ok classes.
Proof.
  induction y_pred as [|row y_pred IH].
  - split; [by eexists|constructor].
  - cbn [mapM]. rewrite Forall_cons, IH. destruct row as [|x row].
    + cbn. split; [by intros [? _]|by intros [? ?]].
    + cbn [np_argmax mbind result_bind].
      destruct (mapM np_argmax y_pred) as [classes|]; cbn.
      * split; [by eexists|]. intros _. split; [done|by eexists].
      * split; [by intros [_ [? ?]]|by intros [? ?]].
Qed.

(** The metrics step raises exactly when the classifier cannot predict
    the test set, or there is none and the history is empty: no failure
    inside [_calculate_metrics] leaves it. *)
Lemma final_metrics_succeeds env f :
  metrics_step_succeeds env f ↔ ∃ m, final_metrics env f = Ok m.
Proof.
  unfold metrics_step_succeeds, final_metrics.
  destruct (f_X_test f) as [|row rows].
  - rewrite bool_decide_eq_false_2 by (cbn; lia).
    destruct (h_accuracy (f_history f)) as [|a l] using rev_ind.
    + cbn. split; [done|by intros [? ?]].
    + rewrite last_snoc. cbn. split; [by eexists|]. intros _. by destruct l.
  - rewrite bool_decide_eq_true_2 by (cbn; lia).
    destruct (test_predictions env) as [y_pred|e]; cbn [mbind result_bind].
    + split.
      * intros (y & [= <-] & Hrows).
        apply mapM_np_argmax in Hrows as [classes ->]. by eexists.
      * intros [m Hm]. exists y_pred. split; [done|].
        apply mapM_np_argmax.
        destruct (mapM np_argmax y_pred) as [classes|]; [by eexists|done].
    + split; [by intros (? & ? & _)|by intros [? ?]].
Qed.

Lemma train_model_raises self fs model_id env :
  ¬ critical_steps_succeed env →
  ∃ e, (train_model self fs model_id env).1 = (Raise (training_error e), self).
Proof.
  intros Hn. unfold train_model, persist.
  destruct (prepared env) as [f|e] eqn:Hp; [|by eexists].
  destruct (makedirs env) as [e|] eqn:Hd; [by eexists|].
  destruct (save_model env) as [e|] eqn:Hs; [by eexists|].
  destruct (dump_label_json env) as [w|] eqn:Hj; [by eexists|].
  destruct (final_metrics env f) as [m|e] eqn:Hm; [|by eexists].
  exfalso. apply Hn. exists f. split_and!; try done.
  apply final_metrics_succeeds. by exists m.
Qed.

Lemma report_failure_fabricates env f y_pred classes e :
  f_X_test f ≠ [] →
  test_predictions env = Ok y_pred →
  mapM np_argmax y_pred = Ok classes →
  classification_report env (f_y_test f) classes (f_labels_with_negative f)
  = Raise e →
  final_metrics env f = Ok (fabricated_metrics (f_y_test f)).
Proof.
  intros Hne Hp Hc Hr. unfold final_metrics.
  rewrite bool_decide_eq_true_2 by (destruct (f_X_test f); [done|cbn; lia]).
  rewrite Hp. cbn [mbind result_bind]. rewrite Hc. cbn [mbind result_bind].
  unfold _calculate_metrics. rewrite Hr. cbn [mbind result_bind mret result_ret].
  unfold fabricated_metrics. do 2 f_equal. lra.
Qed.

Lemma sample_final_metrics env :
  final_metrics env sample_fitted = Ok sample_metrics.
Proof. reflexivity. Qed.

Lemma report_fails_final_metrics :
  final_metrics report_fails tested_fitted = Ok (fabricated_metrics [0%Z]).
Proof.
  apply (report_failure_fabricates report_fails tested_fitted [plain_probs]
           [0%nat] (ValueError
              "Number of classes does not match size of target_names")).
  - done.
  - done.
  - cbn [mapM]. by rewrite plain_argmax.
  - done.
Qed.

(** C4, as stated, fails in two ways.  When only the writing of
    [scaler.pkl] fails, [train_model] raises nothing and returns the
    metrics, the background trainer marks the model "ready", and the
    directory of the model has no [scaler.pkl].  When only
    [classification_report] fails, [_calculate_metrics] answers with
    metrics that it has not computed, accuracy 0 and nothing but the size
    of the test set: [train_model] returns them, writes them to
    [metrics.json], and the model is marked "ready". *)
Lemma swallowed_failures_leave_model_ready :
  (dump_scaler scaler_write_fails
   = Some (OpenFails (OSError "No space left on device"))
   ∧ (train_model init ∅ "m" scaler_write_fails).1.1 = Ok sample_metrics
   ∧ (ModelsRoute.train_model_background {[ "m" := "training" ]} init ∅ "m"
        scaler_write_fails).1.1 !! "m" = Some "ready"
   ∧ (scaler_pkl <$> (train_model init ∅ "m" scaler_write_fails).2 !! "m")
     = Some None)
  ∧ ((∃ e, classification_report report_fails [0%Z] [0%nat] plain_classes
           = Raise e)
     ∧ (train_model init ∅ "m" report_fails).1.1
       = Ok (fabricated_metrics [0%Z])
     ∧ (ModelsRoute.train_model_background {[ "m" := "training" ]} init ∅ "m"
          report_fails).1.1 !! "m" = Some "ready"
     ∧ (metrics_json <$> (train_model init ∅ "m" report_fails).2 !! "m")
       = Some (Some (Ok (fabricated_metrics [0%Z])))).
Proof.
  pose proof (train_model_succeeds init ∅ "m" scaler_write_fails
                sample_fitted sample_metrics eq_refl eq_refl eq_refl eq_refl
                eq_refl) as Hscaler.
  pose proof (train_model_succeeds init ∅ "m" report_fails
                tested_fitted (fabricated_metrics [0%Z]) eq_refl eq_refl
                eq_refl eq_refl report_fails_final_metrics) as Hreport.
  split; split_and!.
  - done.
  - by rewrite Hscaler.
  - rewrite background_status by (rewrite lookup_singleton_eq; eauto).
    by rewrite Hscaler.
  - unfold train_model, persist.
    cbn [prepared makedirs save_model dump_label_json scaler_write_fails].
    rewrite sample_final_metrics. cbn. by rewrite lookup_insert_eq.
  - by eexists.
  - by rewrite Hreport.
  - rewrite background_status by (rewrite lookup_singleton_eq; eauto).
    by rewrite Hreport.
  - unfold train_model, persist.
    cbn [prepared makedirs save_model dump_label_json report_fails].
    rewrite report_fails_final_metrics. cbn. by rewrite lookup_insert_eq.
Qed.

(** C4, as the code has it: [train_model] raises a training error exactly
    when the preparation and fitting, the creation of the directory, the
    saving of the classifier, the writing of [label_encoder.json], the
    prediction of the test set or, without a test set, the reading of the
    last accuracy fails; it then returns no metrics and caches nothing,
    and the background trainer marks the model "error".  When these steps
    succeed it returns metrics, caches the components and the model is
    marked "ready", whether or not the scaler, the validator, the
    label-encoder pickle and the metrics file could be written; and when
    [classification_report] raises on the test set, the metrics returned
    are those of the [except] clause of [_calculate_metrics], which were
    not computed. *)
Theorem train_model_persistence self fs model_id env :
  let out := train_model self fs model_id env in
  (critical_steps_succeed env →
   ∃ f m,
     prepared env = Ok f ∧ final_metrics env f = Ok m
     ∧ out.1.1 = Ok m
     ∧ out.1.2 = store self model_id (trained_components f)
     ∧ marked "ready" self fs model_id env
     ∧ ∀ y_pred classes e,
         f_X_test f ≠ [] →
         test_predictions env = Ok y_pred →
         mapM np_argmax y_pred = Ok classes →
         classification_report env (f_y_test f) classes
                               (f_labels_with_negative f) = Raise e →
         m = fabricated_metrics (f_y_test f))
  ∧ (¬ critical_steps_succeed env →
     (∃ e, out.1.1 = Raise (training_error e))
     ∧ out.1.2 = self
     ∧ marked "error" self fs model_id env).
Proof.
  cbn zeta. split.
  - intros (f & Hp & Hd & Hs & Hj & Hmetrics).
    apply final_metrics_succeeds in Hmetrics as [m Hm]. exists f, m.
    pose proof (train_model_succeeds self fs model_id env f m Hp Hd Hs Hj Hm)
      as H.
    split_and!; try done; try by rewrite H.
    + intros rows Hrows. rewrite background_status by done. by rewrite H.
    + intros y_pred classes e Hne Hpred Hclasses Hreport.
      rewrite (report_failure_fabricates env f y_pred classes e) in Hm by done.
      by injection Hm.
  - intros Hn. destruct (train_model_raises self fs model_id env Hn) as [e H].
    split_and!; [by exists e; rewrite H | by rewrite H |].
    intros rows Hrows. rewrite background_status by done. by rewrite H.
Qed.

Lemma train_model_persistence_witness :
  (∃ e, (train_model init ∅ "m" label_json_write_fails).1.1
        = Raise (training_error e))
  ∧ (train_model init ∅ "m" label_json_write_fails).1.2 = init
  ∧ marked "error" init ∅ "m" label_json_write_fails.
Proof.
  apply (proj2 (train_model_persistence init ∅ "m" label_json_write_fails)).
  intros (f & _ & _ & _ & H & _). discriminate H.
Defined.

End Training.

(** * Further properties of the code *)

(** ** The pose check and the results of [predict] *)

Section Inference.
Import MLService Spec.
Local Open Scope R_scope.

Lemma mapM_result_raise {A B} (f : A → result B) (l : list A) (x : A) (e : exn) :
  x ∈ l → f x = Raise e → ∃ e', mapM f l = Raise e'.
Proof.
  intros Hx Hf. induction l as [|y l IH]; [by apply elem_of_nil in Hx|].
  cbn [mapM]. destruct (f y) as [b|e0] eqn:Hy; [|by eexists].
  apply elem_of_cons in Hx as [->|Hx]; [congruence|].
  destruct (IH Hx) as [e' ->]. by eexists.
Qed.

Lemma item_out_of_range {A} (l : list A) (i : nat) :
  (length l ≤ i)%nat → item l i = Raise IndexError.
Proof. intros H. unfold item. by rewrite lookup_ge_None_2. Qed.

(** X1: the pose check is open on failure: a landmark list with fewer than
    21 entries, the empty list included, passes it. *)
Theorem short_list_passes_pose_check (landmarks : list landmark) :
  (length landmarks < 21)%nat → _is_valid_hand_pose landmarks = true.
Proof.
  intros Hlen. unfold _is_valid_hand_pose.
  destruct (item (to_coords landmarks) 0) as [wrist|e]; [|done].
  cbn [mbind result_bind].
  destruct (mapM_result_raise (item (to_coords landmarks)) finger_tips
              20%nat IndexError) as [e' ->]; [| |done].
  - unfold finger_tips. set_solver.
  - apply item_out_of_range. unfold to_coords. rewrite length_fmap. lia.
Qed.

Lemma short_list_passes_pose_check_witness :
  _is_valid_hand_pose (replicate 5 (point 0 0 0)) = true.
Proof.
  apply (short_list_passes_pose_check (replicate 5 (point 0 0 0))).
  cbn. lia.
Defined.

Lemma to_coords_constant (landmarks : list landmark) (c : float3) :
  (∀ lm, lm ∈ landmarks → coord_of lm = c) →
  to_coords landmarks = replicate (length landmarks) c.
Proof.
  intros H. unfold to_coords. induction landmarks as [|lm l IH]; [done|].
  cbn. rewrite H by set_solver. f_equal. apply IH. intros. apply H. set_solver.
Qed.

(** A hand all of whose points coincide fails the pose check. *)
Lemma collapsed_hand_invalid (landmarks : list landmark) (c : float3) :
  length landmarks = 21%nat →
  (∀ lm, lm ∈ landmarks → coord_of lm = c) →
  _is_valid_hand_pose landmarks = false.
Proof.
  intros Hlen Hc. unfold _is_valid_hand_pose.
  rewrite (to_coords_constant landmarks c Hc), Hlen.
  cbn [item lookup list_lookup replicate mbind result_bind mapM finger_tips
       mret result_ret].
  rewrite !filter_cons_False by (rewrite distance_self; lra).
  done.
Qed.

(** X2: on a loaded model, 21 landmarks that all lie at one point are
    answered with the fixed "hand not detected" result, with confidence 0
    and no probabilities, whatever the classifier would say. *)
Theorem collapsed_hand_not_detected self fs model_id c landmarks (p : float3) :
  (get_components self fs model_id).1 = Ok c →
  length landmarks = 21%nat →
  (∀ lm, lm ∈ landmarks → coord_of lm = p) →
  (predict self fs model_id {[ "landmarks" := landmarks ]}).1
  = Ok {| prediction := hand_not_detected; confidence := 0;
          probabilities := ∅ |}.
Proof.
  intros Hc Hlen Hp. unfold predict.
  destruct (get_components self fs model_id) as [loaded self'].
  cbn in Hc. subst loaded. rewrite lookup_singleton_eq.
  cbn [mbind result_bind]. unfold predict_with.
  destruct landmarks as [|lm landmarks]; [done|].
  rewrite bool_decide_eq_false_2 by (intros Hne; by apply Hne).
  rewrite (collapsed_hand_invalid _ p Hlen Hp). cbn.
  do 2 f_equal. lra.
Qed.

Lemma collapsed_hand_not_detected_witness :
  (predict plain_service ∅ "m" {[ "landmarks" := origin21 ]}).1
  = Ok {| prediction := hand_not_detected; confidence := 0;
          probabilities := ∅ |}.
Proof.
  apply (collapsed_hand_not_detected plain_service ∅ "m"
           (constant_components plain_classes plain_probs) origin21 (0, 0, 0)).
  - apply constant_components_loaded.
  - reflexivity.
  - intros lm Hlm. apply elem_of_replicate in Hlm as [-> _].
    apply (coord_of_point 0 0 0).
Defined.

(** The two shapes of a result of [classify]. *)
Lemma classify_cases class_names probs r :
  classify class_names probs = Ok r →
  ∃ m i label,
    np_max probs = Ok m ∧ np_argmax probs = Ok i
    ∧ item class_names i = Ok label
    ∧ ((m < 0.5 ∨ 2.5 < _calculate_entropy_threshold probs
        ∨ label = "NO_GESTURE")
       ∧ r = rejection class_names probs m
       ∨ ¬ (m < 0.5 ∨ 2.5 < _calculate_entropy_threshold probs
            ∨ label = "NO_GESTURE")
         ∧ r = acceptance class_names probs label m).
Proof.
  intros Hr.
  destruct (np_max probs) as [m|e] eqn:Hm;
    [|unfold classify in Hr; by rewrite Hm in Hr].
  destruct (np_argmax probs) as [i|e] eqn:Hi;
    [|unfold classify in Hr; by rewrite Hm, Hi in Hr].
  destruct (item class_names i) as [label|e] eqn:Hl;
    [|unfold classify in Hr; rewrite Hm, Hi in Hr; cbn in Hr;
      by rewrite Hl in Hr].
  rewrite (classify_decision _ _ _ _ _ Hm Hi Hl) in Hr.
  exists m, i, label. split_and!; try done.
  case_bool_decide; injection Hr as <-; [left|right]; done.
Qed.

(** A result of [predict] is the fixed pose result or a result of
    [classify] on the classifier's output. *)
Lemma predict_cases self fs model_id data r :
  (predict self fs model_id data).1 = Ok r →
  ∃ c landmarks,
    (get_components self fs model_id).1 = Ok c
    ∧ data !! "landmarks" = Some landmarks
    ∧ length landmarks = 21%nat
    ∧ (_is_valid_hand_pose landmarks = false
       ∧ r = {| prediction := hand_not_detected; confidence := 0.0;
                probabilities := ∅ |}
       ∨ ∃ features probs,
           _is_valid_hand_pose landmarks = true
           ∧ _extract_features_fixed landmarks = Ok features
           ∧ model_predict (c_model c) (scale_features (c_scaler c) features)
             = Ok probs
           ∧ classify (c_class_names c) probs = Ok r).
Proof.
  unfold predict. destruct (get_components self fs model_id) as [[c|e] self'];
    [|done].
  cbn [mbind result_bind fst]. intros Hr.
  destruct (predict_with c (data !! "landmarks")) as [r'|e] eqn:Hp; [|done].
  injection Hr as ->. unfold predict_with in Hp.
  destruct (data !! "landmarks") as [[|lm landmarks]|] eqn:Hd; try done.
  case_bool_decide as Hlen; [done|].
  exists c, (lm :: landmarks). split_and!; try done.
  destruct (_is_valid_hand_pose (lm :: landmarks)) eqn:Hv; cbn [negb] in Hp.
  - right.
    destruct (_extract_features_fixed (lm :: landmarks)) as [features|];
      [|done].
    cbn [mbind result_bind] in Hp.
    destruct (model_predict _ _) as [probs|] eqn:Hm; [|done].
    by exists features, probs.
  - left. split; [done|]. by injection Hp.
Qed.

Lemma dict_of_items_lookup_None {A} (items : list (string * A)) (k : string) :
  k ∉ items.*1 → dict_of_items items !! k = None.
Proof.
  unfold dict_of_items. induction items as [|[k' v] items IH] using rev_ind.
  - done.
  - rewrite fmap_app, foldl_snoc. cbn. intros Hk.
    apply not_elem_of_app in Hk as [Hk Hk'].
    rewrite lookup_insert_ne; [by apply IH|].
    intros ->. apply Hk'. by left.
Qed.

Lemma filtered_probabilities_no_sentinel class_names probs :
  filtered_probabilities class_names probs !! "NO_GESTURE" = None.
Proof.
  unfold filtered_probabilities. apply dict_of_items_lookup_None.
  intros Hin. apply list_elem_of_fmap in Hin as ([k v] & Hk & Hin).
  apply list_elem_of_filter in Hin as [Hne _]. cbn in *. by subst k.
Qed.

Lemma renormalized_lookup_None (d : gmap string R) (k : string) :
  d !! k = None → renormalized d !! k = None.
Proof.
  intros H. unfold renormalized. case_bool_decide; [|done].
  by rewrite lookup_fmap, H.
Qed.

(** X3: the sentinel never leaves [predict]: no result has the label
    NO_GESTURE as its prediction, nor as a key of its probabilities. *)
Theorem predict_hides_sentinel self fs model_id data r :
  (predict self fs model_id data).1 = Ok r →
  prediction r ≠ "NO_GESTURE" ∧ probabilities r !! "NO_GESTURE" = None.
Proof.
  intros Hr.
  destruct (predict_cases _ _ _ _ _ Hr)
    as (c & l & _ & _ & _ & [[_ ->]|(f & probs & _ & _ & _ & Hc)]).
  - done.
  - destruct (classify_cases _ _ _ Hc)
      as (m & i & label & _ & _ & _ & [[_ ->]|[Hn ->]]).
    + split; [done|]. apply filtered_probabilities_no_sentinel.
    + split; [cbn; tauto|]. cbn. apply renormalized_lookup_None.
      apply filtered_probabilities_no_sentinel.
Qed.

Lemma predict_hides_sentinel_witness :
  prediction (acceptance plain_classes plain_probs "A" 0.75) ≠ "NO_GESTURE"
  ∧ probabilities (acceptance plain_classes plain_probs "A" 0.75)
    !! "NO_GESTURE" = None.
Proof.
  apply (predict_hides_sentinel plain_service ∅ "m"
           {[ "landmarks" := open_hand ]}).
  apply plain_prediction.
Defined.

Lemma item_elem_of {A} (l : list A) (i : nat) (a : A) :
  item l i = Ok a → a ∈ l.
Proof.
  unfold item. destruct (l !! i) eqn:H; [|done]. intros [= <-].
  by apply list_elem_of_lookup_2 in H.
Qed.

(** X4: a result of [predict] that names a gesture is above the confidence
    threshold: unless the prediction is one of the two fixed messages, it
    is one of the model's classes, its confidence is the maximum of the
    probabilities that the classifier gave on the extracted features, and
    that maximum is at least 0.5 while the entropy is at most 2.5. *)
Theorem predicted_gesture_is_confident self fs model_id data r :
  (predict self fs model_id data).1 = Ok r →
  prediction r ≠ no_clear_gesture →
  prediction r ≠ hand_not_detected →
  ∃ c landmarks features probs,
    (get_components self fs model_id).1 = Ok c
    ∧ data !! "landmarks" = Some landmarks
    ∧ _extract_features_fixed landmarks = Ok features
    ∧ model_predict (c_model c) (scale_features (c_scaler c) features)
      = Ok probs
    ∧ prediction r ∈ c_class_names c
    ∧ np_max probs = Ok (confidence r)
    ∧ 0.5 <= confidence r
    ∧ _calculate_entropy_threshold probs <= 2.5.
Proof.
  intros Hr Hn1 Hn2.
  destruct (predict_cases _ _ _ _ _ Hr)
    as (c & l & Hc & Hd & _ & [[_ ->]|(f & probs & _ & Hf & Hm & Hcl)]);
    [done|].
  destruct (classify_cases _ _ _ Hcl)
    as (m & i & label & Hmax & Hi & Hl & [[_ ->]|[Hn ->]]); [done|].
  exists c, l, f, probs. cbn. split_and!; try done.
  - by apply item_elem_of in Hl.
  - lra.
  - lra.
Qed.

Lemma predicted_gesture_is_confident_witness :
  ∃ c landmarks features probs,
    (get_components plain_service ∅ "m").1 = Ok c
    ∧ ({[ "landmarks" := open_hand ]} : gmap string (list landmark))
      !! "landmarks" = Some landmarks
    ∧ _extract_features_fixed landmarks = Ok features
    ∧ model_predict (c_model c) (scale_features (c_scaler c) features)
      = Ok probs
    ∧ "A" ∈ c_class_names c
    ∧ np_max probs = Ok 0.75
    ∧ 0.5 <= 0.75
    ∧ _calculate_entropy_threshold probs <= 2.5.
Proof.
  apply (predicted_gesture_is_confident plain_service ∅ "m"
           {[ "landmarks" := open_hand ]}
           (acceptance plain_classes plain_probs "A" 0.75)).
  - apply plain_prediction.
  - discriminate.
  - discriminate.
Defined.

(** *** The renormalized probabilities *)

Lemma sum_values_nonneg (d : gmap string R) :
  map_Forall (λ _ v, 0 <= v) d → 0 <= sum_values d.
Proof.
  induction d as [|k v d Hk IH] using map_ind.
  - intros _. rewrite sum_values_empty. lra.
  - intros H. apply map_Forall_insert in H as [Hv Hd]; [|done].
    rewrite sum_values_insert by done. specialize (IH Hd). lra.
Qed.

Lemma sum_values_ge (d : gmap string R) (k : string) (v : R) :
  map_Forall (λ _ v, 0 <= v) d → d !! k = Some v → v <= sum_values d.
Proof.
  intros Hd Hk. rewrite <- (insert_delete_id d k v Hk).
  rewrite sum_values_insert by apply lookup_delete_eq.
  assert (0 <= sum_values (delete k d)); [|lra].
  apply sum_values_nonneg. intros k' v' H'.
  apply lookup_delete_Some in H' as [_ H']. by apply (Hd k').
Qed.

Lemma dict_of_items_elem_of {A} (items : list (string * A)) k v :
  dict_of_items items !! k = Some v → (k, v) ∈ items.
Proof.
  unfold dict_of_items. induction items as [|[k' v'] items IH] using rev_ind.
  - done.
  - rewrite foldl_snoc. cbn. intros H.
    apply lookup_insert_Some in H as [[-> ->]|[_ H]]; set_solver.
Qed.

Lemma dict_of_items_NoDup {A} (items : list (string * A)) k v :
  NoDup items.*1 → (k, v) ∈ items → dict_of_items items !! k = Some v.
Proof.
  unfold dict_of_items. induction items as [|[k' v'] items IH] using rev_ind.
  - intros _ H. by apply elem_of_nil in H.
  - rewrite fmap_app, foldl_snoc. cbn. intros Hnd Hin.
    apply NoDup_app in Hnd as (Hnd & Hdisj & _).
    apply elem_of_app in Hin as [Hin|Hin].
    + rewrite lookup_insert_ne; [by apply IH|].
      intros ->. apply (Hdisj k); [|by left].
      apply list_elem_of_fmap. by exists (k, v).
    + apply list_elem_of_singleton in Hin as [= -> ->].
      apply lookup_insert_eq.
Qed.

Lemma zip_fst_sublist {A B} (l : list A) (k : list B) :
  (zip l k).*1 `sublist_of` l.
Proof.
  revert k. induction l as [|x l IH]; intros [|y k]; cbn.
  - done.
  - done.
  - apply sublist_nil_l.
  - by apply sublist_skip.
Qed.

(** The entry of the winning label, when the class names are distinct. *)
Lemma filtered_probabilities_winner class_names probs i label m :
  NoDup class_names → label ≠ "NO_GESTURE" →
  class_names !! i = Some label → probs !! i = Some m →
  filtered_probabilities class_names probs !! label = Some m.
Proof.
  intros Hnd Hne Hl Hm. unfold filtered_probabilities.
  apply dict_of_items_NoDup.
  - apply (sublist_NoDup _ class_names); [done|].
    etrans; [|apply (zip_fst_sublist class_names probs)].
    apply fmap_sublist, sublist_filter.
  - apply list_elem_of_filter. split; [done|].
    apply (list_elem_of_lookup_2 _ i). by apply lookup_zip_Some.
Qed.

Lemma filtered_probabilities_nonneg class_names probs :
  Forall (λ p, 0 <= p) probs →
  map_Forall (λ _ v, 0 <= v) (filtered_probabilities class_names probs).
Proof.
  intros Hp k v Hk. unfold filtered_probabilities in Hk.
  apply dict_of_items_elem_of, list_elem_of_filter in Hk as [_ Hk].
  apply list_elem_of_lookup in Hk as [i Hi].
  apply lookup_zip_Some in Hi as [_ Hi].
  by apply (Forall_lookup_1 _ _ _ _ Hp Hi).
Qed.

Lemma foldl_Rmax_upper (l : list R) (start : R) :
  start <= foldl Rmax start l ∧ ∀ x, x ∈ l → x <= foldl Rmax start l.
Proof.
  revert start. induction l as [|y l IH]; intros start.
  - cbn. split; [lra|]. intros x Hx. by apply elem_of_nil in Hx.
  - cbn [foldl]. destruct (IH (Rmax start y)) as [Hs Hl].
    pose proof (Rmax_l start y). pose proof (Rmax_r start y).
    split; [lra|]. intros x Hx. apply elem_of_cons in Hx as [->|Hx].
    + lra.
    + by apply Hl.
Qed.

Lemma np_max_upper (a : list R) (m x : R) :
  np_max a = Ok m → x ∈ a → x <= m.
Proof.
  destruct a as [|y a]; [done|]. cbn. intros [= <-] Hx.
  destruct (foldl_Rmax_upper a y) as [Hy Ha].
  apply elem_of_cons in Hx as [->|Hx]; [done|by apply Ha].
Qed.

Lemma filtered_probabilities_elem_of class_names probs label p :
  filtered_probabilities class_names probs !! label = Some p → p ∈ probs.
Proof.
  intros Hk. unfold filtered_probabilities in Hk.
  apply dict_of_items_elem_of, list_elem_of_filter in Hk as [_ Hk].
  apply list_elem_of_lookup in Hk as [i Hi].
  apply lookup_zip_Some in Hi as [_ Hi].
  by apply (list_elem_of_lookup_2 _ i).
Qed.

(** X5: the predicted gesture is the most probable entry: in a result of
    [predict] that names a gesture, the probabilities have an entry for
    the predicted label, it is positive, and every entry lies between 0
    and it, when the class names of the model are distinct and the
    classifier gives no negative probability. *)
Theorem predicted_label_is_most_probable self fs model_id data c r :
  (get_components self fs model_id).1 = Ok c →
  NoDup (c_class_names c) →
  (∀ row probs, model_predict (c_model c) row = Ok probs →
                Forall (λ p, 0 <= p) probs) →
  (predict self fs model_id data).1 = Ok r →
  prediction r ≠ no_clear_gesture →
  prediction r ≠ hand_not_detected →
  ∃ top,
    probabilities r !! prediction r = Some top
    ∧ 0 < top
    ∧ ∀ label p, probabilities r !! label = Some p → 0 <= p <= top.
Proof.
  intros Hc Hnd Hpos Hr Hn1 Hn2.
  destruct (predict_cases _ _ _ _ _ Hr)
    as (c' & l & Hc' & _ & _ & [[_ ->]|(f & probs & _ & _ & Hm & Hcl)]);
    [done|].
  assert (c' = c) as -> by congruence.
  destruct (classify_cases _ _ _ Hcl)
    as (m & i & label & Hmax & Hi & Hl & [[_ ->]|[Hn ->]]); [done|].
  pose proof (argmax_is_max _ _ _ Hmax Hi) as Hitem.
  unfold item in Hitem, Hl.
  destruct (probs !! i) as [m'|] eqn:Hpi; [|done]. injection Hitem as ->.
  destruct (c_class_names c !! i) as [label'|] eqn:Hci; [|done].
  injection Hl as ->.
  assert (Hwin : filtered_probabilities (c_class_names c) probs !! label
                 = Some m).
  { apply (filtered_probabilities_winner _ _ i); try done. tauto. }
  assert (Hnonneg : map_Forall (λ _ v, 0 <= v)
                      (filtered_probabilities (c_class_names c) probs)).
  { apply filtered_probabilities_nonneg. by apply (Hpos _ _ Hm). }
  pose proof (sum_values_ge _ label m Hnonneg Hwin) as Htotal.
  cbn [acceptance prediction probabilities]. unfold renormalized.
  set (total := sum_values (filtered_probabilities (c_class_names c) probs))
    in *.
  assert (0.5 <= m) by lra.
  rewrite bool_decide_eq_true_2 by lra.
  exists (m / total). split_and!.
  - by rewrite lookup_fmap, Hwin.
  - apply Rdiv_lt_0_compat; lra.
  - intros label' p. rewrite lookup_fmap.
    destruct (filtered_probabilities (c_class_names c) probs !! label')
      as [q|] eqn:Hq; [|done].
    intros [= <-].
    pose proof (Hnonneg label' q Hq) as Hq0. cbn in Hq0.
    pose proof (np_max_upper probs m q Hmax
                  (filtered_probabilities_elem_of _ _ _ _ Hq)) as Hqm.
    assert (0 < / total) by (apply Rinv_0_lt_compat; lra).
    unfold Rdiv. split.
    + apply Rmult_le_pos; lra.
    + apply Rmult_le_compat_r; lra.
Qed.

Lemma plain_classes_NoDup : NoDup plain_classes.
Proof. unfold plain_classes. compute_done. Qed.

Lemma plain_probs_nonneg : Forall (λ p, 0 <= p) plain_probs.
Proof. unfold plain_probs. repeat constructor; lra. Qed.

Lemma predicted_label_is_most_probable_witness :
  ∃ top,
    probabilities (acceptance plain_classes plain_probs "A" 0.75) !! "A"
    = Some top
    ∧ 0 < top.
Proof.
  destruct (predicted_label_is_most_probable plain_service ∅ "m"
              {[ "landmarks" := open_hand ]}
              (constant_components plain_classes plain_probs)
              (acceptance plain_classes plain_probs "A" 0.75))
    as (top & Htop & Hpos & _).
  - apply constant_components_loaded.
  - apply plain_classes_NoDup.
  - intros row probs [= <-]. apply plain_probs_nonneg.
  - apply plain_prediction.
  - discriminate.
  - discriminate.
  - by exists top.
Defined.

(** *** The arg-max *)

Lemma argmax_from_first (rest l pre : list R) (best_i : nat) (best : R) :
  l = pre ++ rest →
  l !! best_i = Some best →
  (∀ j x, pre !! j = Some x → x <= best) →
  (∀ j x, (j < best_i)%nat → l !! j = Some x → x < best) →
  ∃ m,
    l !! argmax_from best_i best (length pre) rest = Some m
    ∧ (∀ j x, l !! j = Some x → x <= m)
    ∧ (∀ j x, (j < argmax_from best_i best (length pre) rest)%nat →
              l !! j = Some x → x < m).
Proof.
  revert pre best_i best.
  induction rest as [|y rest IH]; intros pre best_i best Hl Hbest Hle Hlt.
  - cbn. exists best. rewrite app_nil_r in Hl. subst l. eauto.
  - cbn [argmax_from].
    assert (Hl' : l = (pre ++ [y]) ++ rest) by (by rewrite <- app_assoc).
    assert (Hlen : length (pre ++ [y]) = S (length pre))
      by (rewrite length_app; cbn; lia).
    assert (Hy : l !! length pre = Some y)
      by (rewrite Hl; by rewrite list_lookup_middle).
    rewrite <- Hlen. case_bool_decide as Hc.
    + apply IH; try done.
      * intros j x Hj. apply lookup_app_Some in Hj as [Hj|[_ Hj]].
        -- specialize (Hle j x Hj). lra.
        -- apply list_lookup_singleton_Some in Hj as [_ ->]. lra.
      * intros j x Hj Hx.
        assert (pre !! j = Some x) as Hp.
        { rewrite Hl in Hx. by rewrite lookup_app_l in Hx. }
        specialize (Hle j x Hp). lra.
    + apply IH; try done.
      intros j x Hj. apply lookup_app_Some in Hj as [Hj|[_ Hj]].
      * by apply (Hle j).
      * apply list_lookup_singleton_Some in Hj as [_ ->]. lra.
Qed.

(** X6: [np.argmax] on a non-empty row is the first index of the maximum:
    the entry there is [np.max], no entry is larger, and every earlier
    entry is strictly smaller; on the empty row both raise. *)
Theorem argmax_is_first_maximum (a : list R) :
  match np_argmax a with
  | Ok i =>
      ∃ m, np_max a = Ok m ∧ a !! i = Some m
           ∧ (∀ j x, a !! j = Some x → x <= m)
           ∧ (∀ j x, (j < i)%nat → a !! j = Some x → x < m)
  | Raise _ => a = [] ∧ ∃ e, np_max a = Raise e
  end.
Proof.
  destruct a as [|x a]; cbn [np_argmax]; [split; [done|by eexists]|].
  destruct (argmax_from_first a (x :: a) [x] 0%nat x)
    as (m & Hm & Hle & Hlt); try done.
  - intros [|j] y Hj; [|done]. injection Hj as <-. lra.
  - intros j y Hj. lia.
  - exists m. split_and!; try done.
    cbn [np_max]. f_equal.
    pose proof (argmax_from_spec a (x :: a) [x] 0%nat x eq_refl eq_refl) as H.
    cbn [length] in H, Hm. congruence.
Qed.

(** *** The entropy of a probability distribution *)

Lemma ln_le_minus_1 (x : R) : 0 < x → ln x <= x - 1.
Proof.
  intros Hx. pose proof (exp_ineq1_le (ln x)) as H.
  rewrite exp_ln in H by done. lra.
Qed.

(** Gibbs' inequality, for one term and any reference value [c]. *)
Lemma neg_xlnx_gibbs (q c : R) :
  0 < q → 0 < c → - (q * ln q) <= - (q * ln c) + (c - q).
Proof.
  intros Hq Hc.
  pose proof (ln_le_minus_1 (c / q) ltac:(by apply Rdiv_lt_0_compat)) as H.
  unfold Rdiv in H. rewrite ln_mult, ln_Rinv in H
    by (try apply Rinv_0_lt_compat; lra).
  assert (Hinv : q * / q = 1) by (apply Rinv_r; lra).
  assert (Hq2 : q * (ln c + - ln q) <= q * (c * / q - 1)) by nra.
  nra.
Qed.

Lemma entropy_gibbs (probs : list R) (c : R) :
  Forall (λ p, 0 <= p) probs → 0 < c →
  _calculate_entropy_threshold probs
  <= - ((Rsum probs + INR (length probs) * 1e-10) * ln c)
     + (INR (length probs) * c - (Rsum probs + INR (length probs) * 1e-10)).
Proof.
  intros Hp Hc. unfold _calculate_entropy_threshold.
  induction Hp as [|p probs Hp0 Hp IH].
  - cbn. lra.
  - rewrite length_cons, S_INR. cbn [fmap list_fmap Rsum foldr] in *.
    unfold Rsum in IH.
    pose proof (neg_xlnx_gibbs (p + 1e-10) c ltac:(lra) Hc). lra.
Qed.

Lemma ln_12_upper : ln 12 <= 2.49.
Proof.
  rewrite <- (ln_exp 2.49). apply ln_monotone; [lra|]. apply exp_2_49_lower.
Qed.

(** X7: for a classifier with at most 12 outputs, the entropy of any
    probability distribution (no negative entry, sum one) is at most 2.5:
    the entropy condition of the rejection policy cannot hold. *)
Theorem small_models_never_entropy_rejected (probs : list R) :
  Forall (λ p, 0 <= p) probs →
  Rsum probs = 1 →
  (length probs ≤ 12)%nat →
  _calculate_entropy_threshold probs <= 2.5.
Proof.
  intros Hp Hsum Hlen.
  destruct probs as [|p0 probs']; [cbn in Hsum; lra|].
  set (probs := p0 :: probs') in *.
  set (n := INR (length probs)).
  assert (Hn1 : 1 <= n).
  { unfold n, probs. rewrite length_cons, S_INR.
    pose proof (pos_INR (length probs')). lra. }
  assert (Hn12 : n <= 12).
  { unfold n. pose proof (INR_ge_const _ 12 Hlen) as H.
    by change (Z.of_nat 12) with 12%Z in H. }
  set (S := 1 + n * 1e-10).
  assert (HS : 1 <= S) by (unfold S; nra).
  pose proof (entropy_gibbs probs (S / n) Hp
                ltac:(apply Rdiv_lt_0_compat; lra)) as H.
  rewrite Hsum in H. fold n in H. fold S in H.
  replace (n * (S / n) - S) with 0 in H by (field; lra).
  unfold Rdiv in H. rewrite ln_mult, ln_Rinv in H
    by (try apply Rinv_0_lt_compat; lra).
  assert (HlnS : 0 <= ln S).
  { rewrite <- ln_1. apply ln_monotone; lra. }
  assert (Hlnn : 0 <= ln n <= 2.49).
  { split.
    - rewrite <- ln_1. apply ln_monotone; lra.
    - etrans; [|apply ln_12_upper]. apply ln_monotone; lra. }
  assert (S <= 1 + 12 * 1e-10) by (unfold S; lra).
  nra.
Qed.

Lemma small_models_never_entropy_rejected_witness :
  _calculate_entropy_threshold plain_probs <= 2.5.
Proof.
  apply (small_models_never_entropy_rejected plain_probs).
  - apply plain_probs_nonneg.
  - unfold plain_probs. cbn. lra.
  - cbn. lia.
Defined.

End Inference.

(** ** The cache and the files of a model *)

Section Artifacts.
Import MLService Spec.

Lemma store_elsewhere self model_id c :
  same_elsewhere model_id self (store self model_id c).
Proof.
  intros other Hne. unfold store. cbn. by rewrite !lookup_insert_ne.
Qed.

Lemma same_elsewhere_refl self model_id : same_elsewhere model_id self self.
Proof. by intros other Hne. Qed.

Lemma predict_state self fs model_id data :
  (predict self fs model_id data).2 = (get_components self fs model_id).2.
Proof.
  unfold predict. destruct (get_components self fs model_id) as [l s].
  cbn. by destruct (l ≫= _).
Qed.

Lemma get_components_elsewhere self fs model_id :
  same_elsewhere model_id self (get_components self fs model_id).2.
Proof.
  unfold get_components.
  destruct (models self !! model_id), (label_encoders self !! model_id),
    (scalers self !! model_id), (load_from_disk fs model_id);
    cbn; (apply same_elsewhere_refl || apply store_elsewhere).
Qed.

Lemma get_components_cached self fs model_id c self' :
  get_components self fs model_id = (Ok c, self') →
  ∀ fs', get_components self' fs' model_id = (Ok c, self').
Proof.
  unfold get_components. intros H fs'.
  destruct (models self !! model_id) as [model|] eqn:Hm;
    [destruct (label_encoders self !! model_id) as [classes|] eqn:Hl;
     [destruct (scalers self !! model_id) as [scaler|] eqn:Hs|]|].
  - injection H as <- <-. by rewrite Hm, Hl, Hs.
  - destruct (load_from_disk fs model_id) as [c'|]; [|done].
    injection H as <- <-. cbn. rewrite !lookup_insert_eq. by destruct c'.
  - destruct (load_from_disk fs model_id) as [c'|]; [|done].
    injection H as <- <-. cbn. rewrite !lookup_insert_eq. by destruct c'.
  - destruct (load_from_disk fs model_id) as [c'|]; [|done].
    injection H as <- <-. cbn. rewrite !lookup_insert_eq. by destruct c'.
Qed.

(** X8: once [predict] has loaded a model, the model is served from
    memory: later calls give the same answer whatever the files of the
    model have become, and leave the cache as it is. *)
Theorem loaded_model_ignores_disk self fs model_id data c :
  (get_components self fs model_id).1 = Ok c →
  let self' := (predict self fs model_id data).2 in
  ∀ fs1 fs2 data',
    (get_components self' fs1 model_id).1 = Ok c
    ∧ predict self' fs1 model_id data' = predict self' fs2 model_id data'
    ∧ (predict self' fs1 model_id data').2 = self'.
Proof.
  intros Hc. cbn zeta. intros fs1 fs2 data'.
  rewrite predict_state.
  destruct (get_components self fs model_id) as [loaded self'] eqn:Hg.
  cbn in Hc. subst loaded. cbn [snd].
  pose proof (get_components_cached _ _ _ _ _ Hg) as Hcached.
  split_and!.
  - by rewrite Hcached.
  - unfold predict. by rewrite (Hcached fs1), (Hcached fs2).
  - unfold predict. rewrite (Hcached fs1). by destruct (_ ≫= _).
Qed.

Lemma loaded_model_ignores_disk_witness :
  (get_components (predict plain_service ∅ "m" ∅).2 ∅ "m").1
  = Ok (constant_components plain_classes plain_probs).
Proof.
  apply (loaded_model_ignores_disk plain_service ∅ "m" ∅
           (constant_components plain_classes plain_probs)
           (constant_components_loaded _ _) ∅ ∅ ∅).
Defined.

(** X9: [predict] and [train_model] for one model identifier leave the
    components that the service has cached under every other identifier
    as they were, whether the call returns or raises. *)
Theorem other_models_untouched self (fs : disk) model_id data env :
  same_elsewhere model_id self (predict self fs model_id data).2
  ∧ same_elsewhere model_id self (train_model self fs model_id env).1.2.
Proof.
  split.
  - rewrite predict_state. apply get_components_elsewhere.
  - unfold train_model, persist.
    destruct (prepared env) as [f|]; [|apply same_elsewhere_refl].
    destruct (makedirs env), (save_model env), (dump_label_json env),
      (final_metrics env f); cbn;
      (apply same_elsewhere_refl || apply store_elsewhere).
Qed.

(** The directory of the model after a run whose critical steps succeed. *)
Lemma trained_directory self (fs : disk) model_id env f m :
  prepared env = Ok f → makedirs env = None → save_model env = None →
  dump_label_json env = None → final_metrics env f = Ok m →
  ∃ dir,
    (train_model self fs model_id env).2 !! model_id = Some dir
    ∧ model_h5 dir = Some (Ok (f_model f))
    ∧ label_encoder_json dir = Some (Ok (f_label_encoder f))
    ∧ label_encoder_pkl dir
      = written (dump_label_encoder env)
          (label_encoder_pkl (default empty_dir (fs !! model_id)))
          (f_label_encoder f)
    ∧ scaler_pkl dir
      = written (dump_scaler env)
          (scaler_pkl (default empty_dir (fs !! model_id))) (f_scaler f)
    ∧ validator_pkl dir
      = written (dump_validator env)
          (validator_pkl (default empty_dir (fs !! model_id)))
          (f_gesture_validator f)
    ∧ metrics_json dir
      = written (dump_metrics env)
          (metrics_json (default empty_dir (fs !! model_id))) m.
Proof.
  intros Hp Hd Hs Hj Hm. unfold train_model, persist.
  rewrite Hp, Hd, Hs, Hj, Hm. cbn. rewrite lookup_insert_eq.
  eexists. split; [done|]. done.
Qed.

Lemma train_model_returns self fs model_id env m :
  (train_model self fs model_id env).1.1 = Ok m →
  ∃ f, prepared env = Ok f ∧ makedirs env = None ∧ save_model env = None
       ∧ dump_label_json env = None ∧ final_metrics env f = Ok m.
Proof.
  unfold train_model, persist.
  destruct (prepared env) as [f|]; [|done].
  destruct (makedirs env); [done|]. destruct (save_model env); [done|].
  destruct (dump_label_json env); [done|].
  destruct (final_metrics env f) as [m'|] eqn:Hm; [|done].
  cbn. intros [= ->]. by exists f.
Qed.

Lemma get_components_init (fs : disk) model_id :
  (get_components init fs model_id).1 = load_from_disk fs model_id.
Proof.
  unfold get_components. cbn [init models]. rewrite lookup_empty.
  by destruct (load_from_disk fs model_id).
Qed.

(** X10: training and loading round-trip: when every step of a training
    run succeeds, what a service reads back from the directory of the
    model is exactly the trained classifier, class list, scaler and
    validator, whatever the directory held before, and the metrics file
    holds the returned metrics. *)
Theorem trained_artifact_round_trip self (fs : disk) model_id f m
    predictions report :
  final_metrics (flawless_run f predictions report) f = Ok m →
  let out := train_model self fs model_id (flawless_run f predictions report) in
  out.1.1 = Ok m
  ∧ load_from_disk out.2 model_id = Ok (trained_components f)
  ∧ (get_components init out.2 model_id).1 = Ok (trained_components f)
  ∧ (metrics_json <$> out.2 !! model_id) = Some (Some (Ok m)).
Proof.
  intros Hm. cbn zeta.
  destruct (trained_directory self fs model_id
              (flawless_run f predictions report) f m)
    as (dir & Hdir & Hh5 & Hjson & Hpkl & Hsc & Hval & Hmet); try done.
  assert (Hload : load_from_disk (train_model self fs model_id
                                    (flawless_run f predictions report)).2
                                 model_id
                  = Ok (trained_components f)).
  { unfold load_from_disk. rewrite Hdir, Hh5, Hpkl, Hsc, Hval. done. }
  split_and!.
  - by rewrite (train_model_succeeds self fs model_id _ f m).
  - done.
  - by rewrite get_components_init.
  - rewrite Hdir. cbn [fmap option_fmap option_map]. by rewrite Hmet.
Qed.

Lemma trained_artifact_round_trip_witness :
  load_from_disk
    (train_model init ∅ "m" (flawless_run sample_fitted (Ok []) report_raises)).2
    "m"
  = Ok (trained_components sample_fitted).
Proof.
  apply (trained_artifact_round_trip init ∅ "m" sample_fitted sample_metrics
           (Ok []) report_raises).
  reflexivity.
Defined.

(** X11: after a training run that returns, a service that starts with an
    empty cache can always load the model, and gets the new classifier;
    it gets the new class list unless the pickle of the label encoder
    could not be opened for writing and an older readable one is still
    there, in which case it gets the older class list. *)
Theorem trained_artifact_is_loadable self (fs : disk) model_id env m :
  (train_model self fs model_id env).1.1 = Ok m →
  ∃ f c,
    prepared env = Ok f
    ∧ load_from_disk (train_model self fs model_id env).2 model_id = Ok c
    ∧ c_model c = f_model f
    ∧ match dump_label_encoder env,
            label_encoder_pkl (default empty_dir (fs !! model_id)) with
      | Some (OpenFails _), Some (Ok stale) => c_class_names c = stale
      | _, _ => c_class_names c = f_label_encoder f
      end.
Proof.
  intros Hok.
  destruct (train_model_returns _ _ _ _ _ Hok) as (f & Hp & Hd & Hs & Hj & Hm).
  destruct (trained_directory self fs model_id env f m)
    as (dir & Hdir & Hh5 & Hjson & Hpkl & Hsc & Hval & Hmet); try done.
  exists f. unfold load_from_disk. rewrite Hdir, Hh5, Hpkl, Hjson.
  destruct (dump_label_encoder env) as [[e|e r]|]; cbn [written];
    destruct (label_encoder_pkl (default empty_dir (fs !! model_id)))
      as [[stale|e']|]; cbn; by eexists.
Qed.

Lemma trained_artifact_is_loadable_witness :
  ∃ f c,
    prepared scaler_write_fails = Ok f
    ∧ load_from_disk (train_model init ∅ "m" scaler_write_fails).2 "m" = Ok c
    ∧ c_model c = f_model f
    ∧ c_class_names c = f_label_encoder f.
Proof.
  destruct (trained_artifact_is_loadable init ∅ "m" scaler_write_fails
              sample_metrics) as (f & c & H1 & H2 & H3 & H4).
  - by rewrite (train_model_succeeds init ∅ "m" scaler_write_fails
                  sample_fitted sample_metrics).
  - exists f, c. split_and!; try done.
Defined.

End Artifacts.

(** ** Practice: similarity, match and history *)

Section Practice.
Import LearningService Spec.
Local Open Scope R_scope.

Lemma mapM_same_outcome {A B} (f g : A → result B) (l : list A) :
  (∀ x, same_outcome (f x) (g x)) → same_outcome (mapM f l) (mapM g l).
Proof.
  intros H. induction l as [|x l IH]; [done|]. cbn [mapM].
  specialize (H x). destruct (f x), (g x); try done. cbn in H. subst.
  cbn. destruct (mapM f l), (mapM g l); try done. cbn in IH. by subst.
Qed.

Lemma point_distance_sym (lm1 lm2 : landmark) :
  same_outcome (point_distance lm1 lm2) (point_distance lm2 lm1).
Proof.
  unfold point_distance, getitem.
  destruct (lm1 !! "x"), (lm2 !! "x"), (lm1 !! "y"), (lm2 !! "y"),
    (lm1 !! "z"), (lm2 !! "z"); cbn; try done.
  f_equal. ring.
Qed.

(** X12: the similarity of two landmark lists does not depend on their
    order, also when a list has not 21 entries or a point lacks a
    coordinate (both orders then give 0). *)
Theorem landmark_similarity_symmetric (landmarks1 landmarks2 : list landmark) :
  _compute_landmark_similarity landmarks1 landmarks2
  = _compute_landmark_similarity landmarks2 landmarks1.
Proof.
  unfold _compute_landmark_similarity.
  rewrite (bool_decide_ext
             (length landmarks1 ≠ 21%nat ∨ length landmarks2 ≠ 21%nat)
             (length landmarks2 ≠ 21%nat ∨ length landmarks1 ≠ 21%nat))
    by tauto.
  case_bool_decide; [done|].
  pose proof (mapM_same_outcome
    (λ i : nat, lm1 ← item landmarks1 i; lm2 ← item landmarks2 i;
                point_distance lm1 lm2)
    (λ i : nat, lm1 ← item landmarks2 i; lm2 ← item landmarks1 i;
                point_distance lm1 lm2)
    (seq 0 21)) as Hall.
  assert (Hs : same_outcome
    (mapM (λ i : nat, lm1 ← item landmarks1 i; lm2 ← item landmarks2 i;
                      point_distance lm1 lm2) (seq 0 21))
    (mapM (λ i : nat, lm1 ← item landmarks2 i; lm2 ← item landmarks1 i;
                      point_distance lm1 lm2) (seq 0 21))).
  { apply Hall. intros i. destruct (item landmarks1 i), (item landmarks2 i);
      cbn; try done. apply point_distance_sym. }
  destruct (mapM _ (seq 0 21)) as [d1|], (mapM _ (seq 0 21)) as [d2|];
    cbn in Hs; try done. by subst.
Qed.

(** X13: every comparison result, the error result included, has a
    similarity between 0 and 1 and one of the five quality tiers, and the
    tier is "error" exactly for the error result. *)
Theorem comparison_result_in_range self fs db now model_id landmarks target :
  let r := (compare_with_target self fs db now model_id landmarks target).1 in
  0 <= similarity r <= 1
  ∧ detectionQuality r ∈ quality_tiers
  ∧ (detectionQuality r = "error"
     ↔ ∃ e, (compare_body self fs db now model_id landmarks target).1 = Raise e).
Proof.
  cbn zeta. unfold compare_with_target.
  destruct (compare_body self fs db now model_id landmarks target)
    as [[r|e] self'] eqn:Hb; cbn [fst].
  - unfold compare_body in Hb.
    destruct (MLService.predict _ _ _ _) as [[pr|] ml]; [|done].
    destruct (_calculate_similarity_score db landmarks target model_id)
      as [score|] eqn:Hs; [|done].
    injection Hb as <- _. cbn.
    pose proof (detection_quality_tier landmarks (MLService.confidence pr)) as Hq.
    cbn zeta in Hq.
    split; [by apply (similarity_score_bounds _ _ _ _ _ Hs)|]. split.
    + destruct Hq as [->|[->|[->| ->]]]; unfold quality_tiers; compute_done.
    + split; [|by intros [e He]]. intros Hq'. rewrite Hq' in Hq.
      by destruct Hq as [?|[?|[?|?]]].
  - cbn. split; [lra|]. split; [unfold quality_tiers; compute_done|].
    split; [by eexists | done].
Qed.

Lemma self_similarity (landmarks : list landmark) :
  length landmarks = 21%nat → Forall numeric_xyz landmarks →
  _compute_landmark_similarity landmarks landmarks = 1.
Proof.
  intros Hlen Hn. unfold _compute_landmark_similarity.
  rewrite bool_decide_eq_false_2 by (intros [?|?]; congruence).
  pose proof (distances_numeric landmarks landmarks eq_refl Hn Hn) as Hd.
  rewrite Hlen in Hd. rewrite Hd. cbn [mbind result_bind mret result_ret].
  unfold avg_distance. rewrite Rsum_distance_self.
  unfold Rmax, Rmin, Rdiv. repeat destruct (Rle_dec _ _); lra.
Qed.

Lemma best_similarity_ge user (samples : list dataset) (start : R) :
  let best := foldl (λ max_similarity sample,
                match d_landmarks sample with
                | Ok ref_landmarks =>
                    Rmax max_similarity
                      (_compute_landmark_similarity user ref_landmarks)
                | Raise _ => max_similarity
                end) start samples in
  start <= best
  ∧ ∀ sample ref, sample ∈ samples → d_landmarks sample = Ok ref →
      _compute_landmark_similarity user ref <= best.
Proof.
  cbn zeta. revert start.
  induction samples as [|s samples IH]; intros start.
  - cbn. split; [lra|]. intros sample ref H. by apply elem_of_nil in H.
  - cbn [foldl]. destruct (d_landmarks s) as [ref0|e0] eqn:Hd.
    + destruct (IH (Rmax start (_compute_landmark_similarity user ref0)))
        as [Hst Hall].
      split.
      * eapply Rle_trans; [apply Rmax_l | apply Hst].
      * intros sample ref Hin Href. apply elem_of_cons in Hin as [->|Hin].
        -- assert (ref = ref0) as -> by congruence.
           eapply Rle_trans; [apply Rmax_r | apply Hst].
        -- by apply (Hall sample).
    + destruct (IH start) as [Hst Hall]. split; [done|].
      intros sample ref Hin Href. apply elem_of_cons in Hin as [->|Hin].
      * congruence.
      * by apply (Hall sample).
Qed.

(** X14: when one of the first five reference samples of the target label
    has exactly the landmarks of the user (21 numeric points), the
    similarity score is 1. *)
Theorem identical_reference_scores_one db user target model_id rows sample :
  session_local db = None → close db = None →
  query_datasets db model_id target = Ok rows →
  sample ∈ take 5 rows →
  d_landmarks sample = Ok user →
  length user = 21%nat → Forall numeric_xyz user →
  _calculate_similarity_score db user target model_id = Ok 1.
Proof.
  intros Hs Hc Hq Hin Hl Hlen Hnum.
  pose proof (similarity_score_bounds db user target model_id) as Hb.
  unfold _calculate_similarity_score in *. rewrite Hs, Hc, Hq in *.
  destruct (take 5 rows) as [|s l] eqn:Ht; [by apply elem_of_nil in Hin|].
  f_equal. specialize (Hb _ eq_refl).
  destruct (best_similarity_ge user (s :: l) 0.0) as [_ Hge].
  specialize (Hge sample user Hin Hl).
  rewrite (self_similarity user Hlen Hnum) in Hge. lra.
Qed.

Lemma identical_reference_scores_one_witness :
  _calculate_similarity_score
    {| session_local := None;
       query_datasets := λ _ _,
         Ok [{| d_label := "A"; d_landmarks := Ok open_hand |}];
       close := None |}
    open_hand "A" "m" = Ok 1.
Proof.
  apply (identical_reference_scores_one _ open_hand "A" "m"
           [{| d_label := "A"; d_landmarks := Ok open_hand |}]
           {| d_label := "A"; d_landmarks := Ok open_hand |});
    try reflexivity.
  - cbn. by left.
  - unfold open_hand, numeric_xyz, point.
    repeat constructor; eexists; by simplify_map_eq.
Defined.

(** X15: a comparison result reports a match only for the target label
    itself, predicted with confidence at least 0.75, and its feedback is
    then one of the three messages for a match: the fourth message of the
    match branch of [_generate_advanced_feedback] never appears. *)
Theorem match_needs_target_and_confidence self fs db now model_id landmarks
    target :
  let r := (compare_with_target self fs db now model_id landmarks target).1 in
  isMatch r = true →
  prediction r = target ∧ 0.75 <= confidence r ∧ feedback r ∈ match_messages.
Proof.
  cbn zeta. unfold compare_with_target.
  destruct (compare_body self fs db now model_id landmarks target)
    as [[r|e] self'] eqn:Hb; cbn [fst]; [|done].
  unfold compare_body in Hb.
  destruct (MLService.predict _ _ _ _) as [[pr|] ml]; [|done].
  destruct (_calculate_similarity_score db landmarks target model_id);
    [|done].
  injection Hb as <- _. cbn. unfold _evaluate_match.
  case_bool_decide as Hp; [done|]. case_bool_decide as Hc; [|done].
  intros _. split; [by destruct (decide (MLService.prediction pr = target))|].
  split; [done|].
  unfold _generate_advanced_feedback, match_messages.
  repeat case_bool_decide; try lra; compute_done.
Qed.

Lemma match_needs_target_and_confidence_witness :
  let r := (compare_with_target practice_service ∅ no_samples
              "2024-01-01T00:00:00" "m" open_hand "A").1 in
  prediction r = "A" ∧ 0.75 <= confidence r ∧ feedback r ∈ match_messages.
Proof.
  apply (match_needs_target_and_confidence practice_service ∅ no_samples
           "2024-01-01T00:00:00" "m" open_hand "A").
  by rewrite (practice_comparison no_samples eq_refl).
Defined.

Lemma last50_bounded {A} (l : list A) :
  (length l ≤ 51)%nat → (length (last50 l) ≤ 50)%nat.
Proof. intros H. unfold last50. rewrite length_drop. lia. Qed.

Lemma last50_last {A} (l : list A) (x : A) : last (last50 (l ++ [x])) = Some x.
Proof.
  unfold last50. rewrite length_app. cbn [length].
  rewrite drop_app_le by lia. apply last_snoc.
Qed.

Lemma update_session_cache_bounded cache model_id target r :
  (∀ key h, cache !! key = Some h → (length h ≤ 50)%nat) →
  ∀ key h,
    _update_session_cache cache model_id target r !! key = Some h →
    (length h ≤ 50)%nat.
Proof.
  intros Hb key h. unfold _update_session_cache.
  destruct (decide (key = model_id +:+ "_" +:+ target)) as [->|Hne].
  - rewrite lookup_insert_eq. intros [= <-].
    assert (Hold : (length (default [] (cache !! (model_id +:+ "_" +:+ target)))
                    ≤ 50)%nat).
    { destruct (cache !! _) as [old|] eqn:E; cbn; [by apply (Hb _ _ E) | lia]. }
    case_bool_decide as Hlen.
    + apply last50_bounded. rewrite length_app. cbn. lia.
    + lia.
  - rewrite lookup_insert_ne by done. apply Hb.
Qed.

Lemma comparison_history_stored self fs db now model_id landmarks target r :
  (compare_body self fs db now model_id landmarks target).1 = Ok r →
  ∃ history,
    comparison_cache
      (compare_with_target self fs db now model_id landmarks target).2
    !! (model_id +:+ "_" +:+ target) = Some history
    ∧ last history = Some r.
Proof.
  unfold compare_with_target, compare_body.
  destruct (MLService.predict _ _ _ _) as [[pr|e] ml]; cbn; [|done].
  destruct (_calculate_similarity_score db landmarks target model_id)
    as [score|e]; cbn; [|done].
  intros [= <-]. unfold _update_session_cache. rewrite lookup_insert_eq.
  eexists. split; [done|]. case_bool_decide.
  - apply last50_last.
  - apply last_snoc.
Qed.

(** X16: the comparison history stays bounded and current: if no stored
    history is longer than 50 entries before [compare_with_target], none
    is afterwards; after a comparison whose [try] block ends normally the
    returned result is the last entry of the history of the model and
    target label; and after one that ends in the error result the
    histories are what they were. *)
Theorem comparison_history_bounded self fs db now model_id landmarks target :
  let out := compare_with_target self fs db now model_id landmarks target in
  (histories_bounded self → histories_bounded out.2)
  ∧ (∀ r, (compare_body self fs db now model_id landmarks target).1 = Ok r →
       ∃ history,
         comparison_cache out.2 !! (model_id +:+ "_" +:+ target)
         = Some history
         ∧ last history = Some out.1)
  ∧ (∀ e, (compare_body self fs db now model_id landmarks target).1 = Raise e →
       comparison_cache out.2 = comparison_cache self).
Proof.
  cbn zeta. unfold compare_with_target, compare_body.
  destruct (MLService.predict _ _ _ _) as [[pr|e] ml]; cbn.
  - destruct (_calculate_similarity_score db landmarks target model_id)
      as [score|e]; cbn.
    + split_and!.
      * intros Hb key h. apply update_session_cache_bounded. apply Hb.
      * intros r _. unfold _update_session_cache. rewrite lookup_insert_eq.
        eexists. split; [done|]. case_bool_decide.
        -- apply last50_last.
        -- apply last_snoc.
      * done.
    + split_and!; [done | done | done].
  - split_and!; [done | done | done].
Qed.

Lemma comparison_history_bounded_witness :
  histories_bounded
    (compare_with_target practice_service ∅ no_samples "2024-01-01T00:00:00"
       "m" open_hand "A").2.
Proof.
  apply (comparison_history_bounded practice_service ∅ no_samples
           "2024-01-01T00:00:00" "m" open_hand "A").
  intros key history H. cbn in H. by rewrite lookup_empty in H.
Defined.

End Practice.

(** ** Progress: counters, averages and keys *)

Section Progress.
Import LearningService Spec.

#[local] Instance targets_dec label c : Decision (targets label c).
Proof. unfold targets. apply _. Defined.
#[local] Instance correct_dec c : Decision (correct c).
Proof. unfold correct. apply _. Defined.

Lemma Rsum_app (l1 l2 : list R) : Rsum (l1 ++ l2) = (Rsum l1 + Rsum l2)%R.
Proof.
  unfold Rsum. induction l1 as [|x l1 IH]; cbn; [lra|]. rewrite IH. lra.
Qed.

Lemma current_stats_now self now now' key :
  totalAttempts (current_stats self now key)
  = totalAttempts (current_stats self now' key)
  ∧ correctAttempts (current_stats self now key)
    = correctAttempts (current_stats self now' key)
  ∧ totalConfidence (current_stats self now key)
    = totalConfidence (current_stats self now' key)
  ∧ labelProgress (current_stats self now key)
    = labelProgress (current_stats self now' key).
Proof. unfold current_stats. by destruct (session_stats self !! key). Qed.

(** The counters of a session after a sequence of attempts of that
    session. *)
Lemma counters_after_calls self model_id user_id (calls : list call) now :
  session_calls model_id user_id calls →
  let key := session_key model_id user_id in
  let before := current_stats self now key in
  let after := current_stats (after_calls self calls) now key in
  totalAttempts after = (totalAttempts before + Z.of_nat (length calls))%Z
  ∧ correctAttempts after
    = (correctAttempts before + Z.of_nat (length (filter correct calls)))%Z
  ∧ totalConfidence after
    = (totalConfidence before + Rsum (confidence_of <$> calls))%R.
Proof.
  intros Hcalls. cbn zeta.
  induction calls as [|c calls IH] using rev_ind.
  - cbn. split_and!; (lia || lra).
  - apply Forall_app in Hcalls as [Hcalls Hc].
    apply Forall_singleton in Hc as [Hm Hu].
    destruct (IH Hcalls) as (IH1 & IH2 & IH3).
    rewrite after_calls_snoc, Hm, Hu, update_progress_current.
    destruct (current_stats_now (after_calls self calls) (at_time c) now
                (session_key model_id user_id)) as (E1 & E2 & E3 & _).
    unfold record_attempt. cbn [totalAttempts correctAttempts totalConfidence].
    rewrite E1, E2, E3, IH1, IH2, IH3.
    rewrite filter_app, !length_app, fmap_app. cbn [length].
    rewrite Rsum_app. cbn [fmap list_fmap].
    replace (default 0.0%R (pd_confidence (attempt c))) with (confidence_of c)
      by (unfold confidence_of; destruct (pd_confidence (attempt c)); cbn; lra).
    replace (Rsum [confidence_of c]) with (confidence_of c) by (cbn; lra).
    split_and!; [lia | | lra].
    rewrite filter_cons, filter_nil.
    destruct (is_correct (attempt c)) eqn:Hcor.
    + rewrite decide_True by done. cbn [length]. lia.
    + rewrite decide_False by (unfold correct; congruence). cbn [length]. lia.
Qed.

(** X17: the session counters count: from a new session key, after a
    sequence of attempts of that session the stored totalAttempts is the
    number of attempts, correctAttempts the number of correct ones, and
    totalConfidence the sum of the reported confidences, so that the
    averageConfidence returned by [get_session_stats] is their mean. *)
Theorem session_counters_count self model_id user_id (calls : list call) :
  session_stats self !! session_key model_id user_id = None →
  session_calls model_id user_id calls →
  calls ≠ [] →
  ∃ st,
    session_stats (after_calls self calls) !! session_key model_id user_id
    = Some st
    ∧ totalAttempts st = Z.of_nat (length calls)
    ∧ correctAttempts st = Z.of_nat (length (filter correct calls))
    ∧ totalConfidence st = Rsum (confidence_of <$> calls)
    ∧ (user_id ≠ "" →
       v_averageConfidence
         (get_session_stats (after_calls self calls) model_id (Some user_id))
       = (Rsum (confidence_of <$> calls) / INR (length calls))%R).
Proof.
  intros Hfresh Hcalls Hne.
  destruct (counters_after_calls self model_id user_id calls "" Hcalls)
    as (H1 & H2 & H3).
  unfold current_stats in H1, H2, H3. rewrite Hfresh in H1, H2, H3.
  cbn [from_option fresh_stats totalAttempts correctAttempts totalConfidence]
    in H1, H2, H3.
  destruct (session_stats (after_calls self calls)
            !! session_key model_id user_id) as [st|] eqn:Hst.
  - cbn in H1, H2, H3. exists st. split_and!; try done; try lia; try lra.
    intros Hu. unfold get_session_stats, truthy.
    rewrite bool_decide_eq_true_2 by done.
    fold (session_key model_id user_id). rewrite Hst. cbn.
    rewrite H1, H3. replace (0 + Z.of_nat (length calls))%Z
      with (Z.of_nat (length calls)) by lia.
    rewrite Z.max_l by (destruct calls; [done | cbn; lia]).
    rewrite <- INR_IZR_INZ. f_equal. lra.
  - exfalso. destruct calls as [|c calls' _] using rev_ind; [done|].
    apply Forall_app in Hcalls as [_ Hc].
    apply Forall_singleton in Hc as [Hm Hu].
    rewrite after_calls_snoc, Hm, Hu, update_progress_stored in Hst. done.
Qed.

Lemma session_counters_count_witness :
  ∃ st,
    session_stats (after_calls init [attempt_of true; attempt_of false])
    !! session_key "m" "u" = Some st
    ∧ totalAttempts st = 2%Z
    ∧ correctAttempts st = 1%Z.
Proof.
  destruct (session_counters_count init "m" "u"
              [attempt_of true; attempt_of false])
    as (st & H1 & H2 & H3 & _).
  - reflexivity.
  - repeat constructor.
  - discriminate.
  - exists st. split_and!; [exact H1 | exact H2 | exact H3].
Defined.

Lemma record_attempt_counters_ok now pd st :
  counters_ok st → counters_ok (record_attempt now pd st).
Proof.
  unfold counters_ok, record_attempt. cbn.
  destruct (is_correct pd); lia.
Qed.

Lemma after_calls_counters_ok self calls :
  (∀ key st, session_stats self !! key = Some st → counters_ok st) →
  ∀ key st,
    session_stats (after_calls self calls) !! key = Some st → counters_ok st.
Proof.
  intros Hinv. induction calls as [|c calls IH] using rev_ind; [done|].
  rewrite after_calls_snoc. intros key st.
  destruct (decide (key = session_key (for_model c) (for_user c))) as [->|Hne].
  - rewrite update_progress_stored. intros [= <-].
    apply record_attempt_counters_ok. unfold current_stats.
    destruct (session_stats (after_calls self calls) !! _) as [old|] eqn:E.
    + by apply (IH _ _ E).
    + unfold counters_ok. cbn. lia.
  - rewrite update_progress_other by done. apply IH.
Qed.

(** X18: the success rate is a percentage: when the stored counters
    satisfy 0 <= correctAttempts <= totalAttempts (as in a new service),
    then after any sequence of calls of [update_progress] the statistics
    that [get_session_stats] returns for any key have
    0 <= correctAttempts <= totalAttempts and 0 <= successRate <= 100. *)
Theorem success_rate_is_percentage self (calls : list call) model_id session_id :
  (∀ key st, session_stats self !! key = Some st → counters_ok st) →
  let view := get_session_stats (after_calls self calls) model_id session_id in
  (0 ≤ v_correctAttempts view ≤ v_totalAttempts view)%Z
  ∧ (0 <= v_successRate view <= 100)%R.
Proof.
  intros Hinv. cbn zeta. unfold get_session_stats.
  set (key := match session_id with
              | Some sid => if truthy sid then model_id +:+ "_" +:+ sid
                            else model_id
              | None => model_id end).
  destruct (session_stats (after_calls self calls) !! key) as [st|] eqn:Hst.
  - pose proof (after_calls_counters_ok self calls Hinv key st Hst) as Hok.
    unfold counters_ok in Hok. cbn. split; [done|].
    set (c := correctAttempts st) in *. set (t := totalAttempts st) in *.
    assert (Ht : (1 <= IZR (Z.max t 1))%R) by (apply IZR_le; lia).
    assert (Hc0 : (0 <= IZR c)%R) by (apply IZR_le; lia).
    assert (Hct : (IZR c <= IZR (Z.max t 1))%R) by (apply IZR_le; lia).
    assert (Hq : (0 <= IZR c / IZR (Z.max t 1) <= 1)%R).
    { split.
      - apply Rmult_le_pos; [done|]. left. apply Rinv_0_lt_compat. lra.
      - apply Rmult_le_reg_r with (IZR (Z.max t 1)); [lra|].
        unfold Rdiv. rewrite Rmult_assoc, Rinv_l by lra. lra. }
    lra.
  - cbn. split; [lia | lra].
Qed.

Lemma success_rate_is_percentage_witness :
  let view := get_session_stats
                (after_calls init [attempt_of true; attempt_of false])
                "m" (Some "u") in
  (0 ≤ v_correctAttempts view ≤ v_totalAttempts view)%Z
  ∧ (0 <= v_successRate view <= 100)%R.
Proof.
  apply (success_rate_is_percentage init [attempt_of true; attempt_of false]
           "m" (Some "u")).
  intros key st H. cbn in H. by rewrite lookup_empty in H.
Defined.

(** *** The entries of the labels *)

Lemma record_attempt_label_hit now pd st label :
  pd_targetLabel pd = Some label → label ≠ "" →
  let old := label_entry st label in
  let new := label_entry (record_attempt now pd st) label in
  attempts new = (attempts old + 1)%Z
  ∧ successes new
    = (if is_correct pd then successes old + 1 else successes old)%Z
  ∧ averageConfidence new
    = ((averageConfidence old * IZR (attempts old)
        + default 0 (pd_confidence pd)) / IZR (attempts old + 1))%R.
Proof.
  intros Hl Hne. cbn zeta. unfold label_entry, record_attempt.
  cbn [labelProgress]. rewrite Hl. unfold truthy.
  rewrite bool_decide_eq_true_2 by done. rewrite lookup_insert_eq.
  cbn [from_option id attempts successes averageConfidence].
  split_and!; try done.
  replace (attempts (default fresh_label_stats (labelProgress st !! label))
           + 1 - 1)%Z
    with (attempts (default fresh_label_stats (labelProgress st !! label)))
    by lia.
  unfold id. cbn [averageConfidence].
  replace (default 0.0%R (pd_confidence pd))
    with (default 0%R (pd_confidence pd))
    by (destruct (pd_confidence pd); cbn; lra).
  done.
Qed.

Lemma record_attempt_label_miss now pd st label :
  pd_targetLabel pd ≠ Some label →
  label_entry (record_attempt now pd st) label = label_entry st label.
Proof.
  intros Hl. unfold label_entry, record_attempt. cbn [labelProgress].
  destruct (pd_targetLabel pd) as [l|]; [|done].
  destruct (truthy l); [|done].
  rewrite lookup_insert_ne; [done|]. by intros ->.
Qed.

(** X19: the label entries count: from a new session key, after a
    sequence of attempts of the session, the entry of a non-empty label
    has as attempts the number of attempts at that label and as successes
    the number of correct ones among them, whatever was attempted in
    between; and after a single attempt at the label its
    averageConfidence is the confidence of that attempt. *)
Theorem label_entries_count self model_id user_id (calls : list call)
    now label :
  session_stats self !! session_key model_id user_id = None →
  session_calls model_id user_id calls →
  label ≠ "" →
  let st := current_stats (after_calls self calls) now
                          (session_key model_id user_id) in
  let hits := filter (targets label) calls in
  attempts (label_entry st label) = Z.of_nat (length hits)
  ∧ successes (label_entry st label)
    = Z.of_nat (length (filter correct hits))
  ∧ (∀ c, hits = [c] →
          averageConfidence (label_entry st label) = confidence_of c).
Proof.
  intros Hfresh Hcalls Hne. cbn zeta. revert now.
  induction calls as [|c calls IH] using rev_ind; intros now.
  - unfold current_stats. cbn. rewrite Hfresh. cbn.
    split_and!; [done | done | by intros c [=]].
  - apply Forall_app in Hcalls as [Hcalls Hc].
    apply Forall_singleton in Hc as [Hm Hu].
    destruct (IH Hcalls (at_time c)) as (IH1 & IH2 & IH3).
    rewrite after_calls_snoc, Hm, Hu, update_progress_current.
    rewrite filter_app, filter_cons, filter_nil.
    destruct (decide (targets label c)) as [Ht|Ht].
    + destruct (record_attempt_label_hit (at_time c) (attempt c)
                  (current_stats (after_calls self calls) (at_time c)
                     (session_key model_id user_id)) label Ht Hne)
        as (H1 & H2 & H3).
      rewrite H1, H2, H3, IH1, IH2.
      rewrite filter_app, !length_app. cbn [length].
      rewrite filter_cons, filter_nil.
      split_and!.
      * lia.
      * destruct (decide (correct c)) as [Hd|Hd]; unfold correct in Hd.
        -- rewrite Hd. cbn [length]. lia.
        -- apply not_true_is_false in Hd. rewrite Hd. cbn [length]. lia.
      * intros c' Hhits.
        destruct (filter (targets label) calls) as [|h hits] eqn:Hf.
        -- injection Hhits as <-. unfold confidence_of. cbn [length].
           change (Z.of_nat 0) with 0%Z. change (IZR (0 + 1)) with 1%R. lra.
        -- by destruct hits.
    + rewrite record_attempt_label_miss by done.
      rewrite app_nil_r. apply IH. done.
Qed.

Lemma label_entries_count_witness :
  let st := current_stats (after_calls init [attempt_of true; attempt_of false])
                          "" (session_key "m" "u") in
  attempts (label_entry st "A") = 2%Z.
Proof.
  destruct (label_entries_count init "m" "u"
              [attempt_of true; attempt_of false] "" "A") as (H & _).
  - reflexivity.
  - repeat constructor.
  - discriminate.
  - exact H.
Defined.

(** *** Reset and the session keys *)

Lemma reset_session_stats self model_id user_id :
  session_stats (reset_user_progress self model_id user_id).2
  = delete (session_key model_id user_id) (session_stats self).
Proof.
  unfold reset_user_progress. cbn. case_bool_decide as H; [done|].
  symmetry. apply delete_id. by apply not_elem_of_dom.
Qed.

Lemma reset_comparison_cache self model_id user_id :
  comparison_cache (reset_user_progress self model_id user_id).2
  = delete (session_key model_id user_id) (comparison_cache self).
Proof.
  unfold reset_user_progress. cbn. case_bool_decide as H; [done|].
  symmetry. apply delete_id. by apply not_elem_of_dom.
Qed.

(** X20: a reset starts the session over: after [reset_user_progress] for
    a non-empty user identifier, [get_session_stats] returns the all-zero
    statistics, and the next [update_progress] stores what it would store
    for a session that never existed, whatever was stored before. *)
Theorem reset_starts_over self model_id user_id now pd :
  user_id ≠ "" →
  let self' := (reset_user_progress self model_id user_id).2 in
  get_session_stats self' model_id (Some user_id) = zero_view
  ∧ session_stats (update_progress self' now model_id user_id pd).2
    !! session_key model_id user_id
    = Some (record_attempt now pd (fresh_stats now)).
Proof.
  intros Hne. cbn zeta. split.
  - unfold get_session_stats, truthy. rewrite bool_decide_eq_true_2 by done.
    fold (session_key model_id user_id).
    by rewrite reset_session_stats, lookup_delete_eq.
  - rewrite update_progress_stored. unfold current_stats.
    by rewrite reset_session_stats, lookup_delete_eq.
Qed.

Lemma reset_starts_over_witness :
  session_stats
    (update_progress
       (reset_user_progress
          (after_calls init [attempt_of true]) "m" "u").2
       "2024-01-02T00:00:00" "m" "u" (attempt (attempt_of false))).2
  !! session_key "m" "u"
  = Some (record_attempt "2024-01-02T00:00:00" (attempt (attempt_of false))
            (fresh_stats "2024-01-02T00:00:00")).
Proof.
  apply (reset_starts_over (after_calls init [attempt_of true]) "m" "u"
           "2024-01-02T00:00:00" (attempt (attempt_of false))).
  discriminate.
Defined.

(** X21: with an empty user identifier [update_progress] counts the
    attempt under the key of the model followed by an underscore, but
    returns the statistics stored under the bare model identifier, which
    the call has not touched: the all-zero statistics when none are stored
    there. *)
Theorem empty_user_reports_other_key self now model_id pd :
  let out := update_progress self now model_id "" pd in
  out.1 = get_session_stats self model_id None
  ∧ session_stats out.2 !! (model_id +:+ "_")
    = Some (record_attempt now pd (current_stats self now (model_id +:+ "_")))
  ∧ (session_stats self !! model_id = None → out.1 = zero_view).
Proof.
  cbn zeta.
  assert (Hkey : session_key model_id "" ≠ model_id).
  { unfold session_key. clear. induction model_id as [|c m IH]; [done|].
    cbn. intros [= H]. by apply IH. }
  assert (Hview : (update_progress self now model_id "" pd).1
                  = get_session_stats self model_id None).
  { unfold update_progress, get_session_stats. cbn [fst session_stats].
    replace (truthy "") with false by done.
    by rewrite lookup_insert_ne. }
  split_and!.
  - done.
  - apply (update_progress_stored self now model_id "" pd).
  - intros Hnone. rewrite Hview. unfold get_session_stats. by rewrite Hnone.
Qed.

(** *** Session keys *)

Lemma append_assoc (a b c : string) : (a +:+ b) +:+ c = a +:+ b +:+ c.
Proof.
  induction a as [|x a IH]; [done|].
  change (String x ((a +:+ b) +:+ c) = String x (a +:+ b +:+ c)).
  by rewrite IH.
Qed.

Lemma underscore_in_key (model_id user_id : string) :
  ¬ no_underscore (session_key model_id user_id).
Proof.
  unfold session_key. induction model_id as [|c m IH]; cbn.
  - intros [H _]. by apply H.
  - intros [_ H]. by apply IH.
Qed.

Lemma session_key_inj m u m' u' :
  no_underscore m → no_underscore m' →
  session_key m u = session_key m' u' → m = m' ∧ u = u'.
Proof.
  unfold session_key. revert m'.
  induction m as [|c m IH]; intros [|c' m']; cbn.
  - intros _ _ [= Heq]. done.
  - intros _ [Hc _] [= Hc' _]. destruct Hc. by rewrite <- Hc'.
  - intros [Hc _] _ [= Hc' _]. destruct Hc. by rewrite Hc'.
  - intros [_ Hm] [_ Hm'] [= Hc Heq].
    destruct (IH m' Hm Hm' Heq) as [Hm1 Hu]. by rewrite Hc, Hm1, Hu.
Qed.

Lemma session_key_suffix_inj m u u' :
  session_key m u = session_key m u' → u = u'.
Proof.
  unfold session_key. induction m as [|c m IH]; cbn.
  - by intros [= Heq].
  - intros [= H]. by apply IH.
Qed.

(** X22: sessions are isolated when model identifiers have no underscore:
    [update_progress] and [reset_user_progress] for one model and user
    leave what [get_session_stats] returns for every other pair of a
    model and a session identifier, and for every model without session
    identifier, as it was.  Identifiers with an underscore can share a
    key: the key of model "a_b" and user "c" is the key of model "a" and
    user "b_c". *)
Theorem sessions_are_isolated self now model_id user_id pd
    other_model other_session :
  no_underscore model_id → no_underscore other_model →
  other_session ≠ Some user_id ∨ other_model ≠ model_id →
  get_session_stats (update_progress self now model_id user_id pd).2
                    other_model other_session
  = get_session_stats self other_model other_session
  ∧ get_session_stats (reset_user_progress self model_id user_id).2
                      other_model other_session
    = get_session_stats self other_model other_session
  ∧ ∀ a b c, session_key (session_key a b) c = session_key a (session_key b c).
Proof.
  intros Hm Ho Hne.
  set (cache_key :=
         match other_session with
         | Some sid =>
             if truthy sid then other_model +:+ "_" +:+ sid else other_model
         | None => other_model
         end).
  assert (Hkey : cache_key ≠ session_key model_id user_id).
  { assert (Hbare : other_model ≠ session_key model_id user_id).
    { intros Heq. apply (underscore_in_key model_id user_id).
      by rewrite <- Heq. }
    subst cache_key. destruct other_session as [sid|]; [|done].
    destruct (truthy sid); [|done].
    intros Heq. fold (session_key other_model sid) in Heq.
    apply session_key_inj in Heq as [-> ->]; [|done..].
    by destruct Hne. }
  split_and!.
  - unfold get_session_stats. fold cache_key.
    by rewrite update_progress_other.
  - unfold get_session_stats. fold cache_key.
    by rewrite reset_session_stats, lookup_delete_ne.
  - intros a b c. unfold session_key. by rewrite !append_assoc.
Qed.

Lemma sessions_are_isolated_witness :
  get_session_stats
    (update_progress (after_calls init [attempt_of true])
                     "2024-01-02T00:00:00" "m" "v" (attempt (attempt_of false))).2
    "m" (Some "u")
  = get_session_stats (after_calls init [attempt_of true]) "m" (Some "u").
Proof.
  apply (sessions_are_isolated (after_calls init [attempt_of true])
           "2024-01-02T00:00:00" "m" "v" (attempt (attempt_of false))
           "m" (Some "u")).
  - by compute.
  - by compute.
  - left. discriminate.
Defined.

(** X23: [reset_user_progress] does not clear the comparison history of
    the user: the histories are stored by target label, and the reset
    removes the one whose target label is spelt like the user identifier,
    leaving the histories of all other target labels of the model, which
    [compare_with_target] wrote, as they were. *)
Theorem reset_keeps_comparison_history self model_id user_id :
  let self' := (reset_user_progress self model_id user_id).2 in
  (∀ target_label,
     target_label ≠ user_id →
     comparison_cache self' !! (model_id +:+ "_" +:+ target_label)
     = comparison_cache self !! (model_id +:+ "_" +:+ target_label))
  ∧ comparison_cache self' !! (model_id +:+ "_" +:+ user_id) = None
  ∧ ∀ fs db now landmarks target_label r,
      target_label ≠ user_id →
      (compare_body self fs db now model_id landmarks target_label).1 = Ok r →
      ∃ history,
        comparison_cache
          (reset_user_progress
             (compare_with_target self fs db now model_id landmarks
                                  target_label).2 model_id user_id).2
        !! (model_id +:+ "_" +:+ target_label) = Some history
        ∧ last history = Some r.
Proof.
  cbn zeta.
  assert (Hframe : ∀ s target_label,
            target_label ≠ user_id →
            comparison_cache (reset_user_progress s model_id user_id).2
            !! (model_id +:+ "_" +:+ target_label)
            = comparison_cache s !! (model_id +:+ "_" +:+ target_label)).
  { intros s target_label Hne. rewrite reset_comparison_cache.
    apply lookup_delete_ne. intros Heq.
    by apply session_key_suffix_inj in Heq. }
  split_and!.
  - apply Hframe.
  - rewrite reset_comparison_cache. apply lookup_delete_eq.
  - intros fs db now landmarks target_label r Hne Hbody.
    rewrite Hframe by done.
    destruct (comparison_history_stored self fs db now model_id landmarks
                target_label r Hbody) as (history & Hh & Hlast).
    by exists history.
Qed.

End Progress.

(** ** Reference images *)

Section References.
Import LearningService Spec.
Local Open Scope R_scope.

Lemma insert_by_score_head {A} (x : A * R) (l : list (A * R)) :
  head (insert_by_score x l)
  = Some (match head l with
          | Some y => if bool_decide (x.2 < y.2) then y else x
          | None => x
          end).
Proof. destruct l as [|y l]; cbn; [done|]. by case_bool_decide. Qed.

Lemma sort_by_score_head {A} (l : list (A * R)) :
  l ≠ [] →
  ∃ i h,
    head (sort_by_score_reverse l) = Some h
    ∧ l !! i = Some h
    ∧ (∀ j y, l !! j = Some y → y.2 <= h.2)
    ∧ (∀ j y, (j < i)%nat → l !! j = Some y → y.2 < h.2).
Proof.
  induction l as [|x l IH]; [done|]. intros _.
  destruct l as [|x' l].
  - exists 0%nat, x. split_and!; [done|done| |lia].
    intros [|j] y; cbn; [|done]. intros [= ->]. lra.
  - destruct IH as (i & h & Hh & Hi & Hmax & Hfirst); [done|].
    change (sort_by_score_reverse (x :: x' :: l))
      with (insert_by_score x (sort_by_score_reverse (x' :: l))).
    rewrite insert_by_score_head, Hh. case_bool_decide as Hlt.
    + exists (S i), h. split_and!; [done|done| |].
      * intros [|j] y; cbn; [intros [= ->]; lra|]. apply Hmax.
      * intros [|j] y Hj; cbn; [by intros [= ->]|]. apply Hfirst. lia.
    + exists 0%nat, x. split_and!; [done|done| |lia].
      intros [|j] y; cbn; [intros [= ->]; lra|]. intros Hy.
      specialize (Hmax j y Hy). lra.
Qed.

Lemma select_best_max (samples : list sample) best s :
  _select_best_reference_sample samples = Ok best →
  s ∈ samples →
  _calculate_reference_quality_score s
  <= _calculate_reference_quality_score best.
Proof.
  unfold _select_best_reference_sample. case_bool_decide as Hlen.
  - destruct samples as [|s0 [|]]; try done. cbn. intros [= <-] Hs.
    apply list_elem_of_singleton in Hs as ->. lra.
  - destruct samples as [|s0 samples]; [done|].
    set (scored := (λ sample, (sample, _calculate_reference_quality_score sample))
                     <$> s0 :: samples).
    destruct (sort_by_score_head scored) as (i & h & Hh & Hi & Hmax & _);
      [done|].
    unfold item. rewrite <- head_lookup, Hh. cbn. intros [= <-] Hs.
    subst scored. rewrite list_lookup_fmap in Hi.
    destruct ((s0 :: samples) !! i) as [best|] eqn:Hbest; [|done].
    injection Hi as <-. cbn.
    apply list_elem_of_lookup_1 in Hs as [j Hj].
    apply (Hmax j (s, _calculate_reference_quality_score s)).
    by rewrite list_lookup_fmap, Hj.
Qed.

(** X24: the reference sample of a label is the first of its best
    samples: [_select_best_reference_sample] returns a sample of the list
    whose quality score no sample of the list exceeds, and every sample
    before it has a strictly smaller score; it raises on the empty list
    only. *)
Theorem best_reference_is_first_maximum (samples : list sample) :
  match _select_best_reference_sample samples with
  | Ok best =>
      ∃ i, samples !! i = Some best
        ∧ (∀ j s, samples !! j = Some s →
             _calculate_reference_quality_score s
             <= _calculate_reference_quality_score best)
        ∧ (∀ j s, (j < i)%nat → samples !! j = Some s →
             _calculate_reference_quality_score s
             < _calculate_reference_quality_score best)
  | Raise _ => samples = []
  end.
Proof.
  unfold _select_best_reference_sample. case_bool_decide as Hlen.
  - destruct samples as [|s [|]]; try done. cbn.
    exists 0%nat. split_and!; [done| |lia].
    intros [|j] s'; cbn; [|done]. intros [= ->]. lra.
  - destruct samples as [|s0 samples]; [done|].
    set (scored := (λ sample, (sample, _calculate_reference_quality_score sample))
                     <$> s0 :: samples).
    destruct (sort_by_score_head scored) as (i & h & Hh & Hi & Hmax & Hfirst);
      [done|].
    unfold item. rewrite <- head_lookup, Hh. cbn.
    subst scored. rewrite list_lookup_fmap in Hi.
    destruct ((s0 :: samples) !! i) as [best|] eqn:Hbest; [|done].
    injection Hi as <-. cbn.
    exists i. split_and!; [done| |].
    + intros j s Hs.
      apply (Hmax j (s, _calculate_reference_quality_score s)).
      by rewrite list_lookup_fmap, Hs.
    + intros j s Hj Hs.
      apply (Hfirst j (s, _calculate_reference_quality_score s) Hj).
      by rewrite list_lookup_fmap, Hs.
Qed.


Lemma score_fingertips_bounds wrist fingertips score :
  let out := score_fingertips wrist fingertips score in
  score <= out.1 <= score + 10 * INR (length fingertips).
Proof.
  revert score. induction fingertips as [|tip tips IH]; intros score.
  - cbn. lra.
  - cbn zeta. cbn [score_fingertips].
    assert (Hlen : INR (length (tip :: tips)) = INR (length tips) + 1).
    { cbn [length]. rewrite S_INR. lra. }
    pose proof (pos_INR (length tips)) as Hpos.
    destruct (planar_distance tip wrist) as [distance|e].
    + case_bool_decide.
      * specialize (IH (score + 10)). cbn zeta in IH. lra.
      * specialize (IH score). cbn zeta in IH. lra.
    + cbn [fst]. lra.
Qed.

Lemma mapM_result_length {A B} (f : A → result B) (l : list A) (k : list B) :
  mapM f l = Ok k → length k = length l.
Proof.
  revert k. induction l as [|x l IH]; intros k; cbn [mapM].
  - by intros [= <-].
  - destruct (f x) as [y|]; cbn; [|done].
    destruct (mapM f l) as [k'|]; cbn; [|done].
    intros [= <-]. cbn. by rewrite (IH k').
Qed.

Lemma score_complete (s : sample) :
  complete s → 30 <= _calculate_reference_quality_score s <= 105.
Proof.
  intros (landmarks & Hl & Hlen). unfold _calculate_reference_quality_score.
  rewrite Hl, bool_decide_eq_true_2 by done.
  assert (Hbody :
    30 <= match
            wrist ← item landmarks 0%nat;
            fingertips ← mapM (item landmarks) [4; 8; 12; 16; 20]%nat;
            mret (wrist, fingertips)
          with
          | Raise _ => 0.0 + 50 - 20
          | Ok (wrist, fingertips) =>
              match score_fingertips wrist fingertips (0.0 + 50) with
              | (score, None) => score
              | (score, Some _) => score - 20
              end
          end <= 100).
  { destruct (item landmarks 0) as [wrist|]; cbn [mbind result_bind];
      [|lra].
    destruct (mapM (item landmarks) [4; 8; 12; 16; 20]%nat) as [tips|] eqn:Ht;
      cbn [mbind result_bind mret result_ret]; [|lra].
    apply mapM_result_length in Ht.
    pose proof (score_fingertips_bounds wrist tips (0.0 + 50)) as Hb.
    cbn zeta in Hb. rewrite Ht in Hb. cbn [length] in Hb.
    replace (INR 5) with 5 in Hb by (cbn; lra).
    destruct (score_fingertips wrist tips (0.0 + 50)) as [score [e|]];
      cbn [fst] in Hb; lra. }
  destruct (s_created_at s); lra.
Qed.

Lemma score_incomplete (s : sample) :
  ¬ complete s → Ropp 20 <= _calculate_reference_quality_score s <= 5.
Proof.
  intros Hs. unfold _calculate_reference_quality_score.
  destruct (s_landmarks s) as [[landmarks|e]|] eqn:Hl.
  - rewrite bool_decide_eq_false_2.
    + destruct (s_created_at s); lra.
    + intros Hlen. apply Hs. by exists landmarks.
  - destruct (s_created_at s); lra.
  - destruct (s_created_at s); lra.
Qed.

(** X25: a complete sample is preferred: when one of the samples of a
    label has a list of 21 landmarks, the reference sample that
    [_select_best_reference_sample] returns has one too, even if some of
    its points cannot be read. *)
Theorem complete_reference_is_preferred (samples : list sample) best s :
  _select_best_reference_sample samples = Ok best →
  s ∈ samples → complete s → complete best.
Proof.
  intros Hbest Hs Hc.
  pose proof (select_best_max samples best s Hbest Hs) as Hmax.
  pose proof (score_complete s Hc) as Hhigh.
  assert (complete best ∨ ¬ complete best) as [|Hn]; [|done|].
  { unfold complete. destruct (s_landmarks best) as [[l|e]|].
    - destruct (decide (length l = 21%nat)) as [Hlen|Hlen].
      + left. by exists l.
      + right. intros (l' & [= <-] & Hl'). done.
    - right. by intros (l' & Hl' & _).
    - right. by intros (l' & Hl' & _). }
  pose proof (score_incomplete best Hn). lra.
Qed.

Lemma hand_sample_complete : complete hand_sample.
Proof. exists open_hand. by split. Qed.

Lemma select_second_of_two (a b : sample) :
  _calculate_reference_quality_score a < _calculate_reference_quality_score b →
  _select_best_reference_sample [a; b] = Ok b.
Proof.
  intros Hlt. unfold _select_best_reference_sample.
  rewrite bool_decide_eq_false_2 by done. cbn.
  by rewrite bool_decide_eq_true_2.
Qed.

Lemma complete_reference_is_preferred_witness : complete hand_sample.
Proof.
  apply (complete_reference_is_preferred [blank_sample; hand_sample]
           hand_sample hand_sample).
  - apply select_second_of_two.
    pose proof (score_complete hand_sample hand_sample_complete).
    assert (¬ complete blank_sample) as Hb by (by intros (l & Hl & _)).
    pose proof (score_incomplete blank_sample Hb). lra.
  - apply elem_of_cons. right. apply elem_of_cons. by left.
  - apply hand_sample_complete.
Defined.

(** *** The list of reference images *)

Lemma rows_of_snoc label (datasets : list sample) d :
  rows_of label (datasets ++ [d])
  = rows_of label datasets ++ (if decide (s_label d = label) then [d] else []).
Proof.
  unfold rows_of. rewrite filter_app. by f_equal.
Qed.

Lemma rows_of_nil label (datasets : list sample) :
  label ∉ s_label <$> datasets → rows_of label datasets = [].
Proof.
  unfold rows_of. induction datasets as [|d ds IH]; [done|].
  cbn [fmap list_fmap]. intros Hn. apply not_elem_of_cons in Hn as [Hd Hn].
  rewrite filter_cons. destruct (decide _) as [Heq|_]; [by destruct Hd|].
  by apply IH.
Qed.

Lemma append_reference_spec (references : list (string * list sample))
    (datasets : list sample) d :
  NoDup references.*1 →
  grouped datasets references →
  (s_label d ∉ references.*1 → rows_of (s_label d) datasets = []) →
  NoDup (append_reference references d).*1
  ∧ grouped (datasets ++ [d]) (append_reference references d)
  ∧ ∀ label, label ∈ (append_reference references d).*1
             ↔ label ∈ references.*1 ∨ label = s_label d.
Proof.
  unfold grouped.
  induction references as [|[label samples] refs IH]; intros Hnd Hgr Hnew.
  - cbn. split_and!.
    + apply NoDup_singleton.
    + apply Forall_singleton. cbn. rewrite rows_of_snoc, Hnew.
      * by rewrite decide_True.
      * apply not_elem_of_nil.
    + intros l. rewrite list_elem_of_singleton, elem_of_nil. tauto.
  - cbn [append_reference]. cbn [fmap list_fmap fst] in Hnd.
    apply NoDup_cons in Hnd as [Hhd Hnd].
    apply Forall_cons in Hgr as [[Hrows Hne] Hgr]. cbn [fst snd] in Hrows, Hne.
    case_bool_decide as Heq.
    + cbn [fmap list_fmap fst]. split_and!.
      * by apply NoDup_cons.
      * apply Forall_cons. split.
        -- cbn [fst snd]. rewrite rows_of_snoc, decide_True by done.
           split; [by rewrite Hrows|]. by destruct samples.
        -- apply Forall_forall. intros [l k] Hin.
           rewrite Forall_forall in Hgr. destruct (Hgr _ Hin) as [Hk Hkne].
           cbn [fst snd] in *. rewrite rows_of_snoc, decide_False.
           ++ by rewrite app_nil_r.
           ++ intros Hl. apply Hhd. rewrite Heq, Hl.
              apply list_elem_of_fmap. by exists (l, k).
      * intros l. rewrite Heq. rewrite !elem_of_cons. tauto.
    + destruct IH as (IHnd & IHgr & IHkeys); [done|done| |].
      { intros Hn. apply Hnew. cbn [fmap list_fmap fst].
        apply not_elem_of_cons. split; [congruence|done]. }
      cbn [fmap list_fmap fst]. split_and!.
      * apply NoDup_cons. split; [|done]. rewrite IHkeys.
        intros [Hin|Hl]; [by apply Hhd|by apply Heq].
      * apply Forall_cons. split; [|done]. cbn [fst snd].
        rewrite rows_of_snoc, decide_False by congruence.
        by rewrite app_nil_r.
      * intros l. rewrite !elem_of_cons, IHkeys. tauto.
Qed.

Lemma references_grouped (datasets : list sample) :
  let references := foldl append_reference [] datasets in
  NoDup references.*1
  ∧ grouped datasets references
  ∧ ∀ label, label ∈ references.*1 ↔ label ∈ s_label <$> datasets.
Proof.
  cbn zeta. induction datasets as [|d ds IH] using rev_ind.
  - cbn. split_and!; [apply NoDup_nil_2|apply Forall_nil_2|done].
  - destruct IH as (Hnd & Hgr & Hkeys). rewrite foldl_snoc.
    destruct (append_reference_spec (foldl append_reference [] ds) ds d)
      as (Hnd' & Hgr' & Hkeys'); [done|done| |].
    { intros Hn. apply rows_of_nil. by rewrite <- Hkeys. }
    split_and!; [done|done|].
    intros label. rewrite Hkeys', Hkeys, fmap_app, elem_of_app.
    cbn. rewrite list_elem_of_singleton. done.
Qed.

Lemma select_best_nonempty (samples : list sample) :
  samples ≠ [] → ∃ best, _select_best_reference_sample samples = Ok best.
Proof.
  intros Hne. unfold _select_best_reference_sample. case_bool_decide.
  - destruct samples as [|s samples]; [done|]. by exists s.
  - set (scored := (λ sample, (sample, _calculate_reference_quality_score sample))
                     <$> samples).
    destruct (sort_by_score_head scored) as (i & h & Hh & _).
    { subst scored. by destruct samples. }
    unfold item. rewrite <- head_lookup, Hh. by eexists.
Qed.

Lemma mapM_result_ok {A B} (f : A → result B) (l : list A) :
  (∀ x, x ∈ l → ∃ y, f x = Ok y) →
  ∃ k, mapM f l = Ok k ∧ Forall2 (λ x y, f x = Ok y) l k.
Proof.
  induction l as [|x l IH]; intros Hok.
  - exists []. by split.
  - destruct (Hok x) as [y Hy]; [by left|].
    destruct IH as (k & Hk & Hall).
    { intros x' Hx'. apply Hok. by right. }
    exists (y :: k). cbn [mapM]. rewrite Hy, Hk. split; [done|].
    by constructor.
Qed.

Lemma insert_by_label_perm x l : insert_by_label x l ≡ₚ x :: l.
Proof.
  induction l as [|y l IH]; [done|]. cbn.
  destruct (String.ltb _ _); [|done]. rewrite IH. apply Permutation_swap.
Qed.

Lemma sorted_by_label_perm l : sorted_by_label l ≡ₚ l.
Proof.
  induction l as [|x l IH]; [done|].
  change (sorted_by_label (x :: l)) with (insert_by_label x (sorted_by_label l)).
  by rewrite insert_by_label_perm, IH.
Qed.

Lemma ltb_leb (a b : string) :
  String.ltb a b = true → String.leb a b = true.
Proof.
  unfold String.ltb, String.leb. by destruct (String.compare a b).
Qed.

Lemma not_ltb_leb (a b : string) :
  String.ltb a b = false → String.leb b a = true.
Proof.
  unfold String.ltb, String.leb. rewrite (String.compare_antisym a b).
  by destruct (String.compare b a).
Qed.

Lemma insert_by_label_sorted x l :
  Sorted label_le l → Sorted label_le (insert_by_label x l).
Proof.
  induction 1 as [|y l Hs IH Hhd]; cbn.
  - by repeat constructor.
  - destruct (String.ltb (r_label y) (r_label x)) eqn:Hlt.
    + constructor; [done|].
      destruct l as [|z l]; cbn.
      * constructor. by apply ltb_leb.
      * destruct (String.ltb (r_label z) (r_label x)).
        -- constructor. by inversion Hhd.
        -- constructor. by apply ltb_leb.
    + constructor; [by constructor|]. constructor. by apply not_ltb_leb.
Qed.

Lemma sorted_by_label_sorted l : Sorted label_le (sorted_by_label l).
Proof.
  induction l as [|x l IH]; [constructor|].
  change (sorted_by_label (x :: l)) with (insert_by_label x (sorted_by_label l)).
  by apply insert_by_label_sorted.
Qed.

(** X26: [get_reference_images] lists every label of the model once, in
    the order of the labels: when the database answers, the list has one
    entry for each label that has a row and no other, sorted by label;
    the entry counts the rows of its label, and its image, landmarks and
    creation time are those of the sample that
    [_select_best_reference_sample] returns for the rows of the label in
    the order of the table. *)
Theorem reference_images_by_label db all_datasets model_id datasets :
  session_local db = None → close db = None →
  all_datasets model_id = Ok datasets →
  ∃ refs,
    get_reference_images db all_datasets model_id = Ok refs
    ∧ NoDup (r_label <$> refs)
    ∧ Sorted label_le refs
    ∧ (∀ label, label ∈ r_label <$> refs ↔ label ∈ s_label <$> datasets)
    ∧ ∀ ref, ref ∈ refs →
        r_totalSamples ref = length (rows_of (r_label ref) datasets)
        ∧ ∃ best,
            _select_best_reference_sample (rows_of (r_label ref) datasets)
            = Ok best
            ∧ r_referenceImage ref = s_image_data best
            ∧ r_landmarks ref = s_landmarks best
            ∧ r_created ref = s_created_at best.
Proof.
  intros Hopen Hclose Hrows. unfold get_reference_images.
  rewrite Hopen, Hclose, Hrows. cbn [mbind result_bind].
  destruct (references_grouped datasets) as (Hnd & Hgr & Hkeys).
  cbn zeta in Hnd, Hgr, Hkeys.
  set (references := foldl append_reference [] datasets) in *.
  set (entry_of := λ entry : string * list sample,
         let '(label, samples) := entry in
         best_sample ← _select_best_reference_sample samples;
         mret {| r_label := label;
                 r_referenceImage := s_image_data best_sample;
                 r_totalSamples := length samples;
                 r_landmarks := s_landmarks best_sample;
                 r_created := s_created_at best_sample |}).
  unfold grouped in Hgr. rewrite Forall_forall in Hgr.
  destruct (mapM_result_ok entry_of references) as (result & Hres & Hall).
  { intros [label samples] Hin. destruct (Hgr _ Hin) as [_ Hne].
    destruct (select_best_nonempty samples Hne) as [best Hbest].
    subst entry_of. cbn. rewrite Hbest. by eexists. }
  rewrite Hres. cbn [mbind result_bind mret result_ret].
  exists (sorted_by_label result).
  assert (Hlabels : r_label <$> result = references.*1).
  { clear -Hall. induction Hall as [|[label samples] ref l k Hx _ IH]; [done|].
    cbn [fmap list_fmap]. rewrite IH. f_equal.
    subst entry_of. cbn in Hx.
    destruct (_select_best_reference_sample samples); by inversion Hx. }
  split_and!.
  - done.
  - rewrite (sorted_by_label_perm result), Hlabels. done.
  - apply sorted_by_label_sorted.
  - intros label. rewrite (sorted_by_label_perm result), Hlabels. apply Hkeys.
  - intros ref Href. rewrite (sorted_by_label_perm result) in Href.
    apply list_elem_of_lookup_1 in Href as [i Hi].
    destruct (Forall2_lookup_r _ _ _ _ _ Hall Hi)
      as ([label samples] & Hentry & Hok).
    apply list_elem_of_lookup_2 in Hentry.
    destruct (Hgr _ Hentry) as [Hsamples _]. cbn [fst snd] in Hsamples.
    subst entry_of. cbn in Hok.
    destruct (_select_best_reference_sample samples) as [best|] eqn:Hbest;
      [|done].
    injection Hok as <-. cbn. rewrite <- Hsamples. split; [done|].
    by exists best.
Qed.

Lemma reference_images_by_label_witness :
  ∃ refs, get_reference_images no_samples two_rows "m" = Ok refs
          ∧ NoDup (r_label <$> refs).
Proof.
  destruct (reference_images_by_label no_samples two_rows "m"
              [blank_sample; hand_sample])
    as (refs & Hrefs & Hnd & _); [reflexivity..|].
  by exists refs.
Defined.

End References.

(** ** Label performance *)

Section Performance.
Import LearningService Spec.
Local Open Scope R_scope.

Lemma recommendations_lists (success_rate avg_confidence : R) (label : string) :
  (1 ≤ length (_generate_recommendations success_rate avg_confidence label)
   ≤ 4)%nat
  ∧ _assess_difficulty success_rate avg_confidence ∈ difficulties.
Proof.
  unfold _generate_recommendations, _assess_difficulty, difficulties. split.
  - repeat case_bool_decide; cbn [app length] in *; try done; try lia; lra.
  - repeat case_bool_decide; cbn; rewrite !elem_of_cons; tauto.
Qed.

(** X27: the recommendations fit the difficulty: for every success rate
    and average confidence [_generate_recommendations] returns between
    one and four recommendations; for a label that [_assess_difficulty]
    rates "easy" the only one is the praise, and for a label rated
    "very_hard" the first one is the advice to practise the label. *)
Theorem recommendations_fit_difficulty (success_rate avg_confidence : R)
    (label : string) :
  let recommendations :=
    _generate_recommendations success_rate avg_confidence label in
  let difficulty := _assess_difficulty success_rate avg_confidence in
  (1 ≤ length recommendations ≤ 4)%nat
  ∧ difficulty ∈ difficulties
  ∧ (difficulty = "easy" → recommendations = [praise])
  ∧ (difficulty = "very_hard"
     → head recommendations = Some (practice_advice label))
  ∧ (praise ∈ recommendations → recommendations = [praise]).
Proof.
  cbn zeta.
  destruct (recommendations_lists success_rate avg_confidence label)
    as [Hlen Hdiff].
  split; [done|]. split; [done|]. clear Hlen Hdiff.
  unfold _generate_recommendations, _assess_difficulty. split_and!.
  - do 3 (case_bool_decide; try done).
    all: intros _; repeat case_bool_decide; cbn [app] in *; try done; lra.
  - do 3 (case_bool_decide; try done).
    intros _. rewrite (bool_decide_eq_true_2 (success_rate < 50)) by lra.
    repeat case_bool_decide; done.
  - repeat case_bool_decide; cbn [app] in *; try done;
      rewrite ?elem_of_cons, ?elem_of_nil; unfold praise, practice_advice;
      intros Hin; exfalso; decompose [or] Hin; try done; discriminate.
Qed.

Lemma record_attempt_labels_ok now pd st :
  labels_ok st → labels_ok (record_attempt now pd st).
Proof.
  intros Hok label ls. unfold record_attempt. cbn [labelProgress].
  destruct (pd_targetLabel pd) as [target|]; [|apply Hok].
  destruct (truthy target); [|apply Hok].
  destruct (decide (label = target)) as [->|Hne].
  - rewrite lookup_insert_eq. intros [= <-]. cbn [attempts successes].
    destruct (labelProgress st !! target) as [old|] eqn:Hold.
    + destruct (Hok _ _ Hold). cbn. destruct (is_correct pd); lia.
    + cbn. destruct (is_correct pd); lia.
  - rewrite lookup_insert_ne by done. apply Hok.
Qed.

Lemma after_calls_labels_ok self calls :
  (∀ key st, session_stats self !! key = Some st → labels_ok st) →
  ∀ key st,
    session_stats (after_calls self calls) !! key = Some st → labels_ok st.
Proof.
  intros Hinv. induction calls as [|c calls IH] using rev_ind; [done|].
  rewrite after_calls_snoc. intros key st.
  destruct (decide (key = session_key (for_model c) (for_user c))) as [->|Hne].
  - rewrite update_progress_stored. intros [= <-].
    apply record_attempt_labels_ok. unfold current_stats.
    destruct (session_stats (after_calls self calls) !! _) as [old|] eqn:E.
    + by apply (IH _ _ E).
    + intros label ls. cbn. by rewrite lookup_empty.
  - rewrite update_progress_other by done. apply IH.
Qed.

(** X28: the performance of a label is known exactly when the label has
    been attempted: when the stored label entries are consistent (as in a
    new service), then after any sequence of calls of [update_progress]
    [get_label_performance] reports successes between 0 and the attempts
    and a success rate between 0 and 100; it reports the difficulty
    "unknown" exactly when it reports no attempt, and then no
    recommendation, and otherwise one of the four difficulties with at
    least one recommendation. *)
Theorem label_performance_is_known_after_attempt self (calls : list call)
    model_id label user_id :
  (∀ key st, session_stats self !! key = Some st → labels_ok st) →
  let p := get_label_performance (after_calls self calls)
                                 model_id label user_id in
  (0 ≤ p_successes p ≤ p_attempts p)%Z
  ∧ 0 <= p_successRate p <= 100
  ∧ (p_difficulty p = "unknown" ↔ p_attempts p = 0%Z)
  ∧ (p_attempts p = 0%Z → p_recommendations p = [])
  ∧ (p_attempts p ≠ 0%Z
     → p_difficulty p ∈ difficulties ∧ p_recommendations p ≠ []).
Proof.
  intros Hinv. cbn zeta. unfold get_label_performance.
  destruct (session_stats (after_calls self calls)
              !! session_key model_id user_id) as [st|] eqn:Hst.
  2: { cbn. split_and!; try done; try lra; lia. }
  destruct (labelProgress st !! label) as [ls|] eqn:Hls.
  2: { cbn. split_and!; try done; try lra; lia. }
  destruct (after_calls_labels_ok self calls Hinv _ _ Hst _ _ Hls)
    as [Hs Ha].
  pose proof (recommendations_lists
                (IZR (successes ls) / IZR (Z.max (attempts ls) 1) * 100)
                (averageConfidence ls) label) as (Hlen & Hdiff).
  cbn. split; [done|]. split.
  { set (c := successes ls) in *. set (t := attempts ls) in *.
    assert (Ht : 1 <= IZR (Z.max t 1)) by (apply IZR_le; lia).
    assert (Hc0 : 0 <= IZR c) by (apply IZR_le; lia).
    assert (Hct : IZR c <= IZR (Z.max t 1)) by (apply IZR_le; lia).
    assert (Hq : 0 <= IZR c / IZR (Z.max t 1) <= 1).
    { split.
      - apply Rmult_le_pos; [done|]. left. apply Rinv_0_lt_compat. lra.
      - apply Rmult_le_reg_r with (IZR (Z.max t 1)); [lra|].
        unfold Rdiv. rewrite Rmult_assoc, Rinv_l by lra. lra. }
    lra. }
  split.
  { split; [|lia]. intros Hu. rewrite Hu in Hdiff. exfalso.
    unfold difficulties in Hdiff. rewrite !elem_of_cons, elem_of_nil in Hdiff.
    decompose [or] Hdiff; done. }
  split; [lia|].
  intros _. split; [done|]. intros Hnil. rewrite Hnil in Hlen. cbn in Hlen. lia.
Qed.

Lemma label_performance_is_known_after_attempt_witness :
  let p := get_label_performance (after_calls init [attempt_of true])
                                 "m" "A" "u" in
  (0 ≤ p_successes p ≤ p_attempts p)%Z ∧ 0 <= p_successRate p <= 100.
Proof.
  destruct (label_performance_is_known_after_attempt
              init [attempt_of true] "m" "A" "u") as (Hs & Hr & _).
  - intros key st H. cbn in H. by rewrite lookup_empty in H.
  - by split.
Defined.

End Performance.

(** ** Training data and class weights *)

Section TrainingData.
Import MLService Spec.
Local Open Scope R_scope.

Lemma occurrences_snoc c (y : list Z) x :
  occurrences c (y ++ [x])
  = (occurrences c y + (if decide (x = c) then 1 else 0))%nat.
Proof.
  unfold occurrences. rewrite filter_app, length_app. f_equal.
  rewrite filter_cons, filter_nil. by destruct (decide (x = c)).
Qed.

Lemma occurrences_zero c (y : list Z) : occurrences c y = 0%nat ↔ c ∉ y.
Proof.
  unfold occurrences. induction y as [|x y IH].
  - split; [intros _; apply not_elem_of_nil | done].
  - rewrite filter_cons, not_elem_of_cons. destruct (decide (x = c)) as [->|Hne].
    + cbn. split; [done|]. by intros [? _].
    + rewrite IH. split; [by split|by intros [_ ?]].
Qed.

Lemma Counter_lookup (y : list Z) c :
  Counter y !! c
  = if decide (occurrences c y = 0%nat) then None else Some (occurrences c y).
Proof.
  unfold Counter. induction y as [|x y IH] using rev_ind; [done|].
  rewrite foldl_snoc, occurrences_snoc.
  destruct (decide (x = c)) as [->|Hne].
  - rewrite lookup_insert_eq, IH.
    rewrite (decide_False (P := (_ + 1 = 0)%nat)) by lia. f_equal.
    destruct (decide (occurrences c y = 0%nat)) as [->|]; cbn; lia.
  - rewrite lookup_insert_ne by done. rewrite IH.
    by replace (occurrences c y + 0)%nat with (occurrences c y) by lia.
Qed.

Lemma size_Counter (y : list Z) :
  size (Counter y) = length (remove_dups y).
Proof.
  rewrite <- (size_dom (D := gset Z)).
  rewrite <- (size_list_to_set (C := gset Z) (remove_dups y))
    by apply NoDup_remove_dups.
  f_equal. apply set_eq. intros c.
  rewrite elem_of_dom, elem_of_list_to_set, elem_of_remove_dups, Counter_lookup.
  pose proof (occurrences_zero c y) as Hz.
  destruct (decide (occurrences c y = 0%nat)) as [H0|H0].
  - split; [by intros [? ?]|]. intros Hin. by apply Hz in Hin.
  - split; [|by eexists]. intros _.
    destruct (decide (c ∈ y)) as [|Hn]; [done|]. by apply Hz in Hn.
Qed.

Lemma length_partition (y : list Z) c :
  length y = (occurrences c y + length (filter (λ x, x ≠ c) y))%nat.
Proof.
  unfold occurrences. induction y as [|x y IH]; [done|].
  rewrite !filter_cons. destruct (decide (x = c)), (decide (x ≠ c));
    cbn [length]; try done; lia.
Qed.

Lemma occurrences_filter_ne (y : list Z) c c' :
  c' ≠ c → occurrences c' (filter (λ x, x ≠ c) y) = occurrences c' y.
Proof.
  intros Hne. unfold occurrences. induction y as [|x y IH]; [done|].
  rewrite !filter_cons.
  destruct (decide (x ≠ c)) as [Hx|Hx], (decide (x = c')) as [Hx'|Hx'].
  - rewrite filter_cons, decide_True by done. cbn. by rewrite IH.
  - rewrite filter_cons, decide_False by done. done.
  - destruct (decide (x = c)) as [Hc|Hc]; [|by destruct Hx].
    destruct Hne. by rewrite <- Hx', Hc.
  - done.
Qed.

Lemma balanced_length (classes y : list Z) (k : nat) :
  NoDup classes →
  (∀ x, x ∈ y → x ∈ classes) →
  (∀ c, c ∈ classes → occurrences c y = k) →
  length y = (length classes * k)%nat.
Proof.
  revert y. induction classes as [|c classes IH]; intros y Hnd Hin Hk.
  - destruct y as [|x y]; [done|]. specialize (Hin x). rewrite elem_of_nil in Hin.
    destruct Hin. by left.
  - apply NoDup_cons in Hnd as [Hc Hnd].
    rewrite (length_partition y c).
    rewrite (IH (filter (λ x, x ≠ c) y)); [|done| |].
    + rewrite (Hk c) by (by left). cbn [length]. lia.
    + intros x Hx. apply list_elem_of_filter in Hx as [Hne Hx].
      specialize (Hin x Hx). apply elem_of_cons in Hin as [?|?]; done.
    + intros c' Hc'. rewrite occurrences_filter_ne.
      * apply Hk. by right.
      * intros ->. done.
Qed.

(** X29: the class weights balance the classes: [_calculate_class_weights]
    gives a weight to exactly the classes that occur; every weight is
    positive; a class with fewer samples never has the smaller weight;
    and when all classes have the same number of samples every weight
    is 1. *)
Theorem class_weights_balance (y_train : list Z) :
  let weights := _calculate_class_weights y_train in
  (∀ c, c ∉ y_train → weights !! c = None)
  ∧ (∀ c, c ∈ y_train → ∃ w, weights !! c = Some w ∧ 0 < w)
  ∧ (∀ c d wc wd,
       weights !! c = Some wc → weights !! d = Some wd →
       (occurrences c y_train ≤ occurrences d y_train)%nat → wd <= wc)
  ∧ (∀ k, (∀ c, c ∈ y_train → occurrences c y_train = k) →
          ∀ c, c ∈ y_train → weights !! c = Some 1).
Proof.
  cbn zeta. unfold _calculate_class_weights. rewrite size_Counter.
  assert (Hpos : ∀ c, c ∈ y_train →
            0 < INR (occurrences c y_train)
            ∧ 0 < INR (length (remove_dups y_train))
            ∧ 0 < INR (length y_train)
            ∧ Counter y_train !! c = Some (occurrences c y_train)).
  { intros c Hc. split_and!.
    - apply lt_0_INR. pose proof (occurrences_zero c y_train) as Hz.
      destruct (occurrences c y_train); [|lia]. by apply Hz in Hc.
    - apply lt_0_INR. apply elem_of_remove_dups in Hc.
      destruct (remove_dups y_train); [by apply elem_of_nil in Hc|cbn; lia].
    - apply lt_0_INR. destruct y_train; [by apply elem_of_nil in Hc|cbn; lia].
    - rewrite Counter_lookup, decide_False; [done|].
      intros Hz. by apply occurrences_zero in Hz. }
  assert (Hnone : ∀ c, c ∉ y_train →
            (λ count : nat,
               INR (length y_train)
               / (INR (length (remove_dups y_train)) * INR count))
              <$> Counter y_train !! c = None).
  { intros c Hc. rewrite Counter_lookup.
    by rewrite decide_True by (by apply occurrences_zero). }
  split_and!.
  - intros c Hc. rewrite lookup_fmap. by apply Hnone.
  - intros c Hc. destruct (Hpos c Hc) as (Hn & Hnum & Hlen & Hlookup).
    eexists. rewrite lookup_fmap, Hlookup. cbn. split; [done|].
    apply Rdiv_lt_0_compat; [done|]. by apply Rmult_lt_0_compat.
  - intros c d wc wd Hc Hd Hle. rewrite lookup_fmap in Hc, Hd.
    destruct (decide (c ∈ y_train)) as [Hcin|Hcin];
      [|by rewrite (Hnone c Hcin) in Hc].
    destruct (decide (d ∈ y_train)) as [Hdin|Hdin];
      [|by rewrite (Hnone d Hdin) in Hd].
    destruct (Hpos c Hcin) as (Hnc & Hnum & Hlen & Hlc).
    destruct (Hpos d Hdin) as (Hnd & _ & _ & Hld).
    rewrite Hlc in Hc. rewrite Hld in Hd. cbn in Hc, Hd.
    injection Hc as <-. injection Hd as <-.
    apply le_INR in Hle.
    set (n := INR (length y_train)) in *.
    set (k := INR (length (remove_dups y_train))) in *.
    set (nc := INR (occurrences c y_train)) in *.
    set (nd := INR (occurrences d y_train)) in *.
    assert (Hkc : 0 < k * nc) by (by apply Rmult_lt_0_compat).
    assert (Hkd : 0 < k * nd) by (by apply Rmult_lt_0_compat).
    unfold Rdiv. apply Rmult_le_compat_l; [lra|].
    apply Rinv_le_contravar; [done|]. apply Rmult_le_compat_l; lra.
  - intros k Hk c Hc. destruct (Hpos c Hc) as (Hn & Hnum & Hlen & Hlookup).
    rewrite lookup_fmap, Hlookup. cbn. f_equal.
    rewrite (balanced_length (remove_dups y_train) y_train k).
    + rewrite (Hk c Hc) in *. rewrite mult_INR. field. lra.
    + apply NoDup_remove_dups.
    + intros x. by rewrite elem_of_remove_dups.
    + intros c' Hc'. apply Hk. by apply elem_of_remove_dups.
Qed.

(** *** The samples that are kept *)

Lemma has_xyz_numeric (lm : landmark) : has_xyz lm = true ↔ numeric_xyz lm.
Proof.
  unfold has_xyz, numeric_xyz. cbn [forallb].
  rewrite !andb_true_iff, !bool_decide_eq_true. tauto.
Qed.

Lemma valid_landmarks_Some (landmarks : list (option landmark)) dicts :
  valid_landmarks landmarks = Some dicts
  ↔ landmarks = Some <$> dicts ∧ Forall numeric_xyz dicts.
Proof.
  revert dicts. induction landmarks as [|[lm|] landmarks IH]; intros dicts.
  - cbn. split.
    + intros [= <-]. by split.
    + intros [Hnil _]. by destruct dicts.
  - cbn [valid_landmarks]. destruct (has_xyz lm) eqn:Hxyz.
    + destruct (valid_landmarks landmarks) as [rest|]; cbn.
      * split.
        -- intros [= <-]. destruct (proj1 (IH rest) eq_refl) as [-> Hall].
           split; [done|]. constructor; [by apply has_xyz_numeric|done].
        -- intros [Heq Hall]. destruct dicts as [|d dicts]; [done|].
           injection Heq as <- Heq. apply Forall_cons in Hall as [_ Hall].
           f_equal. f_equal.
           assert (Some rest = Some dicts) as [= ->]; [|done].
           by apply IH.
      * split; [done|]. intros [Heq Hall].
        destruct dicts as [|d dicts]; [done|].
        injection Heq as <- Heq. apply Forall_cons in Hall as [_ Hall].
        assert (None = Some dicts); [|done]. by apply IH.
    + split; [done|]. intros [Heq Hall].
      destruct dicts as [|d dicts]; [done|].
      injection Heq as <- Heq. apply Forall_cons in Hall as [Hd _].
      apply has_xyz_numeric in Hd. congruence.
  - cbn. split; [done|]. intros [Heq _]. by destruct dicts.
Qed.

Lemma extract_features_ok (landmarks : list landmark) :
  length landmarks = 21%nat →
  ∃ features,
    _extract_features_fixed landmarks = Ok features
    ∧ length features = 78%nat.
Proof.
  intros Hlen.
  destruct (raw_features_shape (to_coords landmarks))
    as (wrist & tb & tw & angles & _ & _ & _ & _ & _ & _ & _ & Hraw).
  { unfold to_coords. by rewrite length_fmap. }
  eexists. split.
  - by apply extract_features_raw.
  - apply fixed_length.
Qed.

Lemma prepare_sample_usable (sample : training_sample) :
  match prepare_sample sample with
  | Some (features, label) =>
      label = ts_label sample
      ∧ length features = 78%nat
      ∧ ∃ landmarks,
          ts_landmarks sample = Some (Some <$> landmarks)
          ∧ length landmarks = 21%nat
          ∧ Forall numeric_xyz landmarks
          ∧ _extract_features_fixed landmarks = Ok features
  | None => ¬ usable sample
  end.
Proof.
  unfold prepare_sample, usable.
  destruct (ts_landmarks sample) as [landmarks|]; [|by intros (? & ? & _)].
  case_bool_decide as Hlen.
  { intros (dicts & [= ->] & Hl & _). apply Hlen. by rewrite length_fmap. }
  destruct (valid_landmarks landmarks) as [dicts|] eqn:Hvalid.
  - apply valid_landmarks_Some in Hvalid as [-> Hall].
    assert (Hl : length dicts = 21%nat).
    { rewrite length_fmap in Hlen. by destruct (decide (length dicts = 21%nat)). }
    destruct (extract_features_ok dicts Hl) as (features & Hex & Hf).
    rewrite Hex. split_and!; [done|done|]. by exists dicts.
  - intros (dicts & [= ->] & _ & Hall).
    assert (None = Some dicts); [|done].
    rewrite <- Hvalid. by apply valid_landmarks_Some.
Qed.

#[local] Instance usable_dec sample : Decision (usable sample).
Proof.
  pose proof (prepare_sample_usable sample) as H.
  destruct (prepare_sample sample) as [[features label]|].
  - left. destruct H as (_ & _ & landmarks & ? & ? & ? & _). by exists landmarks.
  - by right.
Defined.


End TrainingData.
